(** * Second Spectrum event-stream deserializer (kloppy): shallow embedding

    The development follows the Python sources

    - [parsers/insight.py]        raw-event extraction and the mapping loop,
    - [parsers/metadata_json.py]  frame rate and periods of the metadata,
    - [parsers/__init__.py]       selection of the metadata parser,
    - [deserializer.py]           the filter on deleted events.

    Python exceptions are values of [pyerror]; every fallible function returns
    a [result].  Objects that the loop mutates in place (the periods) live in
    an explicit store and are referred to by position. *)

From Stdlib Require Import ZArith List String Ascii Bool Lia QArith Qround.
Import ListNotations.

Set Warnings "-register-all".

Local Open Scope string_scope.
Local Open Scope Z_scope.

(** ** Exceptions and the error monad *)

Inductive pyerror : Type :=
| DeserializationError (msg : string)
| NotImplementedError (msg : string)
| AttributeError
| TypeError
| ValueError
| KeyError
| IndexError
| UnboundLocalError
| ZeroDivisionError
| UnicodeDecodeError
| ExternalError.

Inductive result (A : Type) : Type :=
| Ok (a : A)
| Err (e : pyerror).

Arguments Ok {A} a.
Arguments Err {A} e.

Definition bind {A B : Type} (m : result A) (k : A -> result B) : result B :=
  match m with
  | Ok a => k a
  | Err e => Err e
  end.

Notation "x <- m ;; k" := (bind m (fun x => k))
  (at level 61, m at next level, right associativity).

Definition of_option {A : Type} (e : pyerror) (o : option A) : result A :=
  match o with
  | Some a => Ok a
  | None => Err e
  end.

Definition is_ok {A : Type} (r : result A) : bool :=
  match r with
  | Ok _ => true
  | Err _ => false
  end.

(** ** Python string helpers *)

Definition is_digit (c : ascii) : bool :=
  let n := nat_of_ascii c in (48 <=? n)%nat && (n <=? 57)%nat.

Definition digit_val (c : ascii) : Z := Z.of_nat (nat_of_ascii c) - 48.

Definition in_range (lo hi : ascii) (c : ascii) : bool :=
  let n := nat_of_ascii c in
  (nat_of_ascii lo <=? n)%nat && (n <=? nat_of_ascii hi)%nat.

(** ASCII white space, as [str.strip] and the [\s] class see it. *)
Definition is_space (c : ascii) : bool :=
  let n := nat_of_ascii c in
  (n =? 32)%nat || ((9 <=? n)%nat && (n <=? 13)%nat) ||
  ((28 <=? n)%nat && (n <=? 31)%nat).

(** [s.split(c)]: never empty, one more part than there are separators. *)
Fixpoint split_on (c : ascii) (s : string) : list string :=
  match s with
  | EmptyString => [EmptyString]
  | String a r =>
      if Ascii.eqb a c then EmptyString :: split_on c r
      else match split_on c r with
           | h :: t => String a h :: t
           | [] => [String a EmptyString]
           end
  end.

Fixpoint lstrip (s : string) : string :=
  match s with
  | String a r => if is_space a then lstrip r else s
  | EmptyString => EmptyString
  end.

Fixpoint rstrip (s : string) : string :=
  match s with
  | EmptyString => EmptyString
  | String a r =>
      match rstrip r with
      | EmptyString => if is_space a then EmptyString else String a EmptyString
      | r' => String a r'
      end
  end.

Definition strip (s : string) : string := rstrip (lstrip s).

Inductive int_state : Type := IntStart | AfterDigit | AfterUnderscore.

(** Digits of an [int(...)] literal: single underscores between digits only. *)
Fixpoint int_body (s : string) (acc : Z) (st : int_state) : option Z :=
  match s with
  | EmptyString =>
      match st with
      | AfterDigit => Some acc
      | _ => None
      end
  | String c r =>
      if is_digit c then int_body r (10 * acc + digit_val c) AfterDigit
      else if Ascii.eqb c "_" then
        match st with
        | AfterDigit => int_body r acc AfterUnderscore
        | _ => None
        end
      else None
  end.

(** [int(s)] for a string: surrounding white space, an optional sign, then
    decimal digits; [ValueError] otherwise. *)
Definition py_int_str (s : string) : result Z :=
  match strip s with
  | String "-" r => of_option ValueError (option_map Z.opp (int_body r 0 IntStart))
  | String "+" r => of_option ValueError (int_body r 0 IntStart)
  | r => of_option ValueError (int_body r 0 IntStart)
  end.

Definition digit_char (d : Z) : ascii := ascii_of_nat (Z.to_nat (48 + d)).

Fixpoint dec_digits (fuel : nat) (n : Z) (acc : string) : string :=
  match fuel with
  | O => acc
  | S f =>
      let acc' := String (digit_char (n mod 10)) acc in
      if n / 10 =? 0 then acc' else dec_digits f (n / 10) acc'
  end.

(** Decimal text of a non-negative integer. *)
Definition dec_of_Z (n : Z) : string :=
  dec_digits (S (Z.to_nat (Z.log2 n))) n EmptyString.

Fixpoint zeros (k : nat) : string :=
  match k with
  | O => EmptyString
  | S k' => String "0" (zeros k')
  end.

Definition lpad_zeros (width : nat) (s : string) : string :=
  zeros (width - String.length s) ++ s.

(** [f"{n:03d}"]: sign-aware zero padding to a MINIMUM width of three. *)
Definition fmt03d (n : Z) : string :=
  if n <? 0 then String "-" (lpad_zeros 2 (dec_of_Z (- n)))
  else lpad_zeros 3 (dec_of_Z n).

(** ** Dates and times

    An aware UTC [datetime] and a [timedelta] are both counted in
    microseconds; the constructor keeps the Python type apart, because the
    code subtracts one from the other and Python's result type depends on
    which is which. *)

Record naive_datetime : Type := mkNaive {
  nd_year : Z; nd_month : Z; nd_day : Z;
  nd_hour : Z; nd_minute : Z; nd_second : Z; nd_microsecond : Z
}.

Definition is_leap (y : Z) : bool :=
  ((y mod 4 =? 0) && negb (y mod 100 =? 0)) || (y mod 400 =? 0).

Definition days_in_month (y m : Z) : Z :=
  if m =? 2 then (if is_leap y then 29 else 28)
  else if (m =? 4) || (m =? 6) || (m =? 9) || (m =? 11) then 30
  else 31.

(** Days between 1970-01-01 and the given civil date (proleptic Gregorian). *)
Definition days_from_civil (y m d : Z) : Z :=
  let y' := if m <=? 2 then y - 1 else y in
  let era := y' / 400 in
  let yoe := y' - era * 400 in
  let mp := (m + 9) mod 12 in
  let doy := (153 * mp + 2) / 5 + d - 1 in
  let doe := yoe * 365 + yoe / 4 - yoe / 100 + doy in
  era * 146097 + doe - 719468.

(** Microseconds from 1970-01-01T00:00:00 read on the same wall clock. *)
Definition wall_us (t : naive_datetime) : Z :=
  ((days_from_civil (nd_year t) (nd_month t) (nd_day t) * 86400
    + nd_hour t * 3600 + nd_minute t * 60 + nd_second t) * 1000000)
  + nd_microsecond t.

Inductive pytime : Type :=
| DateTime (us : Z)      (* aware, UTC, microseconds since the epoch *)
| TimeDelta (us : Z).    (* microseconds *)

(** Truth value of an optional time stamp: [None] and [timedelta(0)] are
    false, every [datetime] is true. *)
Definition truthy_time (t : option pytime) : bool :=
  match t with
  | None => false
  | Some (TimeDelta us) => negb (us =? 0)
  | Some (DateTime _) => true
  end.

(** [a - b] for [a] a datetime: a timedelta when [b] is a datetime, a datetime
    when [b] is a timedelta. *)
Definition datetime_sub (a : Z) (b : pytime) : pytime :=
  match b with
  | DateTime us => TimeDelta (a - us)
  | TimeDelta us => DateTime (a - us)
  end.

(** [max(timedelta(0), t)]: comparing a timedelta with a datetime raises. *)
Definition clamp_timedelta (t : pytime) : result pytime :=
  match t with
  | TimeDelta us => Ok (TimeDelta (Z.max 0 us))
  | DateTime _ => Err TypeError
  end.

(** *** [datetime.strptime] for the two vendor formats

    The regular expression that [strptime] compiles from
    ["%Y-%m-%d<sep>%H:%M:%S.%f"] is matched field by field; every field is
    followed by a literal that is not a digit, so the ordered alternatives of a
    field can be committed to as soon as one matches. *)

Definition two_digits (a b : ascii) : Z := 10 * digit_val a + digit_val b.

(** [\d\d\d\d] *)
Definition read_Y (s : string) : option (Z * string) :=
  match s with
  | String a (String b (String c (String d r))) =>
      if is_digit a && is_digit b && is_digit c && is_digit d
      then Some (1000 * digit_val a + 100 * digit_val b
                 + 10 * digit_val c + digit_val d, r)
      else None
  | _ => None
  end.

(** A field whose alternatives are two-character forms [p2], then a single
    character [p1]. *)
Definition read_2_1 (p2 : ascii -> ascii -> bool) (p1 : ascii -> bool)
    (s : string) : option (Z * string) :=
  match s with
  | String a (String b r) =>
      if p2 a b then Some (two_digits a b, r)
      else if p1 a then Some (digit_val a, String b r)
      else None
  | String a EmptyString => if p1 a then Some (digit_val a, EmptyString) else None
  | EmptyString => None
  end.

(** [1[0-2]|0[1-9]|[1-9]] *)
Definition read_m : string -> option (Z * string) :=
  read_2_1 (fun a b => (Ascii.eqb a "1" && in_range "0" "2" b)
                       || (Ascii.eqb a "0" && in_range "1" "9" b))
           (in_range "1" "9").

(** [3[0-1]|[1-2]\d|0[1-9]|[1-9]| [1-9]] *)
Definition read_d (s : string) : option (Z * string) :=
  match read_2_1 (fun a b => (Ascii.eqb a "3" && in_range "0" "1" b)
                             || (in_range "1" "2" a && is_digit b)
                             || (Ascii.eqb a "0" && in_range "1" "9" b))
                 (in_range "1" "9") s with
  | Some r => Some r
  | None =>
      match s with
      | String " " (String b r) =>
          if in_range "1" "9" b then Some (digit_val b, r) else None
      | _ => None
      end
  end.

(** [2[0-3]|[0-1]\d|\d] *)
Definition read_H : string -> option (Z * string) :=
  read_2_1 (fun a b => (Ascii.eqb a "2" && in_range "0" "3" b)
                       || (in_range "0" "1" a && is_digit b))
           is_digit.

(** [[0-5]\d|\d] *)
Definition read_M : string -> option (Z * string) :=
  read_2_1 (fun a b => in_range "0" "5" a && is_digit b) is_digit.

(** [6[0-1]|[0-5]\d|\d] *)
Definition read_S : string -> option (Z * string) :=
  read_2_1 (fun a b => (Ascii.eqb a "6" && in_range "0" "1" b)
                       || (in_range "0" "5" a && is_digit b))
           is_digit.

Fixpoint all_digits (s : string) : bool :=
  match s with
  | EmptyString => true
  | String c r => is_digit c && all_digits r
  end.

Fixpoint digits_value (s : string) (acc : Z) : Z :=
  match s with
  | EmptyString => acc
  | String c r => digits_value r (10 * acc + digit_val c)
  end.

(** [[0-9]{1,6}] up to the end of the input, right-padded with zeros to six
    digits: the value is a number of microseconds. *)
Definition read_f (s : string) : option Z :=
  let n := String.length s in
  if all_digits s && (1 <=? n)%nat && (n <=? 6)%nat
  then Some (digits_value (s ++ zeros (6 - n)) 0)
  else None.

Definition expect (p : ascii -> bool) (s : string) : option string :=
  match s with
  | String c r => if p c then Some r else None
  | EmptyString => None
  end.

Definition is_char (c : ascii) (x : ascii) : bool := Ascii.eqb x c.

(** The pattern is compiled with IGNORECASE. *)
Definition is_T (x : ascii) : bool := Ascii.eqb x "T" || Ascii.eqb x "t".

(** A blank in the format becomes [\s+]. *)
Definition expect_spaces (s : string) : option string :=
  match s with
  | String c r => if is_space c then Some (lstrip r) else None
  | EmptyString => None
  end.

Inductive dt_separator : Type := SepT | SepBlank.

Definition expect_sep (sep : dt_separator) : string -> option string :=
  match sep with
  | SepT => expect is_T
  | SepBlank => expect_spaces
  end.

Definition obind {A B : Type} (o : option A) (k : A -> option B) : option B :=
  match o with
  | Some a => k a
  | None => None
  end.

Definition strptime_fields (sep : dt_separator) (s : string)
    : option naive_datetime :=
  obind (read_Y s) (fun '(y, s) =>
  obind (expect (is_char "-") s) (fun s =>
  obind (read_m s) (fun '(mo, s) =>
  obind (expect (is_char "-") s) (fun s =>
  obind (read_d s) (fun '(d, s) =>
  obind (expect_sep sep s) (fun s =>
  obind (read_H s) (fun '(h, s) =>
  obind (expect (is_char ":") s) (fun s =>
  obind (read_M s) (fun '(mi, s) =>
  obind (expect (is_char ":") s) (fun s =>
  obind (read_S s) (fun '(se, s) =>
  obind (expect (is_char ".") s) (fun s =>
  obind (read_f s) (fun us =>
  Some (mkNaive y mo d h mi se us)))))))))))))).

(** The [datetime] constructor rejects year 0, a day the month does not have
    and a leap second. *)
Definition valid_naive (t : naive_datetime) : bool :=
  (1 <=? nd_year t) && (nd_day t <=? days_in_month (nd_year t) (nd_month t))
  && (nd_second t <=? 59).

Definition strptime (sep : dt_separator) (s : string) : result naive_datetime :=
  match strptime_fields sep s with
  | Some t => if valid_naive t then Ok t else Err ValueError
  | None => Err ValueError
  end.

(** The Europe/London rule of the tz database in force since 1996: summer
    time from the last Sunday of March, 01:00 UTC, to the last Sunday of
    October, 01:00 UTC.  [localize] is called with its default [is_dst=False],
    which resolves the skipped and the repeated hour to GMT. *)
Definition last_sunday (y m : Z) : Z :=
  31 - (days_from_civil y m 31 + 4) mod 7.

Definition london_utcoffset (t : naive_datetime) : Z :=
  let y := nd_year t in
  let bst_from := wall_us (mkNaive y 3 (last_sunday y 3) 2 0 0 0) in
  let bst_until := wall_us (mkNaive y 10 (last_sunday y 10) 1 0 0 0) in
  if (bst_from <=? wall_us t) && (wall_us t <? bst_until) then 3600 else 0.

(** ** JSON values as [json.loads] returns them *)

Inductive json : Type :=
| JNull
| JBool (b : bool)
| JInt (z : Z)
| JFloat (q : Q)
| JStr (s : string)
| JList (l : list json)
| JDict (kv : list (string * json)).

Fixpoint assoc_get {V : Type} (k : string) (kv : list (string * V)) : option V :=
  match kv with
  | [] => None
  | (k', v) :: r => if String.eqb k k' then Some v else assoc_get k r
  end.

(** [d[k]] on a dict. *)
Definition getitem (kv : list (string * json)) (k : string) : result json :=
  of_option KeyError (assoc_get k kv).

(** [d.get(k)] on a dict: [None] when the key is absent. *)
Definition dict_get_json (kv : list (string * json)) (k : string) : json :=
  match assoc_get k kv with
  | Some v => v
  | None => JNull
  end.

Fixpoint is_prefix (p s : string) : bool :=
  match p, s with
  | EmptyString, _ => true
  | String a p', String b s' => Ascii.eqb a b && is_prefix p' s'
  | String _ _, EmptyString => false
  end.

Fixpoint is_substring (p s : string) : bool :=
  is_prefix p s ||
  match s with
  | EmptyString => false
  | String _ s' => is_substring p s'
  end.

Definition json_is_str (k : string) (v : json) : bool :=
  match v with
  | JStr s => String.eqb s k
  | _ => false
  end.

(** [k in v] for a string [k]: key test on a dict, membership on a list,
    substring test on a string, [TypeError] on anything else. *)
Definition py_in (k : string) (v : json) : result bool :=
  match v with
  | JDict kv => Ok (match assoc_get k kv with Some _ => true | None => false end)
  | JList l => Ok (existsb (json_is_str k) l)
  | JStr s => Ok (is_substring k s)
  | _ => Err TypeError
  end.

(** [v[k]] for a string [k]: only a dict can be subscripted by a string. *)
Definition py_getitem (v : json) (k : string) : result json :=
  match v with
  | JDict kv => getitem kv k
  | _ => Err TypeError
  end.

Definition Qtrunc (q : Q) : Z := Z.quot (Qnum q) (Zpos (Qden q)).

(** [int(v)] *)
Definition py_int (v : json) : result Z :=
  match v with
  | JInt z => Ok z
  | JBool b => Ok (if b then 1 else 0)
  | JFloat q => Ok (Qtrunc q)
  | JStr s => py_int_str s
  | _ => Err TypeError
  end.

(** Truth value of a JSON value. *)
Definition py_truthy (v : json) : bool :=
  match v with
  | JNull => false
  | JBool b => b
  | JInt z => negb (z =? 0)
  | JFloat q => negb (Qnum q =? 0)
  | JStr s => negb (String.eqb s EmptyString)
  | JList l => match l with [] => false | _ => true end
  | JDict kv => match kv with [] => false | _ => true end
  end.

(** *** Dictionaries keyed by hashable JSON scalars (the qualifier map) *)

Definition key_num (k : json) : option Q :=
  match k with
  | JBool b => Some (inject_Z (if b then 1 else 0))
  | JInt z => Some (inject_Z z)
  | JFloat q => Some q
  | _ => None
  end.

(** Key equality as [dict] sees it: numbers compare by value across [bool],
    [int] and [float]; strings with strings; [None] with [None]. *)
Definition key_eqb (a b : json) : bool :=
  match key_num a, key_num b with
  | Some x, Some y => Qeq_bool x y
  | _, _ =>
      match a, b with
      | JStr s, JStr t => String.eqb s t
      | JNull, JNull => true
      | _, _ => false
      end
  end.

Definition hashable (k : json) : bool :=
  match k with
  | JList _ | JDict _ => false
  | _ => true
  end.

Definition pydict : Type := list (json * json).

Fixpoint pydict_get (d : pydict) (k : json) : option json :=
  match d with
  | [] => None
  | (k', v) :: r => if key_eqb k k' then Some v else pydict_get r k
  end.

(** [d[k] = v]: an existing key keeps its place and takes the new value. *)
Fixpoint pydict_set (d : pydict) (k v : json) : pydict :=
  match d with
  | [] => [(k, v)]
  | (k', v') :: r =>
      if key_eqb k k' then (k', v) :: r else (k', v') :: pydict_set r k v
  end.

Definition pydict_mem (d : pydict) (k : json) : bool :=
  match pydict_get d k with
  | Some _ => true
  | None => false
  end.

(** [d.get(k)] *)
Definition pydict_get_default (d : pydict) (k : json) : json :=
  match pydict_get d k with
  | Some v => v
  | None => JNull
  end.

Definition str_of_Z (z : Z) : string :=
  if z <? 0 then String "-" (dec_of_Z (- z)) else dec_of_Z z.

Fixpoint chars_of (s : string) : list json :=
  match s with
  | EmptyString => []
  | String c r => JStr (String c EmptyString) :: chars_of r
  end.

(** [for item in v]: a list yields its elements, a dict its keys, a string
    its characters. *)
Definition py_iter (v : json) : result (list json) :=
  match v with
  | JList l => Ok l
  | JDict kv => Ok (map (fun p => JStr (fst p)) kv)
  | JStr s => Ok (chars_of s)
  | _ => Err TypeError
  end.

(** [l[i]] on a list, with Python's negative indices. *)
Definition py_list_index {A : Type} (l : list A) (i : Z) : result A :=
  let n := Z.of_nat (List.length l) in
  let j := if i <? 0 then i + n else i in
  if (j <? 0) || (n <=? j) then Err IndexError
  else of_option IndexError (nth_error l (Z.to_nat j)).

(** [timedelta(seconds=a / b)] for integers [a], [b <> 0]: the quotient is
    rounded to the nearest microsecond, ties to even.  The binary rounding of
    the intermediate float is not represented. *)
Definition round_half_even_div (n d : Z) : Z :=
  let q := n / d in
  let r := Z.abs (n mod d) in
  match 2 * r ?= Z.abs d with
  | Lt => q
  | Gt => q + 1
  | Eq => if Z.even q then q else q + 1
  end.

Definition timedelta_seconds_ratio (a b : Z) : result pytime :=
  if b =? 0 then Err ZeroDivisionError
  else Ok (TimeDelta (round_half_even_div (a * 1000000) b)).

(** ** Domain records *)

(** Modelled from the spec: [kloppy.domain.Player] is not part of the sources
    at hand; a player has an identifier, a name, a starting flag, a nominal
    starting position and a jersey number. *)
Module Player.
Record t : Type := mk {
  player_id : string;
  name : string;
  starting : bool;
  starting_position : string;
  jersey_no : Z
}.
End Player.

(** Modelled from the spec: [kloppy.domain.Team] is not part of the sources at
    hand; a team has an identifier, a display name, a side and an ordered
    collection of players. *)
Module Team.
Inductive ground : Type := HOME | AWAY.
Record t : Type := mk {
  team_id : string;
  name : string;
  side : ground;
  players : list Player.t
}.

(** Modelled from the spec: [Team.get_player_by_id] resolves a player
    identifier against the team roster; no match gives [None]. *)
Definition get_player_by_id (team : t) (pid : option string) : option Player.t :=
  match pid with
  | Some s => find (fun p => String.eqb (Player.player_id p) s) (players team)
  | None => None
  end.
End Team.

(** Modelled from the spec: [kloppy.domain.Period] is not part of the sources
    at hand; a period has an identifier and start and end time stamps, which
    [extract_periods] passes to the constructor and the mapping loop assigns
    in place. *)
Module Period.
Record t : Type := mk {
  id : Z;
  start_timestamp : option pytime;
  end_timestamp : option pytime
}.

Definition set_start (ts : pytime) (p : t) : t :=
  mk (id p) (Some ts) (end_timestamp p).

Definition set_end (ts : pytime) (p : t) : t :=
  mk (id p) (start_timestamp p) (Some ts).
End Period.

(** Modelled from the spec: [OptaEvent] is declared in the statsperform
    parsers, not in the sources at hand; these are the fields that
    [extract_events] passes to its constructor, per vendor event occurrence. *)
Module OptaEvent.
Record t : Type := mk {
  id : json;
  event_id : Z;
  type_id : Z;
  period_id : Z;
  time_min : Z;
  time_sec : Z;
  x : Q;
  y : Q;
  timestamp : Z;
  last_modified : Z;
  contestant_id : option string;
  player_id : option string;
  outcome : Z;
  qualifiers : pydict
}.
End OptaEvent.

Inductive BallState : Type := DEAD | ALIVE.

(** The keyword arguments every event constructor receives.  [period] is a
    reference into the period store: the constructed event shares the period
    object with the loop, it does not copy it. *)
Record generic_kwargs : Type := mkGeneric {
  period : nat;
  timestamp : pytime;
  ball_owning_team : option Team.t;
  ball_state : BallState;
  event_id : json;
  team : Team.t;
  player : option Player.t;
  coordinates : Q * Q;
  raw_event : OptaEvent.t
}.

Definition with_timestamp (ts : pytime) (g : generic_kwargs) : generic_kwargs :=
  mkGeneric (period g) ts (ball_owning_team g) (ball_state g) (event_id g)
            (team g) (player g) (coordinates g) (raw_event g).

(** Which factory method is called, and with which type-specific keyword
    arguments.  [K] stands for the dictionaries the statsperform helpers
    return. *)
Inductive event_body (K : Type) : Type :=
| build_pass (kw : K)
| build_take_on (kw : K)
| build_shot (kw : K)
| build_recovery
| build_clearance (kw : K)
| build_duel (kw : K)
| build_interception (kw : K)
| build_generic (event_name : string)
| build_goalkeeper_event (kw : K)
| build_miscontrol
| build_foul_committed
| build_ball_out
| build_formation_change (kw : K)
| build_substitution (replacement_player : option Player.t) (position : string)
| build_card (kw : K).

Arguments build_pass {K} kw.
Arguments build_take_on {K} kw.
Arguments build_shot {K} kw.
Arguments build_recovery {K}.
Arguments build_clearance {K} kw.
Arguments build_duel {K} kw.
Arguments build_interception {K} kw.
Arguments build_generic {K} event_name.
Arguments build_goalkeeper_event {K} kw.
Arguments build_miscontrol {K}.
Arguments build_foul_committed {K}.
Arguments build_ball_out {K}.
Arguments build_formation_change {K} kw.
Arguments build_substitution {K} replacement_player position.
Arguments build_card {K} kw.

Record Event (K : Type) : Type := mkEvent {
  body : event_body K;
  generic : generic_kwargs
}.

Arguments mkEvent {K} body generic.
Arguments body {K} e.
Arguments generic {K} e.

(** ** What the sources import

    The Opta type codes, the type sets, the position-line table and the
    per-type helpers come from the statsperform deserializer; the time-zone
    table from pytz; the inclusion predicate, the transformer and the event
    factory from the caller.  None of them is defined in the files at hand, so
    the embedding takes them as one parameter record. *)

Set Implicit Arguments.

Record env (K : Type) : Type := mkEnv {
  (* pytz: UTC offset, in seconds, that [localize] gives a naive London time *)
  europe_london : naive_datetime -> Z;
  (* builtins on values the embedding does not take apart *)
  float_of_str : string -> option Q;
  py_repr : json -> string;
  (* statsperform.deserializer *)
  EVENT_TYPE_START_PERIOD : Z;
  EVENT_TYPE_END_PERIOD : Z;
  EVENT_TYPE_DELETED_EVENT : Z;
  EVENT_TYPE_PASS : Z;
  EVENT_TYPE_OFFSIDE_PASS : Z;
  EVENT_TYPE_TAKE_ON : Z;
  EVENT_TYPE_SHOT_MISS : Z;
  EVENT_TYPE_SHOT_POST : Z;
  EVENT_TYPE_SHOT_SAVED : Z;
  EVENT_TYPE_SHOT_GOAL : Z;
  EVENT_TYPE_RECOVERY : Z;
  EVENT_TYPE_CLEARANCE : Z;
  EVENT_TYPE_INTERCEPTION : Z;
  EVENT_TYPE_BLOCKED_PASS : Z;
  EVENT_TYPE_BALL_TOUCH : Z;
  EVENT_TYPE_FOUL_COMMITTED : Z;
  EVENT_TYPE_FORMATION_CHANGE : Z;
  EVENT_TYPE_PLAYER_OFF : Z;
  EVENT_TYPE_PLAYER_ON : Z;
  EVENT_TYPE_CARD : Z;
  BALL_OUT_EVENTS : list Z;
  BALL_OWNING_EVENTS : list Z;
  DEAD_BALL_EVENTS : list Z;
  DUEL_EVENTS : list Z;
  KEEPER_EVENTS : list Z;
  position_line_mapping : list (json * string);
  _get_event_type_name : Z -> string;
  _parse_pass : OptaEvent.t -> option OptaEvent.t -> option OptaEvent.t -> result K;
  _parse_offside_pass : OptaEvent.t -> result K;
  _parse_take_on : OptaEvent.t -> result K;
  _parse_shot : OptaEvent.t -> result K;
  _parse_clearance : OptaEvent.t -> result K;
  _parse_duel : OptaEvent.t -> result K;
  _parse_interception : OptaEvent.t -> Team.t -> option OptaEvent.t -> result K;
  _parse_goalkeeper_events : OptaEvent.t -> result K;
  _parse_formation_change : OptaEvent.t -> Team.t -> result K;
  _parse_card : OptaEvent.t -> result K;
  (* [kwargs.update(shot_event_kwargs)]: shot arguments may replace generic ones *)
  shot_update : K -> generic_kwargs -> generic_kwargs;
  (* the caller's deserializer and transformer *)
  should_include_event : Event K -> bool;
  transform_event : Event K -> Event K
}.

Unset Implicit Arguments.

Definition mem_Z (z : Z) (l : list Z) : bool := existsb (Z.eqb z) l.

Section Insight.

Context {K : Type} (E : env K).

(** *** insight.py *)

Fixpoint init_last (l : list string) : list string * string :=
  match l with
  | [] => ([], EmptyString)
  | [x] => ([], x)
  | x :: r => let '(i, z) := init_last r in (x :: i, z)
  end.

(** The nested helper: the text after the last dot is read as an integer and
    written back with [{:03d}]. *)
Definition zero_pad_milliseconds (timestamp : string) : result string :=
  let parts := split_on "." timestamp in
  if (List.length parts =? 1)%nat then Ok (timestamp ++ ".000")
  else
    let '(front, ms) := init_last parts in
    n <- py_int_str ms ;;
    Ok (String.concat "." (front ++ [fmt03d n])).

(** [timezone.localize(naive).astimezone(pytz.utc)] *)
Definition localize_london_utc (t : naive_datetime) : Z :=
  wall_us t - europe_london E t * 1000000.

Definition _parse_insight_datetime (dt_str : string) : result Z :=
  padded <- zero_pad_milliseconds dt_str ;;
  naive <- strptime SepT padded ;;
  Ok (localize_london_utc naive).

Definition _parse_nearby_event (raw_events : list OptaEvent.t) (idx offset : Z)
    : result (option OptaEvent.t) :=
  if idx + offset <? Z.of_nat (List.length raw_events)
  then e <- py_list_index raw_events (idx + offset) ;; Ok (Some e)
  else Ok None.

Fixpoint find_index {A : Type} (f : A -> bool) (l : list A) : option nat :=
  match l with
  | [] => None
  | a :: r => if f a then Some O else option_map S (find_index f r)
  end.

(** The first period whose id is the event's period id; the result refers to
    the period object inside [periods]. *)
Definition _parse_period (raw_event : OptaEvent.t) (periods : list Period.t)
    : option nat :=
  find_index (fun p => Period.id p =? OptaEvent.period_id raw_event) periods.

Definition eq_opt_str (o : option string) (s : string) : bool :=
  match o with
  | Some s' => String.eqb s' s
  | None => false
  end.

Definition str_of_opt (o : option string) : string :=
  match o with
  | Some s => s
  | None => "None"
  end.

Definition _parse_team (raw_event : OptaEvent.t) (teams : Team.t * Team.t)
    : result Team.t :=
  if eq_opt_str (OptaEvent.contestant_id raw_event) (Team.team_id (fst teams))
  then Ok (fst teams)
  else if eq_opt_str (OptaEvent.contestant_id raw_event) (Team.team_id (snd teams))
  then Ok (snd teams)
  else Err (DeserializationError
              ("Unknown team_id " ++ str_of_opt (OptaEvent.contestant_id raw_event))).

(** The [for ... else] over the two neighbours: a null neighbour has no
    [type_id]. *)
Fixpoint find_player_on (related_event_id : Z) (current_event : OptaEvent.t)
    (neighbours : list (option OptaEvent.t)) : result OptaEvent.t :=
  match neighbours with
  | [] => Err (DeserializationError
                 ("Unable to determine replacement player for event_id "
                  ++ str_of_Z (OptaEvent.event_id current_event)))
  | None :: _ => Err AttributeError
  | Some event :: rest =>
      if (OptaEvent.type_id event =? EVENT_TYPE_PLAYER_ON E)
         && (OptaEvent.event_id event =? related_event_id)
      then Ok event
      else find_player_on related_event_id current_event rest
  end.

(** [position_line_mapping[key]] *)
Definition position_line_lookup (key : json) : result string :=
  if hashable key
  then of_option KeyError
         (option_map snd
            (find (fun p => key_eqb key (fst p)) (position_line_mapping E)))
  else Err TypeError.

Definition _parse_substitution (current_event : OptaEvent.t)
    (previous_event next_event : option OptaEvent.t) (team : Team.t)
    : result (option Player.t * string) :=
  related_event_id <-
    py_int (pydict_get_default (OptaEvent.qualifiers current_event) (JInt 55)) ;;
  related_event <-
    find_player_on related_event_id current_event [previous_event; next_event] ;;
  let replacement_player :=
    Team.get_player_by_id team (OptaEvent.player_id related_event) in
  let raw_position_line :=
    pydict_get_default (OptaEvent.qualifiers related_event) (JInt 44) in
  if py_truthy raw_position_line then
    position <- position_line_lookup raw_position_line ;;
    Ok (replacement_player, position)
  else
    (* [position] was never assigned *)
    Err UnboundLocalError.

(** [str(v)] *)
Definition py_str (v : json) : string :=
  match v with
  | JNull => "None"
  | JStr s => s
  | JBool b => if b then "True" else "False"
  | JInt z => str_of_Z z
  | _ => py_repr E v
  end.

(** [float(v)] *)
Definition py_float (v : json) : result Q :=
  match v with
  | JInt z => Ok (inject_Z z)
  | JBool b => Ok (inject_Z (if b then 1 else 0))
  | JFloat q => Ok q
  | JStr s => of_option ValueError (float_of_str E s)
  | _ => Err TypeError
  end.

(** [int(clock // 60) if clock is not None else 0] *)
Definition clock_minutes (clock : json) : result Z :=
  match clock with
  | JNull => Ok 0
  | JInt z => Ok (z / 60)
  | JBool _ => Ok 0
  | JFloat q => Ok (Qfloor (q / inject_Z 60))
  | _ => Err TypeError
  end.

(** [int(clock % 60) if clock is not None else 0] *)
Definition clock_seconds (clock : json) : result Z :=
  match clock with
  | JNull => Ok 0
  | JInt z => Ok (z mod 60)
  | JBool b => Ok (if b then 1 else 0)
  | JFloat q => Ok (Qfloor (q - inject_Z (60 * Qfloor (q / inject_Z 60))))
  | _ => Err TypeError
  end.

(** The time-stamp fields must be strings: anything else has no [split]. *)
Definition parse_datetime_field (v : json) : result Z :=
  match v with
  | JStr s => _parse_insight_datetime s
  | _ => Err AttributeError
  end.

(** [item.get("opValue", item.get("value"))] *)
Definition qualifier_value (item : list (string * json)) : json :=
  match assoc_get "opValue" item with
  | Some v => v
  | None => dict_get_json item "value"
  end.

(** The dict comprehension over the qualifier entries. *)
Fixpoint build_qualifiers (items : list json) (acc : pydict) : result pydict :=
  match items with
  | [] => Ok acc
  | item :: rest =>
      has_id <- py_in "qualifierId" item ;;
      if has_id then
        match item with
        | JDict kv =>
            key <- getitem kv "qualifierId" ;;
            if hashable key
            then build_qualifiers rest (pydict_set acc key (qualifier_value kv))
            else Err TypeError
        | _ => Err TypeError
        end
      else build_qualifiers rest acc
  end.

(** One [OptaEvent(...)] call; the keyword arguments are evaluated in the
    order they are written. *)
Definition build_opta_event (oe : list (string * json)) : result OptaEvent.t :=
  id <- getitem oe "id" ;;
  event_id <- bind (getitem oe "eventId") py_int ;;
  type_id <- bind (getitem oe "typeId") py_int ;;
  period_id <- bind (getitem oe "periodId") py_int ;;
  time_min <- bind (getitem oe "alignedClock") clock_minutes ;;
  time_sec <- bind (getitem oe "alignedClock") clock_seconds ;;
  x <- bind (getitem oe "x") py_float ;;
  y <- bind (getitem oe "y") py_float ;;
  timestamp <- bind (getitem oe "timeStamp") parse_datetime_field ;;
  last_modified <- bind (getitem oe "lastModified") parse_datetime_field ;;
  let contestant_id := py_str (dict_get_json oe "opContestantId") in
  let player_id := py_str (dict_get_json oe "opPlayerId") in
  outcome <- py_int (dict_get_json oe "outcome") ;;
  items <- bind (getitem oe "qualifier") py_iter ;;
  qualifiers <- build_qualifiers items [] ;;
  Ok (OptaEvent.mk id event_id type_id period_id time_min time_sec x y
        timestamp last_modified (Some contestant_id) (Some player_id)
        outcome qualifiers).

(** The filter of the comprehension:
    ["optaEvent" in obj and isinstance(obj["optaEvent"], dict)]. *)
Definition accepted_record (obj : json) : result (option (list (string * json))) :=
  has <- py_in "optaEvent" obj ;;
  if has then
    inner <- py_getitem obj "optaEvent" ;;
    match inner with
    | JDict oe => Ok (Some oe)
    | _ => Ok None
    end
  else Ok None.

Fixpoint extract_events (feed : list json) : result (list OptaEvent.t) :=
  match feed with
  | [] => Ok []
  | obj :: rest =>
      acc <- accepted_record obj ;;
      match acc with
      | Some oe =>
          e <- build_opta_event oe ;;
          es <- extract_events rest ;;
          Ok (e :: es)
      | None => extract_events rest
      end
  end.

(** *** The mapping loop, [parse_events] *)

(** What one pass carries from one raw event to the next: the period objects
    (mutated in place by the markers), the possession team, the output. *)
Record loop_state : Type := mkState {
  periods : list Period.t;
  possession_team : option Team.t;
  events : list (Event K)
}.

Fixpoint update_nth {A : Type} (n : nat) (f : A -> A) (l : list A) : list A :=
  match l, n with
  | [], _ => []
  | a :: r, O => f a :: r
  | a :: r, S n' => a :: update_nth n' f r
  end.

(** Qualifier 374 on a goal: the shot time replaces the record's own. *)
Definition goal_timestamp (raw_event : OptaEvent.t) (start : pytime)
    (g : generic_kwargs) : result generic_kwargs :=
  if pydict_mem (OptaEvent.qualifiers raw_event) (JInt 374) then
    match pydict_get (OptaEvent.qualifiers raw_event) (JInt 374) with
    | Some (JStr s) =>
        naive <- strptime SepBlank s ;;
        Ok (with_timestamp (datetime_sub (localize_london_utc naive) start) g)
    | _ => Err TypeError
    end
  else Ok g.

(** The [if]/[elif] chain that picks the constructor. *)
Definition build_event (raw_event : OptaEvent.t) (team : Team.t)
    (previous_event next_event next_next_event : option OptaEvent.t)
    (start : pytime) (g : generic_kwargs) : result (Event K) :=
  let t := OptaEvent.type_id raw_event in
  if t =? EVENT_TYPE_PASS E then
    kw <- _parse_pass E raw_event next_event next_next_event ;;
    Ok (mkEvent (build_pass kw) g)
  else if t =? EVENT_TYPE_OFFSIDE_PASS E then
    kw <- _parse_offside_pass E raw_event ;;
    Ok (mkEvent (build_pass kw) g)
  else if t =? EVENT_TYPE_TAKE_ON E then
    kw <- _parse_take_on E raw_event ;;
    Ok (mkEvent (build_take_on kw) g)
  else if mem_Z t [EVENT_TYPE_SHOT_MISS E; EVENT_TYPE_SHOT_POST E;
                   EVENT_TYPE_SHOT_SAVED E; EVENT_TYPE_SHOT_GOAL E] then
    g' <- (if t =? EVENT_TYPE_SHOT_GOAL E
           then goal_timestamp raw_event start g else Ok g) ;;
    kw <- _parse_shot E raw_event ;;
    Ok (mkEvent (build_shot kw) (shot_update E kw g'))
  else if t =? EVENT_TYPE_RECOVERY E then
    Ok (mkEvent build_recovery g)
  else if t =? EVENT_TYPE_CLEARANCE E then
    kw <- _parse_clearance E raw_event ;;
    Ok (mkEvent (build_clearance kw) g)
  else if mem_Z t (DUEL_EVENTS E) then
    kw <- _parse_duel E raw_event ;;
    Ok (mkEvent (build_duel kw) g)
  else if mem_Z t [EVENT_TYPE_INTERCEPTION E; EVENT_TYPE_BLOCKED_PASS E] then
    kw <- _parse_interception E raw_event team next_event ;;
    Ok (mkEvent (build_interception kw) g)
  else if mem_Z t (KEEPER_EVENTS E) then
    if pydict_mem (OptaEvent.qualifiers raw_event) (JInt 94)
    then Ok (mkEvent (build_generic "block") g)
    else
      kw <- _parse_goalkeeper_events E raw_event ;;
      Ok (mkEvent (build_goalkeeper_event kw) g)
  else if (t =? EVENT_TYPE_BALL_TOUCH E) && (OptaEvent.outcome raw_event =? 0) then
    Ok (mkEvent build_miscontrol g)
  else if (t =? EVENT_TYPE_FOUL_COMMITTED E) && (OptaEvent.outcome raw_event =? 0) then
    Ok (mkEvent build_foul_committed g)
  else if mem_Z t (BALL_OUT_EVENTS E) then
    Ok (mkEvent build_ball_out g)
  else if t =? EVENT_TYPE_FORMATION_CHANGE E then
    ts <- clamp_timedelta (timestamp g) ;;
    kw <- _parse_formation_change E raw_event team ;;
    Ok (mkEvent (build_formation_change kw) (with_timestamp ts g))
  else if t =? EVENT_TYPE_PLAYER_OFF E then
    ts <- clamp_timedelta (timestamp g) ;;
    sub <- _parse_substitution raw_event previous_event next_event team ;;
    Ok (mkEvent (build_substitution (fst sub) (snd sub)) (with_timestamp ts g))
  else if t =? EVENT_TYPE_CARD E then
    kw <- _parse_card E raw_event ;;
    Ok (mkEvent (build_card kw) g)
  else
    Ok (mkEvent (build_generic (_get_event_type_name E t)) g).

(** [player = None], then the roster lookup when the raw event has a player
    id. *)
Definition resolve_player (team : Team.t) (raw_event : OptaEvent.t)
    : option Player.t :=
  match OptaEvent.player_id raw_event with
  | Some pid => Team.get_player_by_id team (Some pid)
  | None => None
  end.

(** The [else] branch of the loop body, entered with the period found and its
    index [pi]: an ordinary event. *)
Definition ordinary_event (raw_event : OptaEvent.t)
    (team : Team.t) (pi : nat)
    (previous_event next_event next_next_event : option OptaEvent.t)
    (st : loop_state) : result loop_state :=
  match option_map Period.start_timestamp (nth_error (periods st) pi) with
  | Some (Some start) =>
      if negb (truthy_time (Some start)) then Ok st   (* not started yet *)
      else
        let player := resolve_player team raw_event in
        let possession :=
          if mem_Z (OptaEvent.type_id raw_event) (BALL_OWNING_EVENTS E)
          then Some team else possession_team st in
        let state :=
          if mem_Z (OptaEvent.type_id raw_event) (DEAD_BALL_EVENTS E)
          then DEAD else ALIVE in
        let g := mkGeneric pi
                   (datetime_sub (OptaEvent.timestamp raw_event) start)
                   possession state (OptaEvent.id raw_event) team player
                   (OptaEvent.x raw_event, OptaEvent.y raw_event) raw_event in
        event <- build_event raw_event team previous_event next_event
                   next_next_event start g ;;
        Ok (mkState (periods st) possession
              (if should_include_event E event
               then events st ++ [transform_event E event]
               else events st))
  | _ => Ok st   (* not started yet *)
  end.

(** One iteration of [for idx, raw_event in enumerate(raw_events)]. *)
Definition loop_body (raw_events : list OptaEvent.t) (teams : Team.t * Team.t)
    (idx : Z) (raw_event : OptaEvent.t) (st : loop_state) : result loop_state :=
  team <- _parse_team raw_event teams ;;
  let period := _parse_period raw_event (periods st) in
  previous_event <- _parse_nearby_event raw_events idx (-1) ;;
  next_event <- _parse_nearby_event raw_events idx 1 ;;
  next_next_event <- _parse_nearby_event raw_events idx 2 ;;
  match period with
  | None => Ok st
  | Some pi =>
      let t := OptaEvent.type_id raw_event in
      if t =? EVENT_TYPE_START_PERIOD E then
        Ok (mkState
              (update_nth pi
                 (Period.set_start (DateTime (OptaEvent.timestamp raw_event)))
                 (periods st))
              (possession_team st) (events st))
      else if t =? EVENT_TYPE_END_PERIOD E then
        Ok (mkState
              (update_nth pi
                 (Period.set_end (DateTime (OptaEvent.timestamp raw_event)))
                 (periods st))
              (possession_team st) (events st))
      else if t =? EVENT_TYPE_PLAYER_ON E then Ok st
      else ordinary_event raw_event team pi previous_event next_event
             next_next_event st
  end.

Fixpoint parse_loop (raw_events : list OptaEvent.t) (teams : Team.t * Team.t)
    (rest : list OptaEvent.t) (idx : Z) (st : loop_state) : result loop_state :=
  match rest with
  | [] => Ok st
  | raw_event :: rest' =>
      st' <- loop_body raw_events teams idx raw_event st ;;
      parse_loop raw_events teams rest' (idx + 1) st'
  end.

Definition initial_state (periods : list Period.t) : loop_state :=
  mkState periods None [].

(** The pass as a whole: the final state holds the output and the period
    objects as the markers left them. *)
Definition parse_events_state (raw_events : list OptaEvent.t)
    (teams : Team.t * Team.t) (periods : list Period.t) : result loop_state :=
  parse_loop raw_events teams raw_events 0 (initial_state periods).

Definition parse_events (raw_events : list OptaEvent.t)
    (teams : Team.t * Team.t) (periods : list Period.t)
    : result (list (Event K)) :=
  st <- parse_events_state raw_events teams periods ;;
  Ok (events st).

End Insight.

(** ** metadata_json.py *)

Definition DEFAULT_SECONDSPECTRUM_FRAME_RATE : json := JFloat (25 # 1).

(** [int(self.feed.get("fps", DEFAULT_SECONDSPECTRUM_FRAME_RATE))] *)
Definition extract_frame_rate (feed : json) : result Z :=
  match feed with
  | JDict kv =>
      py_int (match assoc_get "fps" kv with
              | Some v => v
              | None => DEFAULT_SECONDSPECTRUM_FRAME_RATE
              end)
  | _ => Err AttributeError
  end.

(** The body of the loop over [self.feed["periods"]]: [None] for an entry
    that is left out. *)
Definition extract_period (feed : json) (period : json)
    : result (option Period.t) :=
  start_frame_id <- bind (py_getitem period "startFrameIdx") py_int ;;
  end_frame_id <- bind (py_getitem period "endFrameIdx") py_int ;;
  if negb (start_frame_id =? 0) || negb (end_frame_id =? 0) then
    id <- bind (py_getitem period "number") py_int ;;
    start_timestamp <-
      bind (extract_frame_rate feed) (timedelta_seconds_ratio start_frame_id) ;;
    end_timestamp <-
      bind (extract_frame_rate feed) (timedelta_seconds_ratio end_frame_id) ;;
    Ok (Some (Period.mk id (Some start_timestamp) (Some end_timestamp)))
  else Ok None.

Fixpoint extract_periods_loop (feed : json) (entries : list json)
    : result (list Period.t) :=
  match entries with
  | [] => Ok []
  | period :: rest =>
      p <- extract_period feed period ;;
      ps <- extract_periods_loop feed rest ;;
      Ok (match p with
          | Some p' => p' :: ps
          | None => ps
          end)
  end.

Definition extract_periods (feed : json) : result (list Period.t) :=
  entries <- bind (py_getitem feed "periods") py_iter ;;
  extract_periods_loop feed entries.

(** ** parsers/__init__.py *)

(** A byte stream with its read position. *)
Record stream : Type := mkStream {
  data : string;
  pos : nat
}.

Fixpoint drop_chars (n : nat) (s : string) : string :=
  match n, s with
  | O, _ => s
  | S n', String _ r => drop_chars n' r
  | S _, EmptyString => EmptyString
  end.

(** [feed.read(1)]: at most one byte, and the position moves past it. *)
Definition read1 (feed : stream) : string * stream :=
  match drop_chars (pos feed) (data feed) with
  | String b _ => (String b EmptyString, mkStream (data feed) (S (pos feed)))
  | EmptyString => (EmptyString, feed)
  end.

Definition seek0 (feed : stream) : stream := mkStream (data feed) O.

(** [bytes.decode("utf-8")] on at most one byte: a byte of 0x80 and above
    is not a character on its own. *)
Definition decode1 (b : string) : result string :=
  match b with
  | EmptyString => Ok EmptyString
  | String c _ => if (nat_of_ascii c <? 128)%nat then Ok b else Err UnicodeDecodeError
  end.

Definition upper_char (c : ascii) : ascii :=
  if in_range "a" "z" c then ascii_of_nat (nat_of_ascii c - 32) else c.

(** [str.upper] on ASCII text. *)
Fixpoint upper (s : string) : string :=
  match s with
  | EmptyString => EmptyString
  | String c r => String (upper_char c) (upper r)
  end.

(** The parser object that is returned, with the stream it was given. *)
Inductive metadata_parser : Type :=
| MetadataJSONParser (feed : stream).

Definition get_metadata_parser (feed : stream) (feed_format : option string)
    : result metadata_parser :=
  detected <-
    match feed_format with
    | None =>
        let '(b, feed') := read1 feed in
        first_char <- decode1 b ;;
        Ok (if String.eqb first_char "<" then "XML" else "JSON", seek0 feed')
    | Some f => Ok (f, feed)
    end ;;
  let '(fmt, feed) := detected in
  let feed_format := upper fmt in
  if String.eqb feed_format "JSON" then Ok (MetadataJSONParser feed)
  else Err (NotImplementedError
              ("A parser for metadata feeds in " ++ feed_format
               ++ " format is not yet implemented.")).

(** ** deserializer.py *)

(** [[event for event in ... if event.type_id != EVENT_TYPE_DELETED_EVENT]] *)
Definition drop_deleted {K : Type} (E : env K) (raw_events : list OptaEvent.t)
    : list OptaEvent.t :=
  filter (fun e => negb (OptaEvent.type_id e =? EVENT_TYPE_DELETED_EVENT E))
    raw_events.

(** ** An instance of the imports, for running the definitions

    The type codes are the Opta ones; the type sets and the position table
    are sample values.  There are no type-specific arguments ([K] is [unit]),
    every event is included and left as built, and the time zone follows the
    London rule given above. *)

Definition opta_env : env unit :=
  {| europe_london := london_utcoffset;
     float_of_str := fun _ => None;
     py_repr := fun _ => EmptyString;
     EVENT_TYPE_START_PERIOD := 32;
     EVENT_TYPE_END_PERIOD := 30;
     EVENT_TYPE_DELETED_EVENT := 43;
     EVENT_TYPE_PASS := 1;
     EVENT_TYPE_OFFSIDE_PASS := 2;
     EVENT_TYPE_TAKE_ON := 3;
     EVENT_TYPE_SHOT_MISS := 13;
     EVENT_TYPE_SHOT_POST := 14;
     EVENT_TYPE_SHOT_SAVED := 15;
     EVENT_TYPE_SHOT_GOAL := 16;
     EVENT_TYPE_RECOVERY := 49;
     EVENT_TYPE_CLEARANCE := 12;
     EVENT_TYPE_INTERCEPTION := 8;
     EVENT_TYPE_BLOCKED_PASS := 74;
     EVENT_TYPE_BALL_TOUCH := 61;
     EVENT_TYPE_FOUL_COMMITTED := 4;
     EVENT_TYPE_FORMATION_CHANGE := 40;
     EVENT_TYPE_PLAYER_OFF := 18;
     EVENT_TYPE_PLAYER_ON := 19;
     EVENT_TYPE_CARD := 17;
     BALL_OUT_EVENTS := [5; 6];
     BALL_OWNING_EVENTS := [1; 2; 3; 13; 14; 15; 16; 49];
     DEAD_BALL_EVENTS := [5; 6; 4];
     DUEL_EVENTS := [7; 44; 67];
     KEEPER_EVENTS := [10; 11; 41; 52; 54];
     position_line_mapping :=
       [(JStr "Goalkeeper", "Goalkeeper"); (JStr "Defender", "Defender");
        (JStr "Midfielder", "Midfielder"); (JStr "Forward", "Forward")];
     _get_event_type_name := fun t => "type " ++ str_of_Z t;
     _parse_pass := fun _ _ _ => Ok tt;
     _parse_offside_pass := fun _ => Ok tt;
     _parse_take_on := fun _ => Ok tt;
     _parse_shot := fun _ => Ok tt;
     _parse_clearance := fun _ => Ok tt;
     _parse_duel := fun _ => Ok tt;
     _parse_interception := fun _ _ _ => Ok tt;
     _parse_goalkeeper_events := fun _ => Ok tt;
     _parse_formation_change := fun _ _ => Ok tt;
     _parse_card := fun _ => Ok tt;
     shot_update := fun _ g => g;
     should_include_event := fun _ => true;
     transform_event := fun e => e |}.

(** ** A small match, for running the loop

    Two teams of two players each, a metadata document with two played
    periods and an unplayed one, and a constructor for raw events. *)

Definition home_team : Team.t :=
  Team.mk "t-home" "home" Team.HOME
    [Player.mk "p1" "Keeper" true "GK" 1; Player.mk "p2" "Striker" false "SUB" 9].

Definition away_team : Team.t :=
  Team.mk "t-away" "away" Team.AWAY
    [Player.mk "q1" "Stopper" true "GK" 1; Player.mk "q2" "Winger" true "LW" 11].

Definition both_teams : Team.t * Team.t := (home_team, away_team).

Definition raw (event_id type_id period_id timestamp : Z)
    (contestant_id player_id : string) (qualifiers : pydict) : OptaEvent.t :=
  OptaEvent.mk (JInt event_id) event_id type_id period_id 0 0 (50 # 1) (50 # 1)
    timestamp timestamp (Some contestant_id) (Some player_id) 1 qualifiers.

Definition period_entry (number startFrameIdx endFrameIdx : Z) : json :=
  JDict [("number", JInt number); ("startFrameIdx", JInt startFrameIdx);
         ("endFrameIdx", JInt endFrameIdx)].

Definition metadata_doc : json :=
  JDict [("fps", JInt 25);
         ("periods", JList [period_entry 1 100 67600;
                            period_entry 2 90000 160000;
                            period_entry 3 0 0])].

(** The periods [extract_periods] returns for [metadata_doc]. *)
Definition metadata_periods : list Period.t :=
  [Period.mk 1 (Some (TimeDelta 4000000)) (Some (TimeDelta 2704000000));
   Period.mk 2 (Some (TimeDelta 3600000000)) (Some (TimeDelta 6400000000))].

(** Periods whose time stamps are still unset. *)
Definition unset_periods : list Period.t :=
  [Period.mk 1 None None; Period.mk 2 None None].

(** ** Vocabulary of the statements *)

Fixpoint no_char (c : ascii) (s : string) : bool :=
  match s with
  | EmptyString => true
  | String a r => negb (Ascii.eqb a c) && no_char c r
  end.


Definition map_result {A B : Type} (f : A -> B) (r : result A) : result B :=
  match r with
  | Ok a => Ok (f a)
  | Err e => Err e
  end.

(** What identifies an emitted event in the examples: the raw event id, the
    raw period id and the time stamp it was given. *)
Definition summary {K : Type} (ev : Event K) : Z * Z * pytime :=
  (OptaEvent.event_id (raw_event (generic ev)),
   OptaEvent.period_id (raw_event (generic ev)),
   timestamp (generic ev)).

Definition kickoff : Z := 1619895600000000.

(** First half: its start marker, then a pass.  Second half: a pass that
    arrives BEFORE the start marker of the second half. *)
Definition early_pass_feed : list OptaEvent.t :=
  [raw 1 32 1 kickoff "t-home" "" [];
   raw 2 1 1 (kickoff + 5000000) "t-home" "p1" [];
   raw 3 1 2 (kickoff + 3600000000) "t-away" "q1" [];
   raw 4 32 2 (kickoff + 3605000000) "t-home" "" []].

(** A player-off event that closes the feed; its qualifier 55 names event 7,
    which is not among its neighbours. *)
Definition closing_player_off_feed : list OptaEvent.t :=
  [raw 1 32 1 kickoff "t-home" "" [];
   raw 2 1 1 (kickoff + 5000000) "t-home" "p1" [];
   raw 3 18 1 (kickoff + 9000000) "t-home" "p1" [(JInt 55, JStr "7")]].

(** An event of a team that is not playing, in a period the metadata does
    not declare. *)
Definition stray_team_feed : list OptaEvent.t :=
  [raw 1 32 1 kickoff "t-home" "" [];
   raw 2 1 9 (kickoff + 5000000) "t-other" "p1" []].

(** *** Possession, read off the raw events alone *)

Definition start_of (ps : list Period.t) (pi : nat) : option pytime :=
  match nth_error ps pi with
  | Some p => Period.start_timestamp p
  | None => None
  end.

(** Event [e] is a start marker of the period at position [pi]. *)
Definition opens {K : Type} (E : env K) (periods0 : list Period.t) (pi : nat)
    (e : OptaEvent.t) : bool :=
  (OptaEvent.type_id e =? EVENT_TYPE_START_PERIOD E)
  && match _parse_period e periods0 with
     | Some pj => Nat.eqb pj pi
     | None => false
     end.

(** The period at [pi] has a start time stamp once the events [seen] have
    gone by: it had one to begin with, or one of them was its start marker. *)
Definition period_open {K : Type} (E : env K) (periods0 : list Period.t)
    (seen : list OptaEvent.t) (pi : nat) : bool :=
  truthy_time (start_of periods0 pi) || existsb (opens E periods0 pi) seen.

(** The team that takes the ball with event [e], which follows [seen]: [e] is
    an ordinary event of a known, open period and its type is ball-owning. *)
Definition takes_possession {K : Type} (E : env K) (teams : Team.t * Team.t)
    (periods0 : list Period.t) (seen : list OptaEvent.t) (e : OptaEvent.t)
    : option Team.t :=
  match _parse_period e periods0, _parse_team e teams with
  | Some pi, Ok t =>
      if negb (OptaEvent.type_id e =? EVENT_TYPE_START_PERIOD E)
         && negb (OptaEvent.type_id e =? EVENT_TYPE_END_PERIOD E)
         && negb (OptaEvent.type_id e =? EVENT_TYPE_PLAYER_ON E)
         && period_open E periods0 seen pi
         && mem_Z (OptaEvent.type_id e) (BALL_OWNING_EVENTS E)
      then Some t else None
  | _, _ => None
  end.

(** The team of the most recent event that took the ball; the events are
    given latest first.  [None] when no event has taken it yet. *)
Fixpoint last_owner {K : Type} (E : env K) (teams : Team.t * Team.t)
    (periods0 : list Period.t) (latest_first : list OptaEvent.t)
    : option Team.t :=
  match latest_first with
  | [] => None
  | e :: older =>
      match takes_possession E teams periods0 (rev older) e with
      | Some t => Some t
      | None => last_owner E teams periods0 older
      end
  end.

Definition state_of {K : Type} (r : result (@loop_state K)) : @loop_state K :=
  match r with
  | Ok st => st
  | Err _ => mkState [] None []
  end.

(** Kick-off, a home pass, an away foul, an away pass, a home throw-in. *)
Definition possession_feed : list OptaEvent.t :=
  [raw 1 32 1 kickoff "t-home" "" [];
   raw 2 1 1 (kickoff + 1000000) "t-home" "p1" [];
   raw 3 4 1 (kickoff + 2000000) "t-away" "q1" [];
   raw 4 1 1 (kickoff + 3000000) "t-away" "q2" [];
   raw 5 5 1 (kickoff + 4000000) "t-home" "p1" []].

(** What the loop maintains, stated against the events [seen] so far and the
    periods [periods0] the pass started with. *)
Definition loop_invariant {K : Type} (E : env K) (teams : Team.t * Team.t)
    (periods0 : list Period.t) (seen : list OptaEvent.t) (st : @loop_state K)
    : Prop :=
  map Period.id (periods st) = map Period.id periods0
  /\ (forall pi, truthy_time (start_of (periods st) pi)
                 = period_open E periods0 seen pi)
  /\ possession_team st = last_owner E teams periods0 (rev seen).

Definition possession_pre : list OptaEvent.t := firstn 2 possession_feed.

Definition possession_foul : OptaEvent.t :=
  raw 3 4 1 (kickoff + 2000000) "t-away" "q1" [].

Definition possession_before_foul : @loop_state unit :=
  state_of (parse_loop opta_env possession_feed both_teams possession_pre 0
              (initial_state metadata_periods)).

Definition possession_after_foul : @loop_state unit :=
  state_of (loop_body opta_env possession_feed both_teams 2 possession_foul
              possession_before_foul).

(** *** Period entries, as the statements speak of them *)

(** The three integers of a period entry: number, start frame, end frame. *)
Definition entry_fields : Type := (Z * Z * Z)%type.

Definition read_int (entry : json) (key : string) : result Z :=
  bind (py_getitem entry key) py_int.

Definition played (f : entry_fields) : bool :=
  let '(_, s, e) := f in negb ((s =? 0) && (e =? 0)).

(** [entry] is read as [f]; the number is only read for a played period. *)
Definition reads_as (entry : json) (f : entry_fields) : Prop :=
  let '(n, s, e) := f in
  read_int entry "startFrameIdx" = Ok s
  /\ read_int entry "endFrameIdx" = Ok e
  /\ (played f = true -> read_int entry "number" = Ok n).



(** *** Format tags *)




(** What the stream holds from its read position on. *)
Definition unread (feed : stream) : string := drop_chars (pos feed) (data feed).

(** *** A feed record without the two identifiers, and a substitution *)

Definition anonymous_record : json :=
  JDict [("optaEvent",
          JDict [("id", JInt 5); ("eventId", JInt 1); ("typeId", JInt 1);
                 ("periodId", JInt 1); ("alignedClock", JNull);
                 ("x", JInt 1); ("y", JInt 2);
                 ("timeStamp", JStr "2021-05-01T20:00:00.5");
                 ("lastModified", JStr "2021-05-01T20:00:00");
                 ("outcome", JInt 1); ("qualifier", JList [])])].

Definition kickoff_marker : OptaEvent.t :=
  raw 1 32 1 kickoff "t-home" "" [].

Definition player_off : OptaEvent.t :=
  raw 3 18 1 (kickoff + 9000000) "t-home" "p1" [(JInt 55, JStr "7")].

Definition player_on_forward : OptaEvent.t :=
  raw 7 19 1 (kickoff + 9000000) "t-home" "p2" [(JInt 44, JStr "Forward")].


(** * The rest of the parsers *)

(** ** parsers/__init__.py: the event parser *)





Fixpoint map_result_list {A B : Type} (f : A -> result B) (l : list A)
    : result (list B) :=
  match l with
  | [] => Ok []
  | a :: r =>
      b <- f a ;;
      bs <- map_result_list f r ;;
      Ok (b :: bs)
  end.




Section Decoding.

(** [bytes.decode("utf-8")] and [json.loads] belong to the Python library;
    each may fail with its own exception. *)
Variable decode_utf8 : string -> result string.
Variable json_loads : string -> result json.





End Decoding.

(** ** metadata_json.py: the other facets *)

(** An argument of [datetime(...)] must be an integer that fits a C int. *)
Definition py_index (v : json) : result Z :=
  match v with
  | JInt z =>
      if (-2147483648 <=? z) && (z <=? 2147483647) then Ok z
      else Err ExternalError   (* OverflowError: does not fit a C int *)
  | JBool b => Ok (if b then 1 else 0)
  | _ => Err TypeError
  end.

(** [datetime(year, month, day, 0, 0, tzinfo=timezone.utc)] *)
Definition utc_midnight (y m d : Z) : result pytime :=
  if (1 <=? y) && (y <=? 9999) && (1 <=? m) && (m <=? 12)
     && (1 <=? d) && (d <=? days_in_month y m)
  then Ok (DateTime (wall_us (mkNaive y m d 0 0 0 0)))
  else Err ValueError.

Definition extract_date (feed : json) : result pytime :=
  year <- py_getitem feed "year" ;;
  month <- py_getitem feed "month" ;;
  day <- py_getitem feed "day" ;;
  y <- py_index year ;;
  m <- py_index month ;;
  d <- py_index day ;;
  utc_midnight y m d.

Definition extract_game_id (feed : json) : result json :=
  py_getitem feed "ssiId".

Definition extract_pitch_dimensions (feed : json) : result (json * json) :=
  pitch_length <- py_getitem feed "pitchLength" ;;
  pitch_width <- py_getitem feed "pitchWidth" ;;
  Ok (pitch_length, pitch_width).

(** [Score(home=..., away=...)] *)
Definition extract_score (feed : json) : result (json * json) :=
  home <- py_getitem feed "homeScore" ;;
  away <- py_getitem feed "awayScore" ;;
  Ok (home, away).

(** *** Lineups

    The identifiers, names and positions are stored as the document gives
    them, whatever their JSON type. *)
Module LineupPlayer.
Record t : Type := mk {
  player_id : json;
  name : json;
  starting : bool;
  starting_position : json;
  team_side : Team.ground;
  jersey_no : Z;
  attributes : list (string * json)
}.
End LineupPlayer.

Module LineupTeam.
Record t : Type := mk {
  team_id : json;
  name : string;
  side : Team.ground;
  players : list LineupPlayer.t
}.
End LineupTeam.

(** The [try] block: the names either side of the first hyphen of the
    description; a missing key, a value that is not a string and a
    description without hyphen all fall back to the placeholders.  A document
    that is not an object is a [TypeError], which is not caught. *)
Definition description_names (feed : json) : result (string * string) :=
  match feed with
  | JDict kv =>
      match assoc_get "description" kv with
      | Some (JStr description) =>
          match split_on "-" description with
          | home :: rest :: _ =>
              Ok (strip home, strip (hd EmptyString (split_on ":" rest)))
          | _ => Ok ("home", "away")
          end
      | _ => Ok ("home", "away")
      end
  | _ => Err TypeError
  end.

(** [v != "SUB"] *)
Definition is_not_SUB (v : json) : bool :=
  match v with
  | JStr s => negb (String.eqb s "SUB")
  | _ => true
  end.

Definition attribute_whitelist : list string := ["ssiId"; "optaUuid"].

(** One [Player(...)] call, after the attribute comprehension. *)
Definition build_player (side : Team.ground) (player_data : json)
    : result LineupPlayer.t :=
  match player_data with
  | JDict kv =>
      let player_attributes :=
        filter (fun p => existsb (String.eqb (fst p)) attribute_whitelist) kv in
      player_id <- getitem kv "optaId" ;;
      name <- getitem kv "name" ;;
      position <- getitem kv "position" ;;
      jersey_no <- bind (getitem kv "number") py_int ;;
      Ok (LineupPlayer.mk player_id name (is_not_SUB position) position side
            jersey_no player_attributes)
  | _ => Err AttributeError
  end.

Definition build_team (feed : json) (side : Team.ground) (team_id : json)
    (name players_key : string) : result LineupTeam.t :=
  entries <- bind (py_getitem feed players_key) py_iter ;;
  players <- map_result_list (build_player side) entries ;;
  Ok (LineupTeam.mk team_id name side players).

Definition extract_lineups (feed : json) : result (list LineupTeam.t) :=
  names <- description_names feed ;;
  home_id <- py_getitem feed "homeOptaId" ;;
  away_id <- py_getitem feed "awayOptaId" ;;
  home <- build_team feed Team.HOME home_id (fst names) "homePlayers" ;;
  away <- build_team feed Team.AWAY away_id (snd names) "awayPlayers" ;;
  Ok [home; away].

(** ** deserializer.py: the "parse data" block

    The raw events that are not deleted go through the mapping loop; the
    periods of the dataset are the period objects as the loop left them. *)
Definition parse_data {K : Type} (E : env K) (teams : Team.t * Team.t)
    (periods : list Period.t) (extracted : list OptaEvent.t)
    : result (@loop_state K) :=
  parse_events_state E (drop_deleted E extracted) teams periods.

(** ** Vocabulary of the further statements *)

(** [l1] is [l2] with some elements left out, the others in their order. *)
Inductive subsequence {A : Type} : list A -> list A -> Prop :=
| subsequence_nil : subsequence [] []
| subsequence_skip (a : A) (l1 l2 : list A) :
    subsequence l1 l2 -> subsequence l1 (a :: l2)
| subsequence_take (a : A) (l1 l2 : list A) :
    subsequence l1 l2 -> subsequence (a :: l1) (a :: l2).

(** The external transformer and the shot arguments leave the generic
    argument [f] of an event as the loop set it. *)
Definition keeps {K A : Type} (E : env K) (f : generic_kwargs -> A) : Prop :=
  (forall ev, f (generic (transform_event E ev)) = f (generic ev))
  /\ (forall kw g, f (shot_update E kw g) = f g).

(** The three types that never reach the constructors. *)
Definition is_marker {K : Type} (E : env K) (e : OptaEvent.t) : bool :=
  (OptaEvent.type_id e =? EVENT_TYPE_START_PERIOD E)
  || (OptaEvent.type_id e =? EVENT_TYPE_END_PERIOD E)
  || (OptaEvent.type_id e =? EVENT_TYPE_PLAYER_ON E).

Definition raw_of {K : Type} (ev : Event K) : OptaEvent.t :=
  raw_event (generic ev).

Definition end_of (ps : list Period.t) (pi : nat) : option pytime :=
  match nth_error ps pi with
  | Some p => Period.end_timestamp p
  | None => None
  end.

(** Event [e] is an end marker of the period at position [pi]; the start
    type is tested first. *)
Definition closes {K : Type} (E : env K) (periods0 : list Period.t) (pi : nat)
    (e : OptaEvent.t) : bool :=
  negb (OptaEvent.type_id e =? EVENT_TYPE_START_PERIOD E)
  && (OptaEvent.type_id e =? EVENT_TYPE_END_PERIOD E)
  && match _parse_period e periods0 with
     | Some pj => Nat.eqb pj pi
     | None => false
     end.

(** The time stamp of the latest event of [seen] that satisfies [mark], and
    [initial] when there is none. *)
Definition latest_mark (mark : OptaEvent.t -> bool) (seen : list OptaEvent.t)
    (initial : option pytime) : option pytime :=
  match find mark (rev seen) with
  | Some e => Some (DateTime (OptaEvent.timestamp e))
  | None => initial
  end.

Definition is_clamped {K : Type} (b : event_body K) : bool :=
  match b with
  | build_formation_change _ => true
  | build_substitution _ _ => true
  | _ => false
  end.

(** Event [ev] is what the constructors made of the ordinary raw event [e]:
    [e] is no marker, its team resolved, and [ev] was built from generic
    arguments computed from [e] and passed the inclusion predicate. *)
Definition built_from {K : Type} (E : env K) (teams : Team.t * Team.t)
    (e : OptaEvent.t) (ev : Event K) : Prop :=
  is_marker E e = false
  /\ should_include_event E ev = true
  /\ exists team pi start possession previous_event next_event next_next_event,
       _parse_team e teams = Ok team
       /\ build_event E e team previous_event next_event next_next_event start
            (mkGeneric pi (datetime_sub (OptaEvent.timestamp e) start)
               possession
               (if mem_Z (OptaEvent.type_id e) (DEAD_BALL_EVENTS E)
                then DEAD else ALIVE)
               (OptaEvent.id e) team (resolve_player team e)
               (OptaEvent.x e, OptaEvent.y e) e)
          = Ok ev.

(** The events built along a stretch of the feed: at most one per raw event,
    in the order of the feed. *)
Inductive emitted {K : Type} (E : env K) (teams : Team.t * Team.t)
    : list OptaEvent.t -> list (Event K) -> Prop :=
| emitted_nil : emitted E teams [] []
| emitted_skip (e : OptaEvent.t) (rest : list OptaEvent.t)
    (built : list (Event K)) :
    emitted E teams rest built -> emitted E teams (e :: rest) built
| emitted_take (e : OptaEvent.t) (ev : Event K) (rest : list OptaEvent.t)
    (built : list (Event K)) :
    built_from E teams e ev ->
    emitted E teams rest built ->
    emitted E teams (e :: rest) (ev :: built).

Definition events_of {K : Type} (r : result (list (Event K))) : list (Event K) :=
  match r with
  | Ok l => l
  | Err _ => []
  end.

(** The output for [possession_feed]. *)
Definition possession_output : list (Event unit) :=
  events_of (parse_events opta_env possession_feed both_teams metadata_periods).

(** A formation change that reaches the feed before the kick-off marker's
    time, and a substitution, each with the marker it refers to. *)
Definition clamped_feed : list OptaEvent.t :=
  [raw 1 32 1 kickoff "t-home" "" [];
   raw 2 40 1 (kickoff - 3000000) "t-home" "p1" [];
   raw 3 18 1 (kickoff + 9000000) "t-home" "p1" [(JInt 55, JStr "7")];
   raw 7 19 1 (kickoff + 9000000) "t-home" "p2" [(JInt 44, JStr "Forward")]].

Definition clamped_output : list (Event unit) :=
  events_of (parse_events opta_env clamped_feed both_teams metadata_periods).

(** What the loop does to the period objects, stated against the events
    [seen] so far: identifiers stay, a start (end) time stamp is that of the
    latest start (end) marker of the period, and the one the period came with
    when there has been none. *)
Definition periods_invariant {K : Type} (E : env K) (periods0 : list Period.t)
    (seen : list OptaEvent.t) (st : @loop_state K) : Prop :=
  map Period.id (periods st) = map Period.id periods0
  /\ forall pi,
       start_of (periods st) pi
       = latest_mark (opens E periods0 pi) seen (start_of periods0 pi)
       /\ end_of (periods st) pi
          = latest_mark (closes E periods0 pi) seen (end_of periods0 pi).

Definition early_pass_state : @loop_state unit :=
  state_of (parse_events_state opta_env early_pass_feed both_teams
              metadata_periods).

(** The first half with a deleted event of an unknown team in it. *)
Definition deleted_feed : list OptaEvent.t :=
  [raw 1 32 1 kickoff "t-home" "" [];
   raw 2 43 1 (kickoff + 1000000) "t-other" "x" [];
   raw 3 1 1 (kickoff + 2000000) "t-home" "p1" []].

Definition deleted_state : @loop_state unit :=
  state_of (parse_data opta_env both_teams metadata_periods deleted_feed).

(** The test of the [for] loop in [_parse_substitution]: [event] is the
    player-on marker with the related event id. *)
Definition is_player_on_for {K : Type} (E : env K) (related_event_id : Z)
    (event : OptaEvent.t) : bool :=
  (OptaEvent.type_id event =? EVENT_TYPE_PLAYER_ON E)
  && (OptaEvent.event_id event =? related_event_id).

Definition no_replacement (current_event : OptaEvent.t) : pyerror :=
  DeserializationError
    ("Unable to determine replacement player for event_id "
     ++ str_of_Z (OptaEvent.event_id current_event)).

(** The identifier of a qualifier entry, when it is an object with one. *)
Definition entry_id (item : json) : option json :=
  match item with
  | JDict kv => assoc_get "qualifierId" kv
  | _ => None
  end.

Definition entry_has_id (k : json) (item : json) : bool :=
  match entry_id item with
  | Some k0 => key_eqb k k0
  | None => false
  end.

(** [item.get("opValue", item.get("value"))] of an entry. *)
Definition entry_value (item : json) : json :=
  match item with
  | JDict kv => qualifier_value kv
  | _ => JNull
  end.

Definition qualifier_entries : list json :=
  [JDict [("qualifierId", JInt 55); ("value", JStr "7")];
   JDict [("value", JStr "no id")];
   JDict [("qualifierId", JInt 44); ("value", JStr "a"); ("opValue", JStr "b")];
   JDict [("qualifierId", JInt 55); ("value", JStr "8")]].

(** Some entry is a played period. *)
Definition any_played (fields : list entry_fields) : bool := existsb played fields.




Definition metadata_doc_fps_zero : json :=
  JDict [("fps", JInt 0);
         ("periods", JList [period_entry 3 0 0; period_entry 1 100 67600])].

(** *** Lineups, as the statements speak of them *)

(** A player was built from the entry of its team's player list. *)
Definition built_player (side : Team.ground) (entry : json)
    (p : LineupPlayer.t) : Prop :=
  build_player side entry = Ok p.

Definition is_SUB (v : json) : bool := negb (is_not_SUB v).

Definition lineup_doc : json :=
  JDict [("description", JStr "Paris Saint-Germain - Lyon : 2021-05-01");
         ("homeOptaId", JStr "t-home"); ("awayOptaId", JStr "t-away");
         ("homePlayers",
          JList [JDict [("optaId", JStr "p1"); ("name", JStr "Keeper");
                        ("position", JStr "GK"); ("number", JInt 1);
                        ("ssiId", JStr "s1"); ("height", JInt 190)];
                 JDict [("optaId", JStr "p2"); ("name", JStr "Striker");
                        ("position", JStr "SUB"); ("number", JStr "9")]]);
         ("awayPlayers", JList [])].


Definition lineups_of (r : result (list LineupTeam.t)) : list LineupTeam.t :=
  match r with
  | Ok l => l
  | Err _ => []
  end.




(** *** The caller's part

    The environment [E] with another inclusion predicate and another
    transformer: the two things the caller of [parse_events] chooses. *)
Definition with_caller {K : Type} (E : env K) (include : Event K -> bool)
    (transform : Event K -> Event K) : env K :=
  {| europe_london := europe_london E;
     float_of_str := float_of_str E;
     py_repr := py_repr E;
     EVENT_TYPE_START_PERIOD := EVENT_TYPE_START_PERIOD E;
     EVENT_TYPE_END_PERIOD := EVENT_TYPE_END_PERIOD E;
     EVENT_TYPE_DELETED_EVENT := EVENT_TYPE_DELETED_EVENT E;
     EVENT_TYPE_PASS := EVENT_TYPE_PASS E;
     EVENT_TYPE_OFFSIDE_PASS := EVENT_TYPE_OFFSIDE_PASS E;
     EVENT_TYPE_TAKE_ON := EVENT_TYPE_TAKE_ON E;
     EVENT_TYPE_SHOT_MISS := EVENT_TYPE_SHOT_MISS E;
     EVENT_TYPE_SHOT_POST := EVENT_TYPE_SHOT_POST E;
     EVENT_TYPE_SHOT_SAVED := EVENT_TYPE_SHOT_SAVED E;
     EVENT_TYPE_SHOT_GOAL := EVENT_TYPE_SHOT_GOAL E;
     EVENT_TYPE_RECOVERY := EVENT_TYPE_RECOVERY E;
     EVENT_TYPE_CLEARANCE := EVENT_TYPE_CLEARANCE E;
     EVENT_TYPE_INTERCEPTION := EVENT_TYPE_INTERCEPTION E;
     EVENT_TYPE_BLOCKED_PASS := EVENT_TYPE_BLOCKED_PASS E;
     EVENT_TYPE_BALL_TOUCH := EVENT_TYPE_BALL_TOUCH E;
     EVENT_TYPE_FOUL_COMMITTED := EVENT_TYPE_FOUL_COMMITTED E;
     EVENT_TYPE_FORMATION_CHANGE := EVENT_TYPE_FORMATION_CHANGE E;
     EVENT_TYPE_PLAYER_OFF := EVENT_TYPE_PLAYER_OFF E;
     EVENT_TYPE_PLAYER_ON := EVENT_TYPE_PLAYER_ON E;
     EVENT_TYPE_CARD := EVENT_TYPE_CARD E;
     BALL_OUT_EVENTS := BALL_OUT_EVENTS E;
     BALL_OWNING_EVENTS := BALL_OWNING_EVENTS E;
     DEAD_BALL_EVENTS := DEAD_BALL_EVENTS E;
     DUEL_EVENTS := DUEL_EVENTS E;
     KEEPER_EVENTS := KEEPER_EVENTS E;
     position_line_mapping := position_line_mapping E;
     _get_event_type_name := _get_event_type_name E;
     _parse_pass := _parse_pass E;
     _parse_offside_pass := _parse_offside_pass E;
     _parse_take_on := _parse_take_on E;
     _parse_shot := _parse_shot E;
     _parse_clearance := _parse_clearance E;
     _parse_duel := _parse_duel E;
     _parse_interception := _parse_interception E;
     _parse_goalkeeper_events := _parse_goalkeeper_events E;
     _parse_formation_change := _parse_formation_change E;
     _parse_card := _parse_card E;
     shot_update := shot_update E;
     should_include_event := include;
     transform_event := transform |}.

(** The state a pass would have reached had [include] and [transform] been
    applied to every event it built. *)
Definition caller_view {K : Type} (include : Event K -> bool)
    (transform : Event K -> Event K) (st : @loop_state K) : @loop_state K :=
  mkState (periods st) (possession_team st)
    (map transform (filter include (events st))).

(** The pass that includes every event and leaves it as built. *)
Definition parse_all {K : Type} (E : env K) (raw_events : list OptaEvent.t)
    (teams : Team.t * Team.t) (periods0 : list Period.t)
    : result (@loop_state K) :=
  parse_events_state (with_caller E (fun _ => true) (fun ev => ev))
    raw_events teams periods0.

(** Neither a shot nor an event with a clamped time stamp. *)
Definition is_plain {K : Type} (b : event_body K) : bool :=
  match b with
  | build_shot _ => false
  | build_formation_change _ => false
  | build_substitution _ _ => false
  | _ => true
  end.

(** The away foul of [possession_feed] with periods that the feed's own
    markers start: the state before and after its iteration. *)
Definition foul_pre_state : @loop_state unit :=
  state_of (parse_loop opta_env possession_feed both_teams possession_pre 0
              (initial_state unset_periods)).

Definition foul_post_state : @loop_state unit :=
  state_of (loop_body opta_env possession_feed both_teams 2 possession_foul
              foul_pre_state).

(** The formation change of [clamped_feed], three seconds before the
    kick-off marker's time. *)
Definition early_formation_change : OptaEvent.t :=
  raw 2 40 1 (kickoff - 3000000) "t-home" "p1" [].

Definition formation_pre_state : @loop_state unit :=
  state_of (parse_loop opta_env clamped_feed both_teams (firstn 1 clamped_feed)
              0 (initial_state unset_periods)).

Definition formation_post_state : @loop_state unit :=
  state_of (loop_body opta_env clamped_feed both_teams 1 early_formation_change
              formation_pre_state).
(** * Properties *)

(** ** The error monad *)

Lemma bind_ok {A B : Type} (m : result A) (k : A -> result B) (b : B) :
  bind m k = Ok b -> exists a, m = Ok a /\ k a = Ok b.
Proof.
  destruct m as [a | e]; simpl; intros H.
  - exists a; split; [reflexivity | exact H].
  - discriminate H.
Qed.

Ltac bind_inv H :=
  let a := fresh "a" in
  let Ha := fresh "Hbind" in
  apply bind_ok in H; destruct H as [a [Ha H]].

(** ** Strings: splitting on the dot and joining again *)

Lemma split_on_no_char (c : ascii) (s : string) :
  no_char c s = true -> split_on c s = [s].
Proof.
  induction s as [| a r IH]; simpl; intros H.
  - reflexivity.
  - apply andb_prop in H as [Ha Hr].
    apply negb_true_iff in Ha. rewrite Ha, (IH Hr). reflexivity.
Qed.

Lemma split_on_nonempty (c : ascii) (s : string) : split_on c s <> [].
Proof.
  destruct s as [| a r]; simpl; [discriminate |].
  destruct (Ascii.eqb a c); [discriminate |].
  destruct (split_on c r); discriminate.
Qed.

Lemma split_on_app_sep (c : ascii) (p d : string) :
  no_char c d = true ->
  split_on c (p ++ String c d) = (split_on c p ++ [d])%list.
Proof.
  intros Hd. induction p as [| a r IH]; simpl.
  - rewrite Ascii.eqb_refl, (split_on_no_char _ _ Hd). reflexivity.
  - destruct (Ascii.eqb a c) eqn:Hac.
    + rewrite IH. reflexivity.
    + rewrite IH. destruct (split_on c r) as [| h t] eqn:Hs.
      * exfalso. exact (split_on_nonempty _ _ Hs).
      * reflexivity.
Qed.

Lemma init_last_snoc (l : list string) (x : string) :
  init_last (l ++ [x])%list = (l, x).
Proof.
  induction l as [| a r IH]; simpl; [reflexivity |].
  rewrite IH. destruct (r ++ [x])%list eqn:Hr; [| reflexivity].
  destruct r; discriminate Hr.
Qed.

Lemma append_assoc (a b c : string) : ((a ++ b) ++ c)%string = (a ++ (b ++ c))%string.
Proof. induction a as [| x a IH]; simpl; [reflexivity | rewrite IH; reflexivity]. Qed.

Lemma concat_split_on (c : ascii) (s : string) :
  String.concat (String c EmptyString) (split_on c s) = s.
Proof.
  induction s as [| a r IH]; simpl; [reflexivity |].
  destruct (Ascii.eqb a c) eqn:Hac.
  - apply Ascii.eqb_eq in Hac. subst a.
    destruct (split_on c r) as [| h t] eqn:Hs.
    + exfalso. exact (split_on_nonempty _ _ Hs).
    + simpl in *. rewrite IH. reflexivity.
  - destruct (split_on c r) as [| h t] eqn:Hs.
    + exfalso. exact (split_on_nonempty _ _ Hs).
    + simpl in *. destruct t; simpl in *; rewrite <- IH; reflexivity.
Qed.

Lemma concat_snoc (sep : string) (l : list string) (x : string) :
  l <> [] ->
  String.concat sep (l ++ [x])%list = (String.concat sep l ++ sep ++ x)%string.
Proof.
  induction l as [| a r IH]; intros Hl; [contradiction |].
  destruct r as [| b r']; simpl.
  - reflexivity.
  - simpl in IH. rewrite IH by discriminate.
    rewrite !append_assoc. reflexivity.
Qed.

(** ** Reading and writing the millisecond part *)

Lemma is_digit_cases (c : ascii) :
  is_digit c = true ->
  In c ["0"; "1"; "2"; "3"; "4"; "5"; "6"; "7"; "8"; "9"]%char.
Proof.
  destruct c as [[] [] [] [] [] [] [] []]; intros H;
    try discriminate H; simpl; tauto.
Qed.

Lemma digit_not_space (c : ascii) : is_digit c = true -> is_space c = false.
Proof.
  intros H. apply is_digit_cases in H. simpl in H.
  repeat (destruct H as [H | H]; [subst c; reflexivity |]). contradiction.
Qed.

Lemma digit_not_dot (c : ascii) : is_digit c = true -> Ascii.eqb c "." = false.
Proof.
  intros H. apply is_digit_cases in H. simpl in H.
  repeat (destruct H as [H | H]; [subst c; reflexivity |]). contradiction.
Qed.

Lemma all_digits_no_dot (d : string) : all_digits d = true -> no_char "." d = true.
Proof.
  induction d as [| c r IH]; simpl; intros H; [reflexivity |].
  apply andb_prop in H as [Hc Hr].
  rewrite (digit_not_dot _ Hc), (IH Hr). reflexivity.
Qed.

Lemma lstrip_digits (d : string) : all_digits d = true -> lstrip d = d.
Proof.
  destruct d as [| c r]; simpl; intros H; [reflexivity |].
  apply andb_prop in H as [Hc _]. rewrite (digit_not_space _ Hc). reflexivity.
Qed.

Lemma rstrip_digits (d : string) : all_digits d = true -> rstrip d = d.
Proof.
  induction d as [| c r IH]; simpl; intros H; [reflexivity |].
  apply andb_prop in H as [Hc Hr]. rewrite (IH Hr).
  destruct r; [rewrite (digit_not_space _ Hc) |]; reflexivity.
Qed.

Lemma int_body_digits (d : string) (acc : Z) (st : int_state) :
  all_digits d = true -> d <> EmptyString ->
  int_body d acc st = Some (digits_value d acc).
Proof.
  revert acc st. induction d as [| c r IH]; intros acc st H Hne.
  - contradiction.
  - simpl in *. apply andb_prop in H as [Hc Hr]. rewrite Hc.
    destruct r as [| c' r'].
    + reflexivity.
    + apply IH; [exact Hr | discriminate].
Qed.

(** [int(d)] of a non-empty run of decimal digits is its decimal value. *)
Lemma py_int_str_digits (d : string) :
  all_digits d = true -> d <> EmptyString ->
  py_int_str d = Ok (digits_value d 0).
Proof.
  intros H Hne. unfold py_int_str, strip.
  rewrite (lstrip_digits _ H), (rstrip_digits _ H).
  destruct d as [| c r]; [contradiction |].
  assert (Hc : is_digit c = true) by (simpl in H; apply andb_prop in H; tauto).
  pose proof (int_body_digits _ 0 IntStart H Hne) as Hib.
  apply is_digit_cases in Hc. simpl in Hc.
  repeat (destruct Hc as [Hc | Hc];
          [subst c; lazy beta iota; rewrite Hib; reflexivity |]).
  contradiction.
Qed.

Ltac digit_cases H :=
  apply is_digit_cases in H; simpl in H;
  repeat (destruct H as [H | H]; [subst |]); try contradiction.

(** [{:03d}] of the value of one to three digits is those digits, left-padded
    with zeros to three. *)
Lemma fmt03d_digits (d : string) :
  all_digits d = true -> (1 <= String.length d <= 3)%nat ->
  fmt03d (digits_value d 0) = lpad_zeros 3 d.
Proof.
  intros H [Hlo Hhi].
  destruct d as [| a [| b [| c [| x r]]]]; simpl in Hlo, Hhi; try lia;
    simpl in H.
  - rewrite andb_true_r in H. digit_cases H; reflexivity.
  - apply andb_prop in H as [Ha Hb]. rewrite andb_true_r in Hb.
    digit_cases Ha; digit_cases Hb; reflexivity.
  - apply andb_prop in H as [Ha H]. apply andb_prop in H as [Hb Hc].
    rewrite andb_true_r in Hc.
    digit_cases Ha; digit_cases Hb; digit_cases Hc; vm_compute; reflexivity.
Qed.

Lemma lpad_zeros_length (d : string) :
  (1 <= String.length d <= 3)%nat -> String.length (lpad_zeros 3 d) = 3%nat.
Proof.
  intros [Hlo Hhi].
  destruct d as [| a [| b [| c [| x r]]]]; simpl in Hlo, Hhi; try lia;
    reflexivity.
Qed.

Lemma lpad_zeros_all_digits (d : string) :
  all_digits d = true -> all_digits (lpad_zeros 3 d) = true.
Proof.
  intros H. unfold lpad_zeros.
  induction (3 - String.length d)%nat as [| k IH]; simpl; [exact H | exact IH].
Qed.

Lemma lpad_zeros_idem (d : string) :
  (1 <= String.length d <= 3)%nat -> lpad_zeros 3 (lpad_zeros 3 d) = lpad_zeros 3 d.
Proof.
  intros Hd. unfold lpad_zeros at 1. rewrite (lpad_zeros_length _ Hd). reflexivity.
Qed.

(** What the nested helper returns on a fraction of one to three digits. *)
Lemma zero_pad_milliseconds_digits (p d : string) :
  all_digits d = true -> (1 <= String.length d <= 3)%nat ->
  zero_pad_milliseconds (p ++ "." ++ d) = Ok (p ++ "." ++ lpad_zeros 3 d)%string.
Proof.
  intros H Hlen. unfold zero_pad_milliseconds.
  change (p ++ "." ++ d)%string with (p ++ String "." d)%string.
  rewrite (split_on_app_sep "." p d (all_digits_no_dot _ H)).
  pose proof (split_on_nonempty "." p) as Hne.
  assert (Hlen1 : (List.length (split_on "." p ++ [d])%list =? 1)%nat = false).
  { rewrite length_app. apply Nat.eqb_neq.
    destruct (split_on "." p); [contradiction | simpl; lia]. }
  rewrite Hlen1, init_last_snoc.
  assert (Hd : d <> EmptyString) by (destruct d; simpl in Hlen; [lia | discriminate]).
  rewrite (py_int_str_digits _ H Hd). simpl bind.
  rewrite (fmt03d_digits _ H Hlen).
  rewrite (concat_snoc "." _ _ Hne), (concat_split_on "." p). reflexivity.
Qed.

(** ** Time stamps *)

(** C1, as stated, fails: the fraction [5] is written back as [005], so
    ["2021-05-01T20:00:00.5"] is five milliseconds past the second while
    ["2021-05-01T20:00:00.500"] is half a second past it. *)
Lemma parse_insight_datetime_half_second_differs :
  _parse_insight_datetime opta_env "2021-05-01T20:00:00.5" = Ok 1619895600005000
  /\ _parse_insight_datetime opta_env "2021-05-01T20:00:00.500" = Ok 1619895600500000
  /\ _parse_insight_datetime opta_env "2021-05-01T20:00:00.5"
     <> _parse_insight_datetime opta_env "2021-05-01T20:00:00.500".
Proof.
  split; [vm_compute; reflexivity |].
  split; [vm_compute; reflexivity |].
  vm_compute. discriminate.
Qed.

(** C1, amended: a string without a dot gets [".000"]; when the text after
    the last dot is one to three decimal digits, [_parse_insight_datetime]
    pads it on the LEFT with zeros to three digits before strict parsing, so
    the string denotes the same instant as its left-padded form (the digits
    count milliseconds). *)
Theorem parse_insight_datetime_left_padding :
  forall (K : Type) (E : env K),
    (forall s, no_char "." s = true ->
               zero_pad_milliseconds s = Ok (s ++ ".000")%string)
    /\ (forall p d,
           all_digits d = true ->
           (1 <= String.length d <= 3)%nat ->
           zero_pad_milliseconds (p ++ "." ++ d)
           = Ok (p ++ "." ++ lpad_zeros 3 d)%string
           /\ _parse_insight_datetime E (p ++ "." ++ d)
              = _parse_insight_datetime E (p ++ "." ++ lpad_zeros 3 d)).
Proof.
  intros K E. split.
  - intros s Hs. unfold zero_pad_milliseconds.
    rewrite (split_on_no_char _ _ Hs). reflexivity.
  - intros p d H Hlen.
    pose proof (zero_pad_milliseconds_digits p d H Hlen) as Hpad.
    split; [exact Hpad |].
    unfold _parse_insight_datetime. rewrite Hpad.
    rewrite (zero_pad_milliseconds_digits p (lpad_zeros 3 d)
               (lpad_zeros_all_digits _ H)).
    + rewrite (lpad_zeros_idem _ Hlen). reflexivity.
    + rewrite (lpad_zeros_length _ Hlen). lia.
Qed.

(** In particular ["...00.5"] and ["...00.005"] are the same instant. *)
Lemma parse_insight_datetime_left_padding_witness :
  all_digits "5" = true
  /\ (1 <= String.length "5" <= 3)%nat
  /\ _parse_insight_datetime opta_env "2021-05-01T20:00:00.5"
     = _parse_insight_datetime opta_env "2021-05-01T20:00:00.005"
  /\ zero_pad_milliseconds "2021-05-01T20:00:00"
     = Ok "2021-05-01T20:00:00.000".
Proof.
  split; [reflexivity |].
  split; [simpl; split; repeat constructor |].
  split.
  - exact (proj2 (proj2 (parse_insight_datetime_left_padding unit opta_env)
                    "2021-05-01T20:00:00" "5" eq_refl
                    (conj (le_n 1) (le_S 1 2 (le_S 1 1 (le_n 1)))))).
  - exact (proj1 (parse_insight_datetime_left_padding unit opta_env)
             "2021-05-01T20:00:00" eq_refl).
Defined.

(** ** Neighbour lookup *)

Lemma nth_error_last {A : Type} (l : list A) :
  forall a d : A, nth_error (a :: l) (List.length l) = Some (last (a :: l) d).
Proof.
  induction l as [| b r IH]; intros a d; [reflexivity |].
  simpl List.length.
  change (nth_error (a :: b :: r) (S (List.length r)))
    with (nth_error (b :: r) (List.length r)).
  rewrite (IH b d). reflexivity.
Qed.

Lemma py_list_index_in_range {A : Type} (l : list A) (i : Z) :
  0 <= i < Z.of_nat (List.length l) ->
  py_list_index l i = of_option IndexError (nth_error l (Z.to_nat i)).
Proof.
  intros [Hlo Hhi]. unfold py_list_index.
  replace (i <? 0) with false by (symmetry; apply Z.ltb_ge; lia).
  replace (i <? 0) with false by (symmetry; apply Z.ltb_ge; lia).
  replace (Z.of_nat (List.length l) <=? i) with false
    by (symmetry; apply Z.leb_gt; lia).
  reflexivity.
Qed.

(** Inside the list the neighbour is the element at [idx + offset]; past the
    end it is null. *)
Lemma parse_nearby_event_forward (raw_events : list OptaEvent.t) (idx offset : Z) :
  0 <= idx + offset ->
  _parse_nearby_event raw_events idx offset
  = Ok (nth_error raw_events (Z.to_nat (idx + offset))).
Proof.
  intros Hlo. unfold _parse_nearby_event.
  destruct (idx + offset <? Z.of_nat (List.length raw_events)) eqn:Hlt.
  - apply Z.ltb_lt in Hlt.
    rewrite py_list_index_in_range by lia.
    destruct (nth_error raw_events (Z.to_nat (idx + offset))) eqn:Hn;
      [reflexivity |].
    apply nth_error_None in Hn. lia.
  - apply Z.ltb_ge in Hlt.
    symmetry. f_equal. apply nth_error_None. lia.
Qed.

(** C2: at the first index the look-back does not give a null neighbour: the
    index [-1] passes the only bound that is checked and selects the LAST
    element of the feed. *)
Theorem parse_nearby_event_wraps_at_first_index :
  forall (e : OptaEvent.t) (rest : list OptaEvent.t),
    _parse_nearby_event (e :: rest) 0 (-1) = Ok (Some (last (e :: rest) e)).
Proof.
  intros e rest. unfold _parse_nearby_event, py_list_index.
  change (0 + -1) with (-1).
  replace (-1 <? Z.of_nat (List.length (e :: rest))) with true
    by (symmetry; apply Z.ltb_lt; lia).
  change (-1 <? 0) with true. cbv iota.
  replace (-1 + Z.of_nat (List.length (e :: rest)))
    with (Z.of_nat (List.length rest)) by (simpl List.length; lia).
  replace (Z.of_nat (List.length rest) <? 0) with false
    by (symmetry; apply Z.ltb_ge; lia).
  replace (Z.of_nat (List.length (e :: rest)) <=? Z.of_nat (List.length rest))
    with false by (symmetry; apply Z.leb_gt; simpl List.length; lia).
  simpl orb. cbv iota. rewrite Nat2Z.id, (nth_error_last rest e e). reflexivity.
Qed.

(** ** Period start and the first ordinary events *)

(** C3: the periods that [extract_periods] hands to the loop already carry a
    start time stamp (a frame offset), so the "not started yet" test lets the
    second-half pass (raw event 3) through although the start marker of the
    second half (raw event 4) has not been seen; its time stamp is the
    difference of a datetime and a timedelta, hence a datetime. *)
Theorem early_event_emitted_before_period_start :
  extract_periods metadata_doc = Ok metadata_periods
  /\ map_result (map summary)
       (parse_events opta_env early_pass_feed both_teams metadata_periods)
     = Ok [(2, 1, TimeDelta 5000000);
           (3, 2, DateTime (kickoff + 3600000000 - 3600000000))].
Proof. split; vm_compute; reflexivity. Qed.

(** With periods whose start is unset the same pass is discarded. *)
Lemma early_event_discarded_when_start_unset :
  map_result (map summary)
    (parse_events opta_env early_pass_feed both_teams unset_periods)
  = Ok [(2, 1, TimeDelta 5000000)].
Proof. vm_compute; reflexivity. Qed.

(** ** Substitutions *)

(** C4: a player-off event that is the last of the feed and whose previous
    neighbour is not the player-on marker makes the scan reach the null next
    neighbour: the parse stops with an attribute error, not with the
    deserialization error of the [for ... else]. *)
Theorem closing_player_off_attribute_error :
  parse_events opta_env closing_player_off_feed both_teams metadata_periods
  = Err AttributeError.
Proof. vm_compute; reflexivity. Qed.

(** The same for every environment and every non-matching previous
    neighbour. *)
Lemma parse_substitution_null_next {K : Type} (E : env K)
    (current_event previous : OptaEvent.t) (team : Team.t) (related : Z) :
  py_int (pydict_get_default (OptaEvent.qualifiers current_event) (JInt 55))
  = Ok related ->
  (OptaEvent.type_id previous =? EVENT_TYPE_PLAYER_ON E)
  && (OptaEvent.event_id previous =? related) = false ->
  _parse_substitution E current_event (Some previous) None team
  = Err AttributeError.
Proof.
  intros Hq Hprev. unfold _parse_substitution. rewrite Hq. simpl.
  rewrite Hprev. reflexivity.
Qed.

(** ** Team resolution *)

Lemma parse_loop_app {K : Type} (E : env K) (raw_events : list OptaEvent.t)
    (teams : Team.t * Team.t) (a b : list OptaEvent.t) :
  forall (idx : Z) (st : loop_state),
    parse_loop E raw_events teams (a ++ b) idx st
    = bind (parse_loop E raw_events teams a idx st)
        (fun st' => parse_loop E raw_events teams b
                      (idx + Z.of_nat (List.length a)) st').
Proof.
  induction a as [| x a IH]; intros idx st.
  - simpl. rewrite Z.add_0_r. reflexivity.
  - replace (idx + Z.of_nat (List.length (x :: a)))
      with (idx + 1 + Z.of_nat (List.length a))
      by (change (List.length (x :: a)) with (S (List.length a)); lia).
    cbn [app parse_loop].
    destruct (loop_body E raw_events teams idx x st) as [st1 | err]; cbn [bind].
    + apply IH.
    + reflexivity.
Qed.

Lemma parse_team_cases (e : OptaEvent.t) (teams : Team.t * Team.t) (t : Team.t) :
  _parse_team e teams = Ok t -> t = fst teams \/ t = snd teams.
Proof.
  unfold _parse_team. intros H.
  destruct (eq_opt_str _ (Team.team_id (fst teams))).
  - left. congruence.
  - destruct (eq_opt_str _ (Team.team_id (snd teams))); [right; congruence |].
    discriminate H.
Qed.

Lemma loop_body_unknown_team {K : Type} (E : env K)
    (raw_events : list OptaEvent.t) (teams : Team.t * Team.t) (idx : Z)
    (e : OptaEvent.t) (st : loop_state) :
  eq_opt_str (OptaEvent.contestant_id e) (Team.team_id (fst teams)) = false ->
  eq_opt_str (OptaEvent.contestant_id e) (Team.team_id (snd teams)) = false ->
  loop_body E raw_events teams idx e st
  = Err (DeserializationError
           ("Unknown team_id " ++ str_of_opt (OptaEvent.contestant_id e))).
Proof.
  intros H1 H2. unfold loop_body, _parse_team. rewrite H1, H2. reflexivity.
Qed.

(** C5: an event whose team reference is neither of the two team identifiers
    makes the whole parse fail, whatever its period; when the events before
    it went through, the failure is the deserialization error of
    [_parse_team].  A resolved team is always one of the two. *)
Theorem unknown_team_aborts_parse :
  forall (K : Type) (E : env K) (raw_events : list OptaEvent.t)
         (teams : Team.t * Team.t) (periods : list Period.t)
         (pre : list OptaEvent.t) (e : OptaEvent.t) (post : list OptaEvent.t),
    raw_events = (pre ++ e :: post)%list ->
    eq_opt_str (OptaEvent.contestant_id e) (Team.team_id (fst teams)) = false ->
    eq_opt_str (OptaEvent.contestant_id e) (Team.team_id (snd teams)) = false ->
    is_ok (parse_events E raw_events teams periods) = false
    /\ (forall st,
          parse_loop E raw_events teams pre 0 (initial_state periods) = Ok st ->
          parse_events E raw_events teams periods
          = Err (DeserializationError
                   ("Unknown team_id " ++ str_of_opt (OptaEvent.contestant_id e))))
    /\ (forall e' t, _parse_team e' teams = Ok t -> t = fst teams \/ t = snd teams).
Proof.
  intros K E raw_events teams periods pre e post Hraw H1 H2.
  assert (Hrun : forall st,
             parse_loop E raw_events teams pre 0 (initial_state periods) = Ok st ->
             parse_events E raw_events teams periods
             = Err (DeserializationError
                      ("Unknown team_id " ++ str_of_opt (OptaEvent.contestant_id e)))).
  { intros st Hst. unfold parse_events, parse_events_state.
    rewrite Hraw at 2. rewrite parse_loop_app, Hst. simpl bind.
    rewrite (loop_body_unknown_team E _ _ _ _ _ H1 H2). reflexivity. }
  split; [| split; [exact Hrun | intros e' t; apply parse_team_cases]].
  destruct (parse_loop E raw_events teams pre 0 (initial_state periods))
    as [st | err] eqn:Hpre.
  - rewrite (Hrun st eq_refl). reflexivity.
  - unfold parse_events, parse_events_state.
    rewrite Hraw at 2. rewrite parse_loop_app, Hpre. reflexivity.
Qed.

Lemma unknown_team_aborts_parse_witness :
  stray_team_feed
  = ([raw 1 32 1 kickoff "t-home" "" []]
     ++ raw 2 1 9 (kickoff + 5000000) "t-other" "p1" [] :: [])%list
  /\ _parse_period (raw 2 1 9 (kickoff + 5000000) "t-other" "p1" [])
       metadata_periods = None
  /\ is_ok (parse_events opta_env stray_team_feed both_teams metadata_periods)
     = false
  /\ parse_events opta_env stray_team_feed both_teams metadata_periods
     = Err (DeserializationError "Unknown team_id t-other").
Proof.
  split; [reflexivity |].
  split; [reflexivity |].
  pose proof (unknown_team_aborts_parse unit opta_env stray_team_feed both_teams
                metadata_periods [raw 1 32 1 kickoff "t-home" "" []]
                (raw 2 1 9 (kickoff + 5000000) "t-other" "p1" []) []
                eq_refl eq_refl eq_refl) as [Hfail [Hrun _]].
  split; [exact Hfail |].
  exact (Hrun _ eq_refl).
Defined.

(** ** Possession *)

Lemma parse_period_ids (e : OptaEvent.t) (ps : list Period.t) :
  forall ps', map Period.id ps = map Period.id ps' ->
              _parse_period e ps = _parse_period e ps'.
Proof.
  unfold _parse_period.
  induction ps as [| p r IH]; intros [| p' r'] H; try discriminate H.
  - reflexivity.
  - simpl in H. injection H as Hid Hr. simpl. rewrite Hid, (IH r' Hr).
    reflexivity.
Qed.

Lemma find_index_lt {A : Type} (f : A -> bool) (l : list A) :
  forall n, find_index f l = Some n -> (n < List.length l)%nat.
Proof.
  induction l as [| a r IH]; intros n H; simpl in H; [discriminate H |].
  destruct (f a).
  - injection H as <-. simpl. lia.
  - destruct (find_index f r) as [m |]; [| discriminate H].
    injection H as <-. simpl. specialize (IH m eq_refl). lia.
Qed.

Lemma update_nth_ids (pi : nat) (f : Period.t -> Period.t) (ps : list Period.t) :
  (forall p, Period.id (f p) = Period.id p) ->
  map Period.id (update_nth pi f ps) = map Period.id ps.
Proof.
  intros Hf. revert pi.
  induction ps as [| p r IH]; intros [| n]; simpl; try reflexivity.
  - rewrite Hf. reflexivity.
  - rewrite IH. reflexivity.
Qed.

Lemma start_of_set_start (ts : pytime) (ps : list Period.t) :
  forall pi pj, (pi < List.length ps)%nat ->
    start_of (update_nth pi (Period.set_start ts) ps) pj
    = if Nat.eqb pj pi then Some ts else start_of ps pj.
Proof.
  unfold start_of.
  induction ps as [| p r IH]; intros pi pj Hlt; simpl in Hlt; [lia |].
  destruct pi as [| pi]; destruct pj as [| pj]; simpl; try reflexivity.
  apply IH. lia.
Qed.

Lemma start_of_set_end (ts : pytime) (ps : list Period.t) :
  forall pi pj,
    start_of (update_nth pi (Period.set_end ts) ps) pj = start_of ps pj.
Proof.
  unfold start_of.
  induction ps as [| p r IH]; intros pi pj.
  - destruct pi; reflexivity.
  - destruct pi as [| pi]; destruct pj as [| pj]; simpl; try reflexivity.
    apply IH.
Qed.

Lemma period_open_snoc {K : Type} (E : env K) (periods0 : list Period.t)
    (seen : list OptaEvent.t) (e : OptaEvent.t) (pi : nat) :
  period_open E periods0 (seen ++ [e]) pi
  = period_open E periods0 seen pi || opens E periods0 pi e.
Proof.
  unfold period_open. rewrite existsb_app. simpl.
  rewrite orb_false_r, orb_assoc. reflexivity.
Qed.

Lemma last_owner_snoc {K : Type} (E : env K) (teams : Team.t * Team.t)
    (periods0 : list Period.t) (seen : list OptaEvent.t) (e : OptaEvent.t) :
  last_owner E teams periods0 (rev (seen ++ [e]))
  = match takes_possession E teams periods0 seen e with
    | Some t => Some t
    | None => last_owner E teams periods0 (rev seen)
    end.
Proof.
  rewrite rev_app_distr. simpl. rewrite rev_involutive. reflexivity.
Qed.

Lemma goal_timestamp_owner {K : Type} (E : env K) (raw_event : OptaEvent.t)
    (start : pytime) (g g' : generic_kwargs) :
  goal_timestamp E raw_event start g = Ok g' ->
  ball_owning_team g' = ball_owning_team g.
Proof.
  unfold goal_timestamp. intros H.
  destruct (pydict_mem _ _); [| injection H as <-; reflexivity].
  destruct (pydict_get _ _) as [[] |]; try discriminate H.
  bind_inv H. injection H as <-. reflexivity.
Qed.

(** Whatever constructor is chosen, the event is built with the possession
    team of the generic arguments. *)
Lemma build_event_owner {K : Type} (E : env K) (raw_event : OptaEvent.t)
    (team : Team.t) (previous_event next_event next_next_event : option OptaEvent.t)
    (start : pytime) (g : generic_kwargs) (ev : Event K) :
  (forall kw g0, ball_owning_team (shot_update E kw g0) = ball_owning_team g0) ->
  build_event E raw_event team previous_event next_event next_next_event start g
  = Ok ev ->
  ball_owning_team (generic ev) = ball_owning_team g.
Proof.
  intros Hshot H. unfold build_event in H.
  repeat match type of H with
         | (if ?c then _ else _) = _ => destruct c eqn:?
         end;
    repeat match goal with
           | H : bind ?m _ = Ok _ |- _ => bind_inv H
           end;
    try (injection H as <-; simpl; try rewrite Hshot; try reflexivity).
  all: try (destruct (OptaEvent.type_id raw_event =? EVENT_TYPE_SHOT_GOAL E);
            [eapply goal_timestamp_owner; eassumption | congruence]).
Qed.

Lemma opens_not_start {K : Type} (E : env K) (periods0 : list Period.t)
    (pi : nat) (e : OptaEvent.t) :
  (OptaEvent.type_id e =? EVENT_TYPE_START_PERIOD E) = false ->
  opens E periods0 pi e = false.
Proof. intros H. unfold opens. rewrite H. reflexivity. Qed.

Lemma opens_no_period {K : Type} (E : env K) (periods0 : list Period.t)
    (pi : nat) (e : OptaEvent.t) :
  _parse_period e periods0 = None -> opens E periods0 pi e = false.
Proof. intros H. unfold opens. rewrite H. apply andb_false_r. Qed.

Lemma truthy_start_of (ps : list Period.t) (pi : nat) :
  truthy_time (start_of ps pi)
  = match option_map Period.start_timestamp (nth_error ps pi) with
    | Some (Some start) => truthy_time (Some start)
    | _ => false
    end.
Proof.
  unfold start_of. destruct (nth_error ps pi) as [p |]; simpl; [| reflexivity].
  destruct (Period.start_timestamp p); reflexivity.
Qed.

(** One iteration keeps the invariant, and what it appends, if anything,
    carries the possession team the iteration ends with. *)
Lemma loop_body_invariant {K : Type} (E : env K) (raw_events : list OptaEvent.t)
    (teams : Team.t * Team.t) (periods0 : list Period.t)
    (seen : list OptaEvent.t) (idx : Z) (e : OptaEvent.t)
    (st st' : loop_state) :
  (forall kw g0, ball_owning_team (shot_update E kw g0) = ball_owning_team g0) ->
  loop_invariant E teams periods0 seen st ->
  loop_body E raw_events teams idx e st = Ok st' ->
  loop_invariant E teams periods0 (seen ++ [e]) st'
  /\ (events st' = events st
      \/ exists ev,
           events st' = (events st ++ [transform_event E ev])%list
           /\ ball_owning_team (generic ev) = possession_team st').
Proof.
  intros Hshot [Hids [Hopen Hposs]] Hbody.
  unfold loop_invariant.
  setoid_rewrite period_open_snoc. rewrite last_owner_snoc.
  unfold takes_possession.
  unfold loop_body in Hbody.
  destruct (_parse_team e teams) as [team | err] eqn:Hteam;
    [cbn [bind] in Hbody | discriminate Hbody].
  bind_inv Hbody. bind_inv Hbody. bind_inv Hbody.
  rewrite (parse_period_ids e _ _ Hids) in Hbody.
  destruct (_parse_period e periods0) as [pi |] eqn:Hper.
  - (* the period is known *)
    pose proof (find_index_lt _ _ _ Hper) as Hlt.
    rewrite <- (length_map Period.id), <- Hids, length_map in Hlt.
    destruct (OptaEvent.type_id e =? EVENT_TYPE_START_PERIOD E) eqn:Hstart.
    + (* start marker *)
      injection Hbody as <-. cbn [periods possession_team events negb andb].
      split; [| left; reflexivity].
      split; [rewrite update_nth_ids by reflexivity; exact Hids |].
      split; [| exact Hposs].
      intros pj. rewrite start_of_set_start by exact Hlt.
      unfold opens. rewrite Hstart, Hper. cbn [andb].
      destruct (Nat.eqb pj pi) eqn:Hpj.
      * apply Nat.eqb_eq in Hpj. subst pj. rewrite Nat.eqb_refl.
        rewrite orb_true_r. reflexivity.
      * rewrite Nat.eqb_sym, Hpj, orb_false_r. apply Hopen.
    + destruct (OptaEvent.type_id e =? EVENT_TYPE_END_PERIOD E) eqn:Hend.
      * (* end marker *)
        injection Hbody as <-. cbn [periods possession_team events negb andb].
        split; [| left; reflexivity].
        split; [rewrite update_nth_ids by reflexivity; exact Hids |].
        split; [| exact Hposs].
        intros pj. rewrite start_of_set_end, (opens_not_start _ _ _ _ Hstart).
        rewrite orb_false_r. apply Hopen.
      * destruct (OptaEvent.type_id e =? EVENT_TYPE_PLAYER_ON E) eqn:Hon.
        -- (* player-on marker *)
           injection Hbody as <-. cbn [negb andb].
           split; [| left; reflexivity].
           split; [exact Hids |].
           split; [| exact Hposs].
           intros pj. rewrite (opens_not_start _ _ _ _ Hstart), orb_false_r.
           apply Hopen.
        -- (* ordinary event *)
           cbn [negb andb]. unfold ordinary_event in Hbody.
           rewrite <- (Hopen pi), truthy_start_of.
           destruct (option_map Period.start_timestamp (nth_error (periods st) pi))
             as [[start |] |];
             try (injection Hbody as <-; split; [| left; reflexivity];
                  split; [exact Hids |]; split; [| exact Hposs];
                  intros pj;
                  rewrite (opens_not_start _ _ _ _ Hstart), orb_false_r;
                  apply Hopen).
           destruct (truthy_time (Some start)); cbn [negb] in Hbody.
           ++ bind_inv Hbody. injection Hbody as <-.
              cbn [periods possession_team events andb].
              split.
              ** split; [exact Hids |].
                 split.
                 --- intros pj.
                     rewrite (opens_not_start _ _ _ _ Hstart), orb_false_r.
                     apply Hopen.
                 --- rewrite <- Hposs.
                     destruct (mem_Z (OptaEvent.type_id e) (BALL_OWNING_EVENTS E));
                       reflexivity.
              ** destruct (should_include_event E a2); [right | left; reflexivity].
                 exists a2. split; [reflexivity |].
                 rewrite (build_event_owner E _ _ _ _ _ _ _ _ Hshot Hbind2).
                 reflexivity.
           ++ injection Hbody as <-. split; [| left; reflexivity].
              split; [exact Hids |]. split; [| exact Hposs].
              intros pj. rewrite (opens_not_start _ _ _ _ Hstart), orb_false_r.
              apply Hopen.
  - (* no such period: the event is skipped *)
    injection Hbody as <-. split; [| left; reflexivity].
    split; [exact Hids |]. split; [| exact Hposs].
    intros pj. rewrite (opens_no_period _ _ _ _ Hper), orb_false_r. apply Hopen.
Qed.

(** What does hold: a start marker records its own time stamp as the start
    of its period, and an ordinary event of a period without a recorded start
    leaves the state as it is. *)
Lemma start_marker_sets_start {K : Type} (E : env K)
    (raw_events : list OptaEvent.t) (teams : Team.t * Team.t) (idx : Z)
    (e : OptaEvent.t) (st st' : loop_state) (pi : nat) :
  OptaEvent.type_id e = EVENT_TYPE_START_PERIOD E ->
  _parse_period e (periods st) = Some pi ->
  loop_body E raw_events teams idx e st = Ok st' ->
  start_of (periods st') pi = Some (DateTime (OptaEvent.timestamp e))
  /\ events st' = events st.
Proof.
  intros Htype Hper Hbody. unfold loop_body in Hbody.
  bind_inv Hbody. bind_inv Hbody. bind_inv Hbody. bind_inv Hbody.
  rewrite Hper, Htype, Z.eqb_refl in Hbody. injection Hbody as <-.
  cbn [periods events]. split; [| reflexivity].
  rewrite start_of_set_start by exact (find_index_lt _ _ _ Hper).
  rewrite Nat.eqb_refl. reflexivity.
Qed.

Lemma ordinary_event_discarded_when_unset {K : Type} (E : env K)
    (e : OptaEvent.t) (team : Team.t) (pi : nat)
    (previous_event next_event next_next_event : option OptaEvent.t)
    (st : loop_state) :
  truthy_time (start_of (periods st) pi) = false ->
  ordinary_event E e team pi previous_event next_event next_next_event st
  = Ok st.
Proof.
  intros H. rewrite truthy_start_of in H. unfold ordinary_event.
  destruct (option_map Period.start_timestamp (nth_error (periods st) pi))
    as [[start |] |]; try reflexivity.
  rewrite H. reflexivity.
Qed.

Lemma initial_state_invariant {K : Type} (E : env K) (teams : Team.t * Team.t)
    (periods0 : list Period.t) :
  loop_invariant E teams periods0 [] (initial_state periods0).
Proof.
  split; [reflexivity |]. split; [| reflexivity].
  intros pi. unfold period_open. simpl. rewrite orb_false_r. reflexivity.
Qed.

Lemma parse_loop_invariant {K : Type} (E : env K) (raw_events : list OptaEvent.t)
    (teams : Team.t * Team.t) (periods0 : list Period.t)
    (Hshot : forall kw g0,
        ball_owning_team (shot_update E kw g0) = ball_owning_team g0)
    (pre : list OptaEvent.t) :
  forall (seen : list OptaEvent.t) (idx : Z) (st st' : loop_state),
    loop_invariant E teams periods0 seen st ->
    parse_loop E raw_events teams pre idx st = Ok st' ->
    loop_invariant E teams periods0 (seen ++ pre) st'.
Proof.
  induction pre as [| e pre IH]; intros seen idx st st' Hinv Hrun.
  - simpl in Hrun. injection Hrun as <-. rewrite app_nil_r. exact Hinv.
  - cbn [parse_loop] in Hrun. bind_inv Hrun.
    destruct (loop_body_invariant E _ _ _ _ _ _ _ _ Hshot Hinv Hbind) as [Hinv' _].
    replace (seen ++ e :: pre)%list with ((seen ++ [e]) ++ pre)%list
      by (rewrite <- app_assoc; reflexivity).
    exact (IH _ _ _ _ Hinv' Hrun).
Qed.

(** C6: after any number of iterations the possession team is the team of the
    most recent ordinary ball-owning event ([None] when there has been none),
    and an event emitted by the next iteration carries the team so determined
    at that point: its own team when it is ball-owning itself, the team of
    the preceding ball-owning event otherwise. *)
Theorem possession_follows_latest_ball_owning_event :
  forall (K : Type) (E : env K) (raw_events : list OptaEvent.t)
         (teams : Team.t * Team.t) (periods0 : list Period.t)
         (pre : list OptaEvent.t) (e : OptaEvent.t) (post : list OptaEvent.t)
         (st st' : loop_state),
    (forall ev, ball_owning_team (generic (transform_event E ev))
                = ball_owning_team (generic ev)) ->
    (forall kw g, ball_owning_team (shot_update E kw g) = ball_owning_team g) ->
    raw_events = (pre ++ e :: post)%list ->
    parse_loop E raw_events teams pre 0 (initial_state periods0) = Ok st ->
    loop_body E raw_events teams (Z.of_nat (List.length pre)) e st = Ok st' ->
    possession_team st = last_owner E teams periods0 (rev pre)
    /\ possession_team st'
       = match takes_possession E teams periods0 pre e with
         | Some t => Some t
         | None => possession_team st
         end
    /\ (events st' = events st
        \/ exists ev,
             events st' = (events st ++ [ev])%list
             /\ ball_owning_team (generic ev)
                = last_owner E teams periods0 (rev (pre ++ [e]))).
Proof.
  intros K E raw_events teams periods0 pre e post st st'
         Htransform Hshot _ Hpre Hbody.
  pose proof (parse_loop_invariant E raw_events teams periods0 Hshot pre
                [] 0 _ _ (initial_state_invariant E teams periods0) Hpre) as Hinv.
  simpl app in Hinv.
  destruct (loop_body_invariant E _ _ _ _ _ _ _ _ Hshot Hinv Hbody)
    as [[_ [_ Hposs']] Hev].
  destruct Hinv as [_ [_ Hposs]].
  split; [exact Hposs |].
  split.
  - rewrite Hposs', last_owner_snoc, Hposs. reflexivity.
  - destruct Hev as [Hev | [ev [Hev Hown]]]; [left; exact Hev | right].
    exists (transform_event E ev). split; [exact Hev |].
    rewrite Htransform, Hown. exact Hposs'.
Qed.

(** Between two consecutive ball-owning events the owner is the team of the
    first of them. *)
Lemma last_owner_between {K : Type} (E : env K) (teams : Team.t * Team.t)
    (periods0 : list Period.t) (pre : list OptaEvent.t) (e : OptaEvent.t)
    (t : Team.t) (mid : list OptaEvent.t) :
  takes_possession E teams periods0 pre e = Some t ->
  (forall mid1 x mid2,
      mid = (mid1 ++ x :: mid2)%list ->
      takes_possession E teams periods0 (pre ++ e :: mid1) x = None) ->
  last_owner E teams periods0 (rev (pre ++ e :: mid)) = Some t.
Proof.
  intros Ht. induction mid as [| x mid IH] using rev_ind; intros Hnone.
  - rewrite last_owner_snoc, Ht. reflexivity.
  - replace (pre ++ e :: mid ++ [x])%list with ((pre ++ e :: mid) ++ [x])%list
      by (rewrite <- app_assoc; reflexivity).
    rewrite last_owner_snoc, (Hnone mid x [] eq_refl).
    apply IH. intros mid1 y mid2 Hmid.
    apply (Hnone mid1 y (mid2 ++ [x])%list).
    rewrite Hmid, <- app_assoc. reflexivity.
Qed.

(** The away foul that follows the home pass is emitted with the home team as
    ball-owning team. *)
Lemma possession_follows_latest_ball_owning_event_witness :
  possession_feed
  = (possession_pre ++ possession_foul :: skipn 3 possession_feed)%list
  /\ parse_loop opta_env possession_feed both_teams possession_pre 0
       (initial_state metadata_periods) = Ok possession_before_foul
  /\ loop_body opta_env possession_feed both_teams
       (Z.of_nat (List.length possession_pre)) possession_foul
       possession_before_foul = Ok possession_after_foul
  /\ possession_team possession_before_foul = Some home_team
  /\ possession_team possession_after_foul = Some home_team
  /\ exists ev,
       events possession_after_foul = (events possession_before_foul ++ [ev])%list
       /\ ball_owning_team (generic ev) = Some home_team.
Proof.
  assert (H1 : possession_feed
               = (possession_pre ++ possession_foul :: skipn 3 possession_feed)%list)
    by reflexivity.
  assert (H2 : parse_loop opta_env possession_feed both_teams possession_pre 0
                 (initial_state metadata_periods) = Ok possession_before_foul)
    by (vm_compute; reflexivity).
  assert (H3 : loop_body opta_env possession_feed both_teams
                 (Z.of_nat (List.length possession_pre)) possession_foul
                 possession_before_foul = Ok possession_after_foul)
    by (vm_compute; reflexivity).
  destruct (possession_follows_latest_ball_owning_event unit opta_env
              possession_feed both_teams metadata_periods possession_pre
              possession_foul (skipn 3 possession_feed)
              possession_before_foul possession_after_foul
              (fun ev => eq_refl) (fun kw g => eq_refl) H1 H2 H3)
    as [Hbefore [Hafter Hev]].
  split; [exact H1 |]. split; [exact H2 |]. split; [exact H3 |].
  split; [rewrite Hbefore; vm_compute; reflexivity |].
  split; [rewrite Hafter; vm_compute; reflexivity |].
  destruct Hev as [Hsame | [ev [Hev Hown]]].
  - vm_compute in Hsame. discriminate Hsame.
  - exists ev. split; [exact Hev |]. rewrite Hown. vm_compute. reflexivity.
Defined.

(** ** Periods of the metadata *)







(** ** Choosing the metadata parser *)








(** A lead byte of a longer character is not decodable on its own. *)
Lemma metadata_parser_undecodable_first_byte (feed : stream) (c : ascii)
    (rest : string) :
  unread feed = String c rest ->
  (128 <= nat_of_ascii c)%nat ->
  get_metadata_parser feed None = Err UnicodeDecodeError.
Proof.
  intros H Hc. unfold get_metadata_parser, read1.
  unfold unread in H. rewrite H. unfold decode1.
  replace (nat_of_ascii c <? 128)%nat with false
    by (symmetry; apply Nat.ltb_ge; exact Hc).
  reflexivity.
Qed.

(** ** Absent identifiers in the feed *)

Lemma build_opta_event_ids {K : Type} (E : env K) (oe : list (string * json))
    (e : OptaEvent.t) :
  build_opta_event E oe = Ok e ->
  OptaEvent.contestant_id e = Some (py_str E (dict_get_json oe "opContestantId"))
  /\ OptaEvent.player_id e = Some (py_str E (dict_get_json oe "opPlayerId")).
Proof.
  unfold build_opta_event. intros H.
  repeat match type of H with
         | bind _ _ = Ok _ => bind_inv H
         end.
  injection H as <-. split; reflexivity.
Qed.

Lemma py_str_absent {K : Type} (E : env K) (oe : list (string * json))
    (key : string) :
  assoc_get key oe = None -> py_str E (dict_get_json oe key) = "None".
Proof. intros H. unfold dict_get_json. rewrite H. reflexivity. Qed.

(** Every raw event comes from an accepted record of the feed. *)
Lemma extract_events_origin {K : Type} (E : env K) (feed : list json) :
  forall evs,
    extract_events E feed = Ok evs ->
    forall e, In e evs ->
      exists obj oe,
        In obj feed /\ accepted_record obj = Ok (Some oe)
        /\ build_opta_event E oe = Ok e.
Proof.
  induction feed as [| obj rest IH]; intros evs H e Hin.
  - injection H as <-. contradiction.
  - cbn [extract_events] in H. bind_inv H.
    destruct a as [oe |].
    + bind_inv H. bind_inv H. injection H as <-.
      destruct Hin as [<- | Hin].
      * exists obj, oe. split; [left; reflexivity | split; assumption].
      * destruct (IH _ Hbind1 e Hin) as [obj' [oe' [Hin' Hrest]]].
        exists obj', oe'. split; [right; exact Hin' | exact Hrest].
    + destruct (IH _ H e Hin) as [obj' [oe' [Hin' Hrest]]].
      exists obj', oe'. split; [right; exact Hin' | exact Hrest].
Qed.

(** C9: the two identifiers of an extracted raw event are strings, the text
    ["None"] when the key is absent from the record, so the player id is
    never null and the loop always looks the player up in the roster. *)
Theorem absent_identifier_becomes_text_None :
  forall (K : Type) (E : env K) (feed : list json) (evs : list OptaEvent.t)
         (e : OptaEvent.t),
    extract_events E feed = Ok evs ->
    In e evs ->
    exists obj oe pid cid,
      In obj feed
      /\ accepted_record obj = Ok (Some oe)
      /\ build_opta_event E oe = Ok e
      /\ OptaEvent.player_id e = Some pid
      /\ OptaEvent.contestant_id e = Some cid
      /\ (assoc_get "opPlayerId" oe = None -> pid = "None")
      /\ (assoc_get "opContestantId" oe = None -> cid = "None")
      /\ (forall team,
             resolve_player team e = Team.get_player_by_id team (Some pid)).
Proof.
  intros K E feed evs e H Hin.
  destruct (extract_events_origin E feed evs H e Hin) as [obj [oe [Hobj [Hacc Hbuild]]]].
  destruct (build_opta_event_ids E oe e Hbuild) as [Hcid Hpid].
  exists obj, oe, (py_str E (dict_get_json oe "opPlayerId")),
    (py_str E (dict_get_json oe "opContestantId")).
  repeat split; try assumption.
  - apply py_str_absent.
  - apply py_str_absent.
  - intros team. unfold resolve_player. rewrite Hpid. reflexivity.
Qed.

Lemma absent_identifier_becomes_text_None_witness :
  exists e,
    extract_events opta_env [anonymous_record] = Ok [e]
    /\ OptaEvent.player_id e = Some "None"
    /\ OptaEvent.contestant_id e = Some "None"
    /\ resolve_player home_team e = Team.get_player_by_id home_team (Some "None").
Proof.
  destruct (extract_events opta_env [anonymous_record]) as [evs | err] eqn:Hrun;
    [| vm_compute in Hrun; discriminate Hrun].
  destruct evs as [| e [| e' evs]];
    try (vm_compute in Hrun; discriminate Hrun).
  exists e. split; [reflexivity |].
  destruct (absent_identifier_becomes_text_None unit opta_env [anonymous_record]
              [e] e Hrun (or_introl eq_refl))
    as [obj [oe [pid [cid [Hobj [Hacc [_ [Hpid [Hcid [Hp [Hc Hres]]]]]]]]]]].
  destruct Hobj as [<- | []].
  vm_compute in Hacc. injection Hacc as <-.
  rewrite (Hp eq_refl) in Hpid, Hres. rewrite (Hc eq_refl) in Hcid.
  split; [exact Hpid |]. split; [exact Hcid |]. exact (Hres home_team).
Defined.

(** ** The position of the incoming player *)





(** * Further properties of the code *)

(** ** What one iteration of the mapping loop emits *)

Lemma goal_timestamp_field {K A : Type} (E : env K) (f : generic_kwargs -> A)
    (raw_event : OptaEvent.t) (start : pytime) (g g' : generic_kwargs) :
  (forall ts g0, f (with_timestamp ts g0) = f g0) ->
  goal_timestamp E raw_event start g = Ok g' ->
  f g' = f g.
Proof.
  intros Hts. unfold goal_timestamp. intros H.
  destruct (pydict_mem _ _); [| injection H as <-; reflexivity].
  destruct (pydict_get _ _) as [[] |]; try discriminate H.
  bind_inv H. injection H as <-. apply Hts.
Qed.

(** A generic argument that neither the time-stamp corrections nor the shot
    arguments touch reaches the constructor as the loop computed it. *)
Lemma build_event_field {K A : Type} (E : env K) (f : generic_kwargs -> A)
    (raw_event : OptaEvent.t) (team : Team.t)
    (previous_event next_event next_next_event : option OptaEvent.t)
    (start : pytime) (g : generic_kwargs) (ev : Event K) :
  (forall ts g0, f (with_timestamp ts g0) = f g0) ->
  (forall kw g0, f (shot_update E kw g0) = f g0) ->
  build_event E raw_event team previous_event next_event next_next_event start g
  = Ok ev ->
  f (generic ev) = f g.
Proof.
  intros Hts Hshot H. unfold build_event in H.
  repeat match type of H with
         | (if ?c then _ else _) = _ => destruct c eqn:?
         end;
    repeat match goal with
           | H : bind ?m _ = Ok _ |- _ => bind_inv H
           end;
    try (injection H as <-; simpl; try rewrite Hshot; try rewrite Hts;
         try reflexivity).
  all: try (destruct (OptaEvent.type_id raw_event =? EVENT_TYPE_SHOT_GOAL E);
            [eapply goal_timestamp_field; eassumption | congruence]).
Qed.

Lemma clamp_timedelta_nonneg (t t' : pytime) :
  clamp_timedelta t = Ok t' -> exists us, t' = TimeDelta us /\ 0 <= us.
Proof.
  destruct t as [us | us]; simpl; intros H; [discriminate H |].
  injection H as <-. exists (Z.max 0 us). split; [reflexivity | lia].
Qed.

(** Formation changes and substitutions are built with a clamped time
    stamp. *)
Lemma build_event_clamped {K : Type} (E : env K) (raw_event : OptaEvent.t)
    (team : Team.t)
    (previous_event next_event next_next_event : option OptaEvent.t)
    (start : pytime) (g : generic_kwargs) (ev : Event K) :
  build_event E raw_event team previous_event next_event next_next_event start g
  = Ok ev ->
  is_clamped (body ev) = true ->
  exists us, timestamp (generic ev) = TimeDelta us /\ 0 <= us.
Proof.
  intros H. unfold build_event in H.
  repeat match type of H with
         | (if ?c then _ else _) = _ => destruct c eqn:?
         end;
    repeat match goal with
           | H : bind ?m _ = Ok _ |- _ => bind_inv H
           end;
    injection H as <-; simpl; intros Hc; try discriminate Hc;
    eapply clamp_timedelta_nonneg; eassumption.
Qed.

Lemma loop_body_emits {K : Type} (E : env K) (raw_events : list OptaEvent.t)
    (teams : Team.t * Team.t) (idx : Z) (e : OptaEvent.t)
    (st st' : loop_state) :
  loop_body E raw_events teams idx e st = Ok st' ->
  events st' = events st
  \/ exists team pi start previous_event next_event next_next_event ev,
       _parse_team e teams = Ok team
       /\ _parse_period e (periods st) = Some pi
       /\ is_marker E e = false
       /\ start_of (periods st) pi = Some start
       /\ truthy_time (Some start) = true
       /\ build_event E e team previous_event next_event next_next_event start
            (mkGeneric pi (datetime_sub (OptaEvent.timestamp e) start)
               (possession_team st')
               (if mem_Z (OptaEvent.type_id e) (DEAD_BALL_EVENTS E)
                then DEAD else ALIVE)
               (OptaEvent.id e) team (resolve_player team e)
               (OptaEvent.x e, OptaEvent.y e) e)
          = Ok ev
       /\ should_include_event E ev = true
       /\ events st' = (events st ++ [transform_event E ev])%list.
Proof.
  intros Hbody. unfold loop_body in Hbody.
  destruct (_parse_team e teams) as [team | err] eqn:Hteam;
    [cbn [bind] in Hbody | discriminate Hbody].
  bind_inv Hbody. bind_inv Hbody. bind_inv Hbody.
  destruct (_parse_period e (periods st)) as [pi |] eqn:Hper;
    [| injection Hbody as <-; left; reflexivity].
  destruct (OptaEvent.type_id e =? EVENT_TYPE_START_PERIOD E) eqn:Hstart;
    [injection Hbody as <-; left; reflexivity |].
  destruct (OptaEvent.type_id e =? EVENT_TYPE_END_PERIOD E) eqn:Hend;
    [injection Hbody as <-; left; reflexivity |].
  destruct (OptaEvent.type_id e =? EVENT_TYPE_PLAYER_ON E) eqn:Hon;
    [injection Hbody as <-; left; reflexivity |].
  unfold ordinary_event in Hbody.
  destruct (nth_error (periods st) pi) as [p |] eqn:Hnth;
    cbn [option_map] in Hbody;
    [| injection Hbody as <-; left; reflexivity].
  destruct (Period.start_timestamp p) as [start |] eqn:Hst;
    [| injection Hbody as <-; left; reflexivity].
  destruct (truthy_time (Some start)) eqn:Hopen; cbn [negb] in Hbody;
    [| injection Hbody as <-; left; reflexivity].
  bind_inv Hbody. injection Hbody as <-. cbn [events possession_team].
  destruct (should_include_event E a2) eqn:Hinc; [right | left; reflexivity].
  exists team, pi, start, a, a0, a1, a2.
  unfold is_marker, start_of. rewrite Hstart, Hend, Hon, Hnth.
  repeat split; try reflexivity; assumption.
Qed.

(** ** What a whole pass emits *)

Lemma parse_loop_emits {K : Type} (E : env K) (raw_events : list OptaEvent.t)
    (teams : Team.t * Team.t) (rest : list OptaEvent.t) :
  forall (idx : Z) (st st' : loop_state),
    parse_loop E raw_events teams rest idx st = Ok st' ->
    exists built,
      events st' = (events st ++ map (transform_event E) built)%list
      /\ emitted E teams rest built.
Proof.
  induction rest as [| e rest IH]; intros idx st st' Hrun.
  - injection Hrun as <-. exists []. split; [| constructor].
    simpl. rewrite app_nil_r. reflexivity.
  - cbn [parse_loop] in Hrun. bind_inv Hrun.
    destruct (IH _ _ _ Hrun) as [built [Hev Hem]].
    destruct (loop_body_emits E _ _ _ _ _ _ Hbind)
      as [Hsame | [team [pi [start [pe [ne [nne [ev H]]]]]]]].
    + exists built. split; [rewrite Hev, Hsame; reflexivity |].
      constructor. exact Hem.
    + destruct H as [Hteam [_ [Hmark [_ [_ [Hbuild [Hinc Hout]]]]]]].
      exists (ev :: built). split.
      * rewrite Hev, Hout, <- app_assoc. reflexivity.
      * constructor; [| exact Hem].
        split; [exact Hmark |]. split; [exact Hinc |].
        exists team, pi, start, (possession_team a), pe, ne, nne.
        split; assumption.
Qed.

Lemma parse_events_emits {K : Type} (E : env K) (raw_events : list OptaEvent.t)
    (teams : Team.t * Team.t) (periods0 : list Period.t)
    (out : list (Event K)) :
  parse_events E raw_events teams periods0 = Ok out ->
  exists built,
    out = map (transform_event E) built /\ emitted E teams raw_events built.
Proof.
  unfold parse_events, parse_events_state. intros H. bind_inv H.
  injection H as <-.
  destruct (parse_loop_emits E _ _ _ _ _ _ Hbind) as [built [Hev Hem]].
  exists built. split; [exact Hev | exact Hem].
Qed.

Lemma built_from_field {K A : Type} (E : env K) (teams : Team.t * Team.t)
    (f : generic_kwargs -> A) (e : OptaEvent.t) (ev : Event K) :
  (forall ts g0, f (with_timestamp ts g0) = f g0) ->
  (forall kw g0, f (shot_update E kw g0) = f g0) ->
  built_from E teams e ev ->
  exists team pi start possession,
    _parse_team e teams = Ok team
    /\ f (generic ev)
       = f (mkGeneric pi (datetime_sub (OptaEvent.timestamp e) start)
              possession
              (if mem_Z (OptaEvent.type_id e) (DEAD_BALL_EVENTS E)
               then DEAD else ALIVE)
              (OptaEvent.id e) team (resolve_player team e)
              (OptaEvent.x e, OptaEvent.y e) e).
Proof.
  intros Hts Hshot [_ [_ [team [pi [start [poss [pe [ne [nne [Hteam Hb]]]]]]]]]].
  exists team, pi, start, poss. split; [exact Hteam |].
  exact (build_event_field E f _ _ _ _ _ _ _ _ Hts Hshot Hb).
Qed.

(** The raw events behind the built events are the feed with some events
    left out. *)
Lemma emitted_subsequence {K : Type} (E : env K) (teams : Team.t * Team.t)
    (rest : list OptaEvent.t) (built : list (Event K)) :
  (forall kw g, raw_event (shot_update E kw g) = raw_event g) ->
  emitted E teams rest built ->
  subsequence (map raw_of built) rest.
Proof.
  intros Hshot Hem. induction Hem as [| e rest built _ IH | e ev rest built Hb _ IH].
  - constructor.
  - apply subsequence_skip. exact IH.
  - destruct (built_from_field E teams raw_event e ev (fun _ _ => eq_refl) Hshot Hb)
      as [team [pi [start [poss [_ Hraw]]]]].
    simpl. unfold raw_of at 1. rewrite Hraw. simpl.
    apply subsequence_take. exact IH.
Qed.

Lemma map_raw_of_transform {K : Type} (E : env K) (built : list (Event K)) :
  (forall ev, raw_event (generic (transform_event E ev)) = raw_event (generic ev)) ->
  map raw_of (map (transform_event E) built) = map raw_of built.
Proof.
  intros Ht. rewrite map_map. apply map_ext. intros ev. apply Ht.
Qed.

Lemma subsequence_length {A : Type} (l1 l2 : list A) :
  subsequence l1 l2 -> (List.length l1 <= List.length l2)%nat.
Proof. induction 1; simpl; lia. Qed.

Lemma parse_events_keeps_feed_order_aux {K : Type} (E : env K)
    (raw_events : list OptaEvent.t) (teams : Team.t * Team.t)
    (periods0 : list Period.t) (out : list (Event K)) :
  keeps E raw_event ->
  parse_events E raw_events teams periods0 = Ok out ->
  subsequence (map raw_of out) raw_events.
Proof.
  intros [Ht Hs] Hrun.
  destruct (parse_events_emits E _ _ _ _ Hrun) as [built [-> Hem]].
  rewrite (map_raw_of_transform E built Ht).
  exact (emitted_subsequence E teams _ _ Hs Hem).
Qed.

(** The output keeps the order of the feed: the raw events behind the
    emitted events are the feed with some events left out, so there is at
    most one event per raw event. *)
Theorem parse_events_keeps_feed_order :
  forall (K : Type) (E : env K) (raw_events : list OptaEvent.t)
         (teams : Team.t * Team.t) (periods0 : list Period.t)
         (out : list (Event K)),
    keeps E raw_event ->
    parse_events E raw_events teams periods0 = Ok out ->
    subsequence (map raw_of out) raw_events
    /\ (List.length out <= List.length raw_events)%nat.
Proof.
  intros K E raw_events teams periods0 out Hkeeps Hrun.
  pose proof (parse_events_keeps_feed_order_aux E _ _ _ _ Hkeeps Hrun) as Hsub.
  split; [exact Hsub |].
  apply subsequence_length in Hsub. rewrite length_map in Hsub. exact Hsub.
Qed.

Lemma emitted_Forall {K : Type} (E : env K) (teams : Team.t * Team.t)
    (P : Event K -> Prop) (rest : list OptaEvent.t) (built : list (Event K)) :
  (forall e ev, built_from E teams e ev -> P ev) ->
  emitted E teams rest built ->
  Forall P built.
Proof.
  intros HP Hem. induction Hem as [| e rest built _ IH | e ev rest built Hb _ IH].
  - constructor.
  - exact IH.
  - constructor; [exact (HP e ev Hb) | exact IH].
Qed.

Lemma Forall_map_transform {K : Type} (E : env K) (P Q : Event K -> Prop)
    (built : list (Event K)) :
  (forall ev, P ev -> Q (transform_event E ev)) ->
  Forall P built ->
  Forall Q (map (transform_event E) built).
Proof.
  intros HPQ H. induction H; simpl; constructor; auto.
Qed.

(** Period markers and player-on markers never appear in the output: the raw
    event behind every emitted event is an ordinary one. *)
Theorem markers_are_never_emitted :
  forall (K : Type) (E : env K) (raw_events : list OptaEvent.t)
         (teams : Team.t * Team.t) (periods0 : list Period.t)
         (out : list (Event K)),
    keeps E raw_event ->
    parse_events E raw_events teams periods0 = Ok out ->
    Forall (fun ev => is_marker E (raw_of ev) = false) out.
Proof.
  intros K E raw_events teams periods0 out [Ht Hs] Hrun.
  destruct (parse_events_emits E _ _ _ _ Hrun) as [built [-> Hem]].
  apply (Forall_map_transform E (fun ev => is_marker E (raw_of ev) = false)).
  - intros ev H. unfold raw_of in *. rewrite Ht. exact H.
  - refine (emitted_Forall E teams _ _ _ _ Hem).
    intros e ev Hb.
    destruct (built_from_field E teams raw_event e ev (fun _ _ => eq_refl) Hs Hb)
    as [team [pi [start [poss [_ Hraw]]]]].
  unfold raw_of. rewrite Hraw. exact (proj1 Hb).
Qed.

(** The ball state of an emitted event depends on the type of its raw event
    only: dead for the dead-ball types, alive otherwise. *)
Theorem ball_state_follows_type :
  forall (K : Type) (E : env K) (raw_events : list OptaEvent.t)
         (teams : Team.t * Team.t) (periods0 : list Period.t)
         (out : list (Event K)),
    keeps E raw_event ->
    keeps E ball_state ->
    parse_events E raw_events teams periods0 = Ok out ->
    Forall (fun ev =>
              ball_state (generic ev)
              = if mem_Z (OptaEvent.type_id (raw_of ev)) (DEAD_BALL_EVENTS E)
                then DEAD else ALIVE) out.
Proof.
  intros K E raw_events teams periods0 out [Ht Hs] [Ht' Hs'] Hrun.
  destruct (parse_events_emits E _ _ _ _ Hrun) as [built [-> Hem]].
  apply (Forall_map_transform E
           (fun ev => ball_state (generic ev)
                      = if mem_Z (OptaEvent.type_id (raw_of ev)) (DEAD_BALL_EVENTS E)
                        then DEAD else ALIVE)).
  - intros ev H. unfold raw_of in *. rewrite Ht, Ht'. exact H.
  - refine (emitted_Forall E teams _ _ _ _ Hem).
    intros e ev Hb.
    destruct (built_from_field E teams (fun g => (raw_event g, ball_state g))
                e ev (fun _ _ => eq_refl)
                (fun kw g => f_equal2 pair (Hs kw g) (Hs' kw g)) Hb)
      as [team [pi [start [poss [_ Hf]]]]].
    injection Hf as Hraw Hstate. unfold raw_of. rewrite Hraw, Hstate.
    reflexivity.
Qed.

Lemma resolve_player_roster (team : Team.t) (e : OptaEvent.t) (p : Player.t) :
  resolve_player team e = Some p ->
  In p (Team.players team)
  /\ OptaEvent.player_id e = Some (Player.player_id p).
Proof.
  unfold resolve_player, Team.get_player_by_id.
  destruct (OptaEvent.player_id e) as [pid |]; [| discriminate].
  intros H. apply find_some in H as [Hin Heq].
  apply String.eqb_eq in Heq. split; [exact Hin | rewrite Heq; reflexivity].
Qed.

(** Every emitted event carries the team its raw event names, which is one
    of the two, and as player the first roster member of that team with the
    raw event's player id, when there is one. *)
Theorem emitted_team_and_player :
  forall (K : Type) (E : env K) (raw_events : list OptaEvent.t)
         (teams : Team.t * Team.t) (periods0 : list Period.t)
         (out : list (Event K)),
    keeps E raw_event ->
    keeps E team ->
    keeps E player ->
    parse_events E raw_events teams periods0 = Ok out ->
    Forall (fun ev =>
              _parse_team (raw_of ev) teams = Ok (team (generic ev))
              /\ OptaEvent.contestant_id (raw_of ev)
                 = Some (Team.team_id (team (generic ev)))
              /\ player (generic ev)
                 = resolve_player (team (generic ev)) (raw_of ev)
              /\ (forall p, player (generic ev) = Some p ->
                            In p (Team.players (team (generic ev)))
                            /\ OptaEvent.player_id (raw_of ev)
                               = Some (Player.player_id p))) out.
Proof.
  intros K E raw_events teams periods0 out [Ht Hs] [Ht' Hs'] [Ht'' Hs''] Hrun.
  destruct (parse_events_emits E _ _ _ _ Hrun) as [built [-> Hem]].
  set (P := fun ev : Event K =>
              _parse_team (raw_of ev) teams = Ok (team (generic ev))
              /\ OptaEvent.contestant_id (raw_of ev)
                 = Some (Team.team_id (team (generic ev)))
              /\ player (generic ev)
                 = resolve_player (team (generic ev)) (raw_of ev)
              /\ (forall p, player (generic ev) = Some p ->
                            In p (Team.players (team (generic ev)))
                            /\ OptaEvent.player_id (raw_of ev)
                               = Some (Player.player_id p))).
  apply (Forall_map_transform E P P).
  - intros ev H. unfold P, raw_of in *. rewrite Ht, Ht', Ht''. exact H.
  - refine (emitted_Forall E teams _ _ _ _ Hem).
    intros e ev Hb.
    destruct (built_from_field E teams
                (fun g => (raw_event g, team g, player g))
                e ev (fun _ _ => eq_refl)
                (fun kw g => f_equal2 pair
                               (f_equal2 pair (Hs kw g) (Hs' kw g)) (Hs'' kw g))
                Hb)
      as [tm [pi [start [poss [Hteam Hf]]]]].
    injection Hf as Hraw Htm Hpl. unfold P, raw_of.
    rewrite Hraw, Htm, Hpl.
    split; [exact Hteam |]. split.
    + unfold _parse_team in Hteam.
      destruct (OptaEvent.contestant_id e) as [c |]; simpl in Hteam;
        [| discriminate Hteam].
      destruct (String.eqb c (Team.team_id (fst teams))) eqn:H1.
      * injection Hteam as <-. apply String.eqb_eq in H1. rewrite H1. reflexivity.
      * destruct (String.eqb c (Team.team_id (snd teams))) eqn:H2;
          [| discriminate Hteam].
        injection Hteam as <-. apply String.eqb_eq in H2. rewrite H2. reflexivity.
    + split; [reflexivity |]. intros p. apply resolve_player_roster.
Qed.

(** Formation changes and substitutions never get a negative time stamp. *)
Theorem clamped_events_are_not_negative :
  forall (K : Type) (E : env K) (raw_events : list OptaEvent.t)
         (teams : Team.t * Team.t) (periods0 : list Period.t)
         (out : list (Event K)),
    (forall ev, body (transform_event E ev) = body ev) ->
    (forall ev, timestamp (generic (transform_event E ev))
                = timestamp (generic ev)) ->
    parse_events E raw_events teams periods0 = Ok out ->
    Forall (fun ev =>
              is_clamped (body ev) = true ->
              exists us, timestamp (generic ev) = TimeDelta us /\ 0 <= us) out.
Proof.
  intros K E raw_events teams periods0 out Hbody Hts Hrun.
  destruct (parse_events_emits E _ _ _ _ Hrun) as [built [-> Hem]].
  apply (Forall_map_transform E
           (fun ev => is_clamped (body ev) = true ->
                      exists us, timestamp (generic ev) = TimeDelta us /\ 0 <= us)).
  - intros ev H. rewrite Hbody, Hts. exact H.
  - refine (emitted_Forall E teams _ _ _ _ Hem).
    intros e ev [_ [_ [tm [pi [start [poss [pe [ne [nne [_ Hb]]]]]]]]]].
    exact (build_event_clamped E _ _ _ _ _ _ _ _ Hb).
Qed.

Lemma opta_env_keeps {A : Type} (f : generic_kwargs -> A) : keeps opta_env f.
Proof. split; intros; reflexivity. Defined.

Lemma possession_output_run :
  parse_events opta_env possession_feed both_teams metadata_periods
  = Ok possession_output.
Proof. vm_compute. reflexivity. Defined.

Lemma clamped_output_run :
  parse_events opta_env clamped_feed both_teams metadata_periods
  = Ok clamped_output.
Proof. vm_compute. reflexivity. Defined.

Lemma parse_events_keeps_feed_order_witness :
  parse_events opta_env possession_feed both_teams metadata_periods
  = Ok possession_output
  /\ map (fun e => OptaEvent.event_id e) (map raw_of possession_output)
     = [2; 3; 4; 5]
  /\ subsequence (map raw_of possession_output) possession_feed
  /\ (List.length possession_output <= List.length possession_feed)%nat.
Proof.
  split; [exact possession_output_run |].
  split; [vm_compute; reflexivity |].
  exact (parse_events_keeps_feed_order unit opta_env possession_feed both_teams
           metadata_periods possession_output (opta_env_keeps raw_event)
           possession_output_run).
Defined.

Lemma markers_are_never_emitted_witness :
  parse_events opta_env clamped_feed both_teams metadata_periods
  = Ok clamped_output
  /\ map (is_marker opta_env) clamped_feed = [true; false; false; true]
  /\ Forall (fun ev => is_marker opta_env (raw_of ev) = false) clamped_output.
Proof.
  split; [exact clamped_output_run |].
  split; [vm_compute; reflexivity |].
  exact (markers_are_never_emitted unit opta_env clamped_feed both_teams
           metadata_periods clamped_output (opta_env_keeps raw_event)
           clamped_output_run).
Defined.

Lemma ball_state_follows_type_witness :
  parse_events opta_env possession_feed both_teams metadata_periods
  = Ok possession_output
  /\ map (fun ev => ball_state (generic ev)) possession_output
     = [ALIVE; DEAD; ALIVE; DEAD]
  /\ Forall (fun ev =>
               ball_state (generic ev)
               = if mem_Z (OptaEvent.type_id (raw_of ev))
                      (DEAD_BALL_EVENTS opta_env)
                 then DEAD else ALIVE) possession_output.
Proof.
  split; [exact possession_output_run |].
  split; [vm_compute; reflexivity |].
  exact (ball_state_follows_type unit opta_env possession_feed both_teams
           metadata_periods possession_output (opta_env_keeps raw_event)
           (opta_env_keeps ball_state) possession_output_run).
Defined.

Lemma emitted_team_and_player_witness :
  parse_events opta_env possession_feed both_teams metadata_periods
  = Ok possession_output
  /\ map (fun ev => Team.team_id (team (generic ev))) possession_output
     = ["t-home"; "t-away"; "t-away"; "t-home"]
  /\ Forall (fun ev =>
               _parse_team (raw_of ev) both_teams = Ok (team (generic ev))
               /\ OptaEvent.contestant_id (raw_of ev)
                  = Some (Team.team_id (team (generic ev)))
               /\ player (generic ev)
                  = resolve_player (team (generic ev)) (raw_of ev)
               /\ (forall p, player (generic ev) = Some p ->
                             In p (Team.players (team (generic ev)))
                             /\ OptaEvent.player_id (raw_of ev)
                                = Some (Player.player_id p)))
       possession_output.
Proof.
  split; [exact possession_output_run |].
  split; [vm_compute; reflexivity |].
  exact (emitted_team_and_player unit opta_env possession_feed both_teams
           metadata_periods possession_output (opta_env_keeps raw_event)
           (opta_env_keeps team) (opta_env_keeps player) possession_output_run).
Defined.

Lemma clamped_events_are_not_negative_witness :
  parse_events opta_env clamped_feed both_teams metadata_periods
  = Ok clamped_output
  /\ map (fun ev => (is_clamped (body ev), timestamp (generic ev))) clamped_output
     = [(true, TimeDelta 0); (true, TimeDelta 9000000)]
  /\ Forall (fun ev =>
               is_clamped (body ev) = true ->
               exists us, timestamp (generic ev) = TimeDelta us /\ 0 <= us)
       clamped_output.
Proof.
  split; [exact clamped_output_run |].
  split; [vm_compute; reflexivity |].
  exact (clamped_events_are_not_negative unit opta_env clamped_feed both_teams
           metadata_periods clamped_output (fun ev => eq_refl)
           (fun ev => eq_refl) clamped_output_run).
Defined.

(** ** The period objects after the pass *)

Lemma end_of_set_end (ts : pytime) (ps : list Period.t) :
  forall pi pj, (pi < List.length ps)%nat ->
    end_of (update_nth pi (Period.set_end ts) ps) pj
    = if Nat.eqb pj pi then Some ts else end_of ps pj.
Proof.
  unfold end_of.
  induction ps as [| p r IH]; intros pi pj Hlt; simpl in Hlt; [lia |].
  destruct pi as [| pi]; destruct pj as [| pj]; simpl; try reflexivity.
  apply IH. lia.
Qed.

Lemma end_of_set_start (ts : pytime) (ps : list Period.t) :
  forall pi pj,
    end_of (update_nth pi (Period.set_start ts) ps) pj = end_of ps pj.
Proof.
  unfold end_of.
  induction ps as [| p r IH]; intros pi pj.
  - destruct pi; reflexivity.
  - destruct pi as [| pi]; destruct pj as [| pj]; simpl; try reflexivity.
    apply IH.
Qed.

Lemma latest_mark_snoc (mark : OptaEvent.t -> bool) (seen : list OptaEvent.t)
    (e : OptaEvent.t) (initial : option pytime) :
  latest_mark mark (seen ++ [e]) initial
  = if mark e then Some (DateTime (OptaEvent.timestamp e))
    else latest_mark mark seen initial.
Proof.
  unfold latest_mark. rewrite rev_app_distr. simpl.
  destruct (mark e); reflexivity.
Qed.

Lemma ordinary_event_periods {K : Type} (E : env K) (e : OptaEvent.t)
    (team : Team.t) (pi : nat)
    (previous_event next_event next_next_event : option OptaEvent.t)
    (st st' : loop_state) :
  ordinary_event E e team pi previous_event next_event next_next_event st
  = Ok st' ->
  periods st' = periods st.
Proof.
  unfold ordinary_event. intros H.
  destruct (option_map Period.start_timestamp (nth_error (periods st) pi))
    as [[start |] |]; try (injection H as <-; reflexivity).
  destruct (negb (truthy_time (Some start))); [injection H as <-; reflexivity |].
  bind_inv H. injection H as <-. reflexivity.
Qed.

Lemma loop_body_periods_invariant {K : Type} (E : env K)
    (raw_events : list OptaEvent.t) (teams : Team.t * Team.t)
    (periods0 : list Period.t) (seen : list OptaEvent.t) (idx : Z)
    (e : OptaEvent.t) (st st' : loop_state) :
  periods_invariant E periods0 seen st ->
  loop_body E raw_events teams idx e st = Ok st' ->
  periods_invariant E periods0 (seen ++ [e]) st'.
Proof.
  intros [Hids Hmarks] Hbody. unfold periods_invariant.
  setoid_rewrite latest_mark_snoc.
  unfold loop_body in Hbody.
  bind_inv Hbody. bind_inv Hbody. bind_inv Hbody. bind_inv Hbody.
  rewrite (parse_period_ids e _ _ Hids) in Hbody.
  unfold opens, closes.
  destruct (_parse_period e periods0) as [pi |] eqn:Hper.
  - pose proof (find_index_lt _ _ _ Hper) as Hlt.
    rewrite <- (length_map Period.id), <- Hids, length_map in Hlt.
    destruct (OptaEvent.type_id e =? EVENT_TYPE_START_PERIOD E) eqn:Hstart.
    + injection Hbody as <-. cbn [periods negb andb].
      split; [rewrite update_nth_ids by reflexivity; exact Hids |].
      intros pj. rewrite start_of_set_start by exact Hlt.
      rewrite end_of_set_start, (Nat.eqb_sym pi pj).
      destruct (Nat.eqb pj pi); split; try reflexivity; apply Hmarks.
    + cbn [negb andb].
      destruct (OptaEvent.type_id e =? EVENT_TYPE_END_PERIOD E) eqn:Hend.
      * injection Hbody as <-. cbn [periods negb andb].
        split; [rewrite update_nth_ids by reflexivity; exact Hids |].
        intros pj. rewrite start_of_set_end.
        rewrite end_of_set_end by exact Hlt. rewrite (Nat.eqb_sym pi pj).
        destruct (Nat.eqb pj pi); split; try reflexivity; apply Hmarks.
      * cbn [negb andb].
        assert (Hsame : periods st' = periods st).
        { destruct (OptaEvent.type_id e =? EVENT_TYPE_PLAYER_ON E);
            [injection Hbody as <-; reflexivity |].
          exact (ordinary_event_periods E _ _ _ _ _ _ _ _ Hbody). }
        rewrite Hsame. split; [exact Hids | exact Hmarks].
  - injection Hbody as <-. rewrite !andb_false_r.
    split; [exact Hids | exact Hmarks].
Qed.

Lemma parse_loop_periods_invariant {K : Type} (E : env K)
    (raw_events : list OptaEvent.t) (teams : Team.t * Team.t)
    (periods0 : list Period.t) (rest : list OptaEvent.t) :
  forall (seen : list OptaEvent.t) (idx : Z) (st st' : loop_state),
    periods_invariant E periods0 seen st ->
    parse_loop E raw_events teams rest idx st = Ok st' ->
    periods_invariant E periods0 (seen ++ rest) st'.
Proof.
  induction rest as [| e rest IH]; intros seen idx st st' Hinv Hrun.
  - injection Hrun as <-. rewrite app_nil_r. exact Hinv.
  - cbn [parse_loop] in Hrun. bind_inv Hrun.
    pose proof (loop_body_periods_invariant E _ _ _ _ _ _ _ _ Hinv Hbind) as Hinv'.
    replace (seen ++ e :: rest)%list with ((seen ++ [e]) ++ rest)%list
      by (rewrite <- app_assoc; reflexivity).
    exact (IH _ _ _ _ Hinv' Hrun).
Qed.

Lemma initial_periods_invariant {K : Type} (E : env K)
    (periods0 : list Period.t) :
  periods_invariant E periods0 [] (initial_state periods0).
Proof. split; [reflexivity |]. intros pi. split; reflexivity. Qed.

(** The periods handed to the dataset are the period objects as the pass left
    them: same identifiers in the same order; the start (end) of a period is
    the time stamp of the latest start (end) marker of that period in the
    feed, and the value from the metadata when the feed has none. *)
Theorem periods_after_the_pass :
  forall (K : Type) (E : env K) (raw_events : list OptaEvent.t)
         (teams : Team.t * Team.t) (periods0 : list Period.t)
         (st : loop_state),
    parse_events_state E raw_events teams periods0 = Ok st ->
    map Period.id (periods st) = map Period.id periods0
    /\ forall pi,
         start_of (periods st) pi
         = latest_mark (opens E periods0 pi) raw_events (start_of periods0 pi)
         /\ end_of (periods st) pi
            = latest_mark (closes E periods0 pi) raw_events (end_of periods0 pi).
Proof.
  intros K E raw_events teams periods0 st Hrun.
  exact (parse_loop_periods_invariant E raw_events teams periods0 raw_events
           [] 0 _ _ (initial_periods_invariant E periods0) Hrun).
Qed.

Lemma periods_after_the_pass_witness :
  parse_events_state opta_env early_pass_feed both_teams metadata_periods
  = Ok early_pass_state
  /\ map Period.id (periods early_pass_state) = [1; 2]
  /\ start_of (periods early_pass_state) 0 = Some (DateTime kickoff)
  /\ end_of (periods early_pass_state) 0 = Some (TimeDelta 2704000000)
  /\ start_of (periods early_pass_state) 1
     = Some (DateTime (kickoff + 3605000000)).
Proof.
  assert (Hrun : parse_events_state opta_env early_pass_feed both_teams
                   metadata_periods = Ok early_pass_state)
    by (vm_compute; reflexivity).
  destruct (periods_after_the_pass unit opta_env early_pass_feed both_teams
              metadata_periods early_pass_state Hrun) as [Hids Hmarks].
  split; [exact Hrun |].
  split; [rewrite Hids; reflexivity |].
  split; [rewrite (proj1 (Hmarks 0%nat)); reflexivity |].
  split; [rewrite (proj2 (Hmarks 0%nat)); reflexivity |].
  rewrite (proj1 (Hmarks 1%nat)). reflexivity.
Defined.

(** An iteration only emits an event for an ordinary raw event of a known
    period that has a start: the period came with a non-zero start from the
    metadata, or a start marker of it stands earlier in the feed. *)
Theorem events_only_for_started_periods :
  forall (K : Type) (E : env K) (raw_events : list OptaEvent.t)
         (teams : Team.t * Team.t) (periods0 : list Period.t)
         (pre : list OptaEvent.t) (e : OptaEvent.t) (idx : Z)
         (st st' : loop_state),
    parse_loop E raw_events teams pre 0 (initial_state periods0) = Ok st ->
    loop_body E raw_events teams idx e st = Ok st' ->
    events st' <> events st ->
    exists pi,
      _parse_period e periods0 = Some pi
      /\ is_marker E e = false
      /\ (truthy_time (start_of periods0 pi) = true
          \/ exists m, In m pre /\ opens E periods0 pi m = true).
Proof.
  intros K E raw_events teams periods0 pre e idx st st' Hpre Hbody Hnew.
  pose proof (parse_loop_periods_invariant E raw_events teams periods0 pre
                [] 0 _ _ (initial_periods_invariant E periods0) Hpre)
    as [Hids Hmarks].
  simpl app in Hmarks.
  destruct (loop_body_emits E _ _ _ _ _ _ Hbody)
    as [Hsame | [team [pi [start [pe [ne [nne [ev H]]]]]]]];
    [contradiction |].
  destruct H as [_ [Hper [Hmark [Hstart [Htruthy _]]]]].
  exists pi. rewrite <- (parse_period_ids e _ _ Hids).
  split; [exact Hper |]. split; [exact Hmark |].
  rewrite (proj1 (Hmarks pi)) in Hstart. unfold latest_mark in Hstart.
  destruct (find (opens E periods0 pi) (rev pre)) as [m |] eqn:Hfind.
  - right. apply find_some in Hfind as [Hin Hopens].
    exists m. split; [apply in_rev; exact Hin | exact Hopens].
  - left. rewrite Hstart. exact Htruthy.
Qed.

Lemma events_only_for_started_periods_witness :
  parse_loop opta_env possession_feed both_teams possession_pre 0
    (initial_state unset_periods)
  = Ok (state_of (parse_loop opta_env possession_feed both_teams possession_pre
                    0 (initial_state unset_periods)))
  /\ truthy_time (start_of unset_periods 0) = false
  /\ exists pi,
       _parse_period possession_foul unset_periods = Some pi
       /\ is_marker opta_env possession_foul = false
       /\ (truthy_time (start_of unset_periods pi) = true
           \/ exists m, In m possession_pre
                        /\ opens opta_env unset_periods pi m = true).
Proof.
  assert (Hpre : parse_loop opta_env possession_feed both_teams possession_pre 0
                   (initial_state unset_periods)
                 = Ok (state_of (parse_loop opta_env possession_feed both_teams
                                   possession_pre 0 (initial_state unset_periods))))
    by (vm_compute; reflexivity).
  split; [exact Hpre |]. split; [reflexivity |].
  refine (events_only_for_started_periods unit opta_env possession_feed
            both_teams unset_periods possession_pre possession_foul 2 _
            (state_of (loop_body opta_env possession_feed both_teams 2
                         possession_foul
                         (state_of (parse_loop opta_env possession_feed
                                      both_teams possession_pre 0
                                      (initial_state unset_periods)))))
            Hpre _ _).
  - vm_compute. reflexivity.
  - intros H. vm_compute in H. discriminate H.
Defined.

(** ** Deleted events *)

Lemma subsequence_refl {A : Type} (l : list A) : subsequence l l.
Proof. induction l; constructor; assumption. Qed.

Lemma subsequence_trans {A : Type} (l1 l2 l3 : list A) :
  subsequence l1 l2 -> subsequence l2 l3 -> subsequence l1 l3.
Proof.
  intros H12 H23. revert l1 H12.
  induction H23 as [| a l2 l3 _ IH | a l2 l3 _ IH]; intros l1 H12.
  - exact H12.
  - apply subsequence_skip. apply IH. exact H12.
  - inversion H12 as [| b l1' l2' H | b l1' l2' H]; subst.
    + apply subsequence_skip. apply IH. exact H.
    + apply subsequence_take. apply IH. exact H.
Qed.

Lemma subsequence_filter {A : Type} (f : A -> bool) (l : list A) :
  subsequence (filter f l) l.
Proof.
  induction l as [| a r IH]; simpl; [constructor |].
  destruct (f a); constructor; exact IH.
Qed.

Lemma subsequence_In {A : Type} (l1 l2 : list A) :
  subsequence l1 l2 -> forall a, In a l1 -> In a l2.
Proof.
  induction 1 as [| b l1 l2 _ IH | b l1 l2 _ IH]; intros a Hin.
  - contradiction.
  - right. apply IH. exact Hin.
  - destruct Hin as [<- | Hin]; [left; reflexivity | right; apply IH; exact Hin].
Qed.

Lemma parse_events_of_state {K : Type} (E : env K)
    (raw_events : list OptaEvent.t) (teams : Team.t * Team.t)
    (periods0 : list Period.t) (st : loop_state) :
  parse_events_state E raw_events teams periods0 = Ok st ->
  parse_events E raw_events teams periods0 = Ok (events st).
Proof. intros H. unfold parse_events. rewrite H. reflexivity. Qed.

(** A deleted event has no effect at all, whatever team, period or
    qualifiers it carries: the pass gives the same result as for the feed
    without it.  No deleted event is behind an emitted event, and the output
    keeps the order of the extracted events. *)
Theorem deleted_events_are_invisible :
  forall (K : Type) (E : env K) (teams : Team.t * Team.t)
         (periods0 : list Period.t) (before : list OptaEvent.t)
         (d : OptaEvent.t) (after : list OptaEvent.t) (st : loop_state),
    keeps E raw_event ->
    OptaEvent.type_id d = EVENT_TYPE_DELETED_EVENT E ->
    parse_data E teams periods0 (before ++ d :: after) = Ok st ->
    parse_data E teams periods0 (before ++ after) = Ok st
    /\ subsequence (map raw_of (events st)) (before ++ after)
    /\ Forall (fun ev =>
                 OptaEvent.type_id (raw_of ev) <> EVENT_TYPE_DELETED_EVENT E)
         (events st).
Proof.
  intros K E teams periods0 before d after st Hkeeps Hd Hrun.
  assert (Hdrop : drop_deleted E (before ++ d :: after)
                  = drop_deleted E (before ++ after)).
  { unfold drop_deleted. rewrite !filter_app. simpl.
    rewrite Hd, Z.eqb_refl. reflexivity. }
  unfold parse_data in *. rewrite Hdrop in Hrun.
  split; [exact Hrun |].
  pose proof (parse_events_keeps_feed_order_aux E _ _ _ _ Hkeeps
                (parse_events_of_state E _ _ _ _ Hrun)) as Hsub.
  split.
  - apply (subsequence_trans _ _ _ Hsub). apply subsequence_filter.
  - apply Forall_forall. intros ev Hin.
    assert (Hraw : In (raw_of ev) (drop_deleted E (before ++ after))).
    { apply (subsequence_In _ _ Hsub). apply in_map. exact Hin. }
    unfold drop_deleted in Hraw. apply filter_In in Hraw as [_ Hne].
    apply negb_true_iff, Z.eqb_neq in Hne. exact Hne.
Qed.

Lemma deleted_events_are_invisible_witness :
  parse_data opta_env both_teams metadata_periods deleted_feed = Ok deleted_state
  /\ _parse_team (raw 2 43 1 (kickoff + 1000000) "t-other" "x" []) both_teams
     = Err (DeserializationError "Unknown team_id t-other")
  /\ parse_data opta_env both_teams metadata_periods
       [raw 1 32 1 kickoff "t-home" "" [];
        raw 3 1 1 (kickoff + 2000000) "t-home" "p1" []]
     = Ok deleted_state
  /\ map summary (events deleted_state) = [(3, 1, TimeDelta 2000000)].
Proof.
  assert (Hrun : parse_data opta_env both_teams metadata_periods deleted_feed
                 = Ok deleted_state) by (vm_compute; reflexivity).
  split; [exact Hrun |]. split; [reflexivity |].
  split; [| vm_compute; reflexivity].
  exact (proj1 (deleted_events_are_invisible unit opta_env both_teams
                  metadata_periods [raw 1 32 1 kickoff "t-home" "" []]
                  (raw 2 43 1 (kickoff + 1000000) "t-other" "x" [])
                  [raw 3 1 1 (kickoff + 2000000) "t-home" "p1" []]
                  deleted_state (opta_env_keeps raw_event) eq_refl Hrun)).
Defined.

(** ** Lookups *)

Lemma parse_nearby_event_forward_aux (raw_events : list OptaEvent.t)
    (idx offset : Z) :
  0 <= idx + offset ->
  _parse_nearby_event raw_events idx offset
  = Ok (nth_error raw_events (Z.to_nat (idx + offset))).
Proof.
  intros Hlo. unfold _parse_nearby_event.
  destruct (idx + offset <? Z.of_nat (List.length raw_events)) eqn:Hlt.
  - apply Z.ltb_lt in Hlt.
    rewrite py_list_index_in_range by lia.
    destruct (nth_error raw_events (Z.to_nat (idx + offset))) eqn:Hn;
      [reflexivity |].
    apply nth_error_None in Hn. lia.
  - apply Z.ltb_ge in Hlt.
    symmetry. f_equal. apply nth_error_None. lia.
Qed.

Lemma parse_nearby_event_wraps_aux (e : OptaEvent.t) (rest : list OptaEvent.t) :
  _parse_nearby_event (e :: rest) 0 (-1) = Ok (Some (last (e :: rest) e)).
Proof.
  unfold _parse_nearby_event, py_list_index.
  change (0 + -1) with (-1).
  replace (-1 <? Z.of_nat (List.length (e :: rest))) with true
    by (symmetry; apply Z.ltb_lt; lia).
  change (-1 <? 0) with true. cbv iota.
  replace (-1 + Z.of_nat (List.length (e :: rest)))
    with (Z.of_nat (List.length rest)) by (simpl List.length; lia).
  replace (Z.of_nat (List.length rest) <? 0) with false
    by (symmetry; apply Z.ltb_ge; lia).
  replace (Z.of_nat (List.length (e :: rest)) <=? Z.of_nat (List.length rest))
    with false by (symmetry; apply Z.leb_gt; simpl List.length; lia).
  simpl orb. cbv iota. rewrite Nat2Z.id, (nth_error_last rest e e). reflexivity.
Qed.

(** Inside the loop a neighbour lookup never raises; forward it gives the
    element at [idx + offset] or, past the end, nothing; the look-back of a
    later index gives the element before it. *)
Theorem parse_nearby_event_in_loop :
  forall (raw_events : list OptaEvent.t) (idx offset : Z),
    0 <= idx < Z.of_nat (List.length raw_events) ->
    offset = -1 \/ offset = 1 \/ offset = 2 ->
    (exists r, _parse_nearby_event raw_events idx offset = Ok r)
    /\ (0 <= idx + offset ->
        _parse_nearby_event raw_events idx offset
        = Ok (nth_error raw_events (Z.to_nat (idx + offset))))
    /\ (Z.of_nat (List.length raw_events) <= idx + offset ->
        _parse_nearby_event raw_events idx offset = Ok None).
Proof.
  intros raw_events idx offset Hidx Hoff.
  assert (Hfwd : 0 <= idx + offset ->
                 _parse_nearby_event raw_events idx offset
                 = Ok (nth_error raw_events (Z.to_nat (idx + offset))))
    by (apply parse_nearby_event_forward_aux).
  split; [| split; [exact Hfwd |]].
  - destruct (Z_le_gt_dec 0 (idx + offset)) as [Hpos | Hneg].
    + eexists. exact (Hfwd Hpos).
    + assert (idx = 0 /\ offset = -1) as [-> ->] by lia.
      destruct raw_events as [| e rest]; [simpl in Hidx; lia |].
      eexists. apply parse_nearby_event_wraps_aux.
  - intros Hpast. rewrite Hfwd by lia. f_equal.
    apply nth_error_None. lia.
Qed.

Lemma parse_nearby_event_in_loop_witness :
  _parse_nearby_event clamped_feed 1 (-1) = Ok (nth_error clamped_feed 0)
  /\ _parse_nearby_event clamped_feed 3 1 = Ok None.
Proof.
  split.
  - exact (proj1 (proj2 (parse_nearby_event_in_loop clamped_feed 1 (-1)
                           ltac:(simpl; lia) (or_introl eq_refl)))
             ltac:(lia)).
  - exact (proj2 (proj2 (parse_nearby_event_in_loop clamped_feed 3 1
                           ltac:(simpl; lia) (or_intror (or_introl eq_refl))))
             ltac:(simpl; lia)).
Defined.

Lemma find_index_first {A : Type} (f : A -> bool) (l : list A) :
  forall n, find_index f l = Some n ->
    exists a, nth_error l n = Some a /\ f a = true
              /\ forall j b, (j < n)%nat -> nth_error l j = Some b -> f b = false.
Proof.
  induction l as [| x r IH]; intros n H; simpl in H; [discriminate H |].
  destruct (f x) eqn:Hx.
  - injection H as <-. exists x. split; [reflexivity |]. split; [exact Hx |].
    intros j b Hj. lia.
  - destruct (find_index f r) as [m |] eqn:Hr; [| discriminate H].
    injection H as <-. destruct (IH m eq_refl) as [a [Hn [Ha Hbefore]]].
    exists a. split; [exact Hn |]. split; [exact Ha |].
    intros [| j] b Hj Hb; simpl in Hb.
    + injection Hb as <-. exact Hx.
    + apply (Hbefore j b); [lia | exact Hb].
Qed.

Lemma find_index_none {A : Type} (f : A -> bool) (l : list A) :
  find_index f l = None <-> forall a, In a l -> f a = false.
Proof.
  induction l as [| x r IH]; simpl.
  - split; [intros _ a [] | reflexivity].
  - destruct (f x) eqn:Hx.
    + split; [discriminate |]. intros H.
      specialize (H x (or_introl eq_refl)). congruence.
    + destruct (find_index f r) as [m |].
      * split; [discriminate |]. intros H.
        assert (Hr : Some m = None)
          by (apply IH; intros a Ha; apply H; right; exact Ha).
        discriminate Hr.
      * split; [| reflexivity]. intros _ a [<- | Ha]; [exact Hx |].
        apply (proj1 IH eq_refl a Ha).
Qed.

(** The period of a raw event is the FIRST period of the list with the
    event's period id; there is none exactly when no period has that id. *)
Theorem parse_period_first_match :
  forall (e : OptaEvent.t) (ps : list Period.t),
    (forall pi,
        _parse_period e ps = Some pi ->
        exists p,
          nth_error ps pi = Some p
          /\ Period.id p = OptaEvent.period_id e
          /\ forall j q, (j < pi)%nat -> nth_error ps j = Some q ->
                         Period.id q <> OptaEvent.period_id e)
    /\ (_parse_period e ps = None
        <-> forall p, In p ps -> Period.id p <> OptaEvent.period_id e).
Proof.
  intros e ps. unfold _parse_period. split.
  - intros pi H. destruct (find_index_first _ _ _ H) as [p [Hn [Hp Hbefore]]].
    exists p. split; [exact Hn |]. split; [apply Z.eqb_eq; exact Hp |].
    intros j q Hj Hq. apply Z.eqb_neq. exact (Hbefore j q Hj Hq).
  - rewrite find_index_none. split; intros H p Hin.
    + apply Z.eqb_neq. exact (H p Hin).
    + apply Z.eqb_neq. exact (H p Hin).
Qed.

(** ** The counterpart of a substitution *)

(** With two neighbours of which neither is the player-on marker named by
    qualifier 55 the substitution is a deserialization error; when the
    previous neighbour is that marker, the next one is not looked at, be it
    absent or a marker itself. *)
Theorem substitution_counterpart_search :
  forall (K : Type) (E : env K) (current_event previous : OptaEvent.t)
         (team : Team.t) (related_event_id : Z),
    py_int (pydict_get_default (OptaEvent.qualifiers current_event) (JInt 55))
    = Ok related_event_id ->
    (forall next,
        is_player_on_for E related_event_id previous = false ->
        is_player_on_for E related_event_id next = false ->
        _parse_substitution E current_event (Some previous) (Some next) team
        = Err (no_replacement current_event))
    /\ (forall next next',
           is_player_on_for E related_event_id previous = true ->
           _parse_substitution E current_event (Some previous) next team
           = _parse_substitution E current_event (Some previous) next' team)
    /\ (forall next,
           is_player_on_for E related_event_id previous = false ->
           is_player_on_for E related_event_id next = true ->
           _parse_substitution E current_event (Some previous) (Some next) team
           = _parse_substitution E current_event (Some next) None team).
Proof.
  intros K E current_event previous team related_event_id Hq.
  unfold _parse_substitution, is_player_on_for. rewrite Hq. cbn [bind].
  split; [| split].
  - intros next Hp Hn. cbn [find_player_on]. rewrite Hp, Hn. reflexivity.
  - intros next next' Hp. cbn [find_player_on]. rewrite Hp. reflexivity.
  - intros next Hp Hn. cbn [find_player_on]. rewrite Hp, Hn. reflexivity.
Qed.

Lemma substitution_counterpart_search_witness :
  _parse_substitution opta_env player_off (Some kickoff_marker)
    (Some kickoff_marker) home_team
  = Err (DeserializationError
           "Unable to determine replacement player for event_id 3")
  /\ _parse_substitution opta_env player_off (Some player_on_forward) None
       home_team
     = _parse_substitution opta_env player_off (Some player_on_forward)
         (Some kickoff_marker) home_team.
Proof.
  pose proof (substitution_counterpart_search unit opta_env player_off) as H.
  split.
  - exact (proj1 (H kickoff_marker home_team 7 eq_refl) kickoff_marker
             eq_refl eq_refl).
  - exact (proj1 (proj2 (H player_on_forward home_team 7 eq_refl))
             None (Some kickoff_marker) eq_refl).
Defined.

(** ** The qualifier map *)

Lemma key_eqb_spec (a b : json) :
  key_eqb a b = true <->
  (exists x y, key_num a = Some x /\ key_num b = Some y /\ Qeq x y)
  \/ (key_num a = None /\ key_num b = None
      /\ ((exists s, a = JStr s /\ b = JStr s) \/ (a = JNull /\ b = JNull))).
Proof.
  unfold key_eqb.
  destruct (key_num a) as [x |] eqn:Ha; destruct (key_num b) as [y |] eqn:Hb.
  - rewrite Qeq_bool_iff. split.
    + intros H. left. exists x, y. auto.
    + intros [[x' [y' [Hx [Hy H]]]] | [Hx _]]; [| discriminate Hx].
      injection Hx as <-. injection Hy as <-. exact H.
  - split.
    + destruct a; destruct b; try discriminate; simpl in *; discriminate.
    + intros [[x' [y' [_ [Hy _]]]] | [Hx _]]; discriminate.
  - split.
    + destruct a; destruct b; try discriminate; simpl in *; discriminate.
    + intros [[x' [y' [Hx _]]] | [_ [Hy _]]]; discriminate.
  - split.
    + intros H. right. split; [reflexivity |]. split; [reflexivity |].
      destruct a; destruct b; try discriminate H; simpl in *;
        try discriminate.
      * right. auto.
      * left. apply String.eqb_eq in H. subst. eauto.
    + intros [[x' [y' [Hx _]]] | [_ [_ [[s [-> ->]] | [-> ->]]]]].
      * discriminate Hx.
      * apply String.eqb_refl.
      * reflexivity.
Qed.

Lemma key_eqb_sym (a b : json) : key_eqb a b = key_eqb b a.
Proof.
  destruct (key_eqb a b) eqn:Hab; destruct (key_eqb b a) eqn:Hba;
    try reflexivity; exfalso.
  - apply key_eqb_spec in Hab.
    assert (key_eqb b a = true); [| congruence].
    apply key_eqb_spec.
    destruct Hab as [[x [y [Hx [Hy H]]]] | [Hx [Hy [[s [-> ->]] | [-> ->]]]]].
    + left. exists y, x. split; [exact Hy |]. split; [exact Hx |].
      symmetry. exact H.
    + right. split; [reflexivity |]. split; [reflexivity |]. left. eauto.
    + right. split; [reflexivity |]. split; [reflexivity |]. right. auto.
  - apply key_eqb_spec in Hba.
    assert (key_eqb a b = true); [| congruence].
    apply key_eqb_spec.
    destruct Hba as [[x [y [Hx [Hy H]]]] | [Hx [Hy [[s [-> ->]] | [-> ->]]]]].
    + left. exists y, x. split; [exact Hy |]. split; [exact Hx |].
      symmetry. exact H.
    + right. split; [reflexivity |]. split; [reflexivity |]. left. eauto.
    + right. split; [reflexivity |]. split; [reflexivity |]. right. auto.
Qed.

Lemma key_eqb_trans (a b c : json) :
  key_eqb a b = true -> key_eqb b c = true -> key_eqb a c = true.
Proof.
  intros Hab Hbc. apply key_eqb_spec in Hab. apply key_eqb_spec in Hbc.
  apply key_eqb_spec.
  destruct Hab as [[x [y [Hx [Hy H]]]] | [Hx [Hy Hab]]];
    destruct Hbc as [[y' [z [Hy' [Hz H']]]] | [Hy' [Hz Hbc]]].
  - left. exists x, z. split; [exact Hx |]. split; [exact Hz |].
    rewrite Hy in Hy'. injection Hy' as <-. rewrite H. exact H'.
  - rewrite Hy in Hy'. discriminate Hy'.
  - rewrite Hy in Hy'. discriminate Hy'.
  - right. split; [exact Hx |]. split; [exact Hz |].
    destruct Hab as [[s [-> ->]] | [-> ->]];
      destruct Hbc as [[s' [Hs ->]] | [Hs ->]]; try discriminate Hs.
    + injection Hs as <-. left. eauto.
    + right. auto.
Qed.

Lemma key_eqb_congr (k k0 k' : json) :
  key_eqb k k0 = true -> key_eqb k' k0 = key_eqb k' k.
Proof.
  intros H.
  destruct (key_eqb k' k0) eqn:H0; destruct (key_eqb k' k) eqn:H1;
    try reflexivity; exfalso.
  - rewrite key_eqb_sym in H.
    rewrite (key_eqb_trans _ _ _ H0 H) in H1. discriminate H1.
  - rewrite (key_eqb_trans _ _ _ H1 H) in H0. discriminate H0.
Qed.

(** Assignment and lookup in the qualifier dictionary: the assigned key, and
    every key equal to it, reads the new value; other keys read what they
    read before. *)
Lemma pydict_get_set (d : pydict) (k v k' : json) :
  pydict_get (pydict_set d k v) k'
  = if key_eqb k' k then Some v else pydict_get d k'.
Proof.
  induction d as [| [k0 v0] r IH]; simpl.
  - reflexivity.
  - destruct (key_eqb k k0) eqn:Hk; simpl.
    + rewrite (key_eqb_congr _ _ k' Hk).
      destruct (key_eqb k' k); reflexivity.
    + rewrite IH.
      destruct (key_eqb k' k0) eqn:H0; [| reflexivity].
      destruct (key_eqb k' k) eqn:H1; [| reflexivity].
      rewrite key_eqb_sym in H1.
      rewrite (key_eqb_trans _ _ _ H1 H0) in Hk. discriminate Hk.
Qed.

Lemma find_snoc {A : Type} (f : A -> bool) (l : list A) (a : A) :
  find f (rev (a :: l)) = match find f (rev l) with
                          | Some x => Some x
                          | None => if f a then Some a else None
                          end.
Proof.
  simpl. induction (rev l) as [| x r IH]; simpl.
  - reflexivity.
  - destruct (f x); [reflexivity | exact IH].
Qed.

Lemma build_qualifiers_lookup (items : list json) :
  forall (acc d : pydict) (k : json),
    build_qualifiers items acc = Ok d ->
    pydict_get d k
    = match find (entry_has_id k) (rev items) with
      | Some item => Some (entry_value item)
      | None => pydict_get acc k
      end.
Proof.
  induction items as [| item rest IH]; intros acc d k H.
  - injection H as <-. reflexivity.
  - rewrite find_snoc. cbn [build_qualifiers] in H. bind_inv H.
    destruct a.
    + destruct item as [| | | | | | kv]; try discriminate H.
      bind_inv H.
      destruct (hashable a) eqn:Hhash; [| discriminate H].
      rewrite (IH _ _ k H).
      destruct (find (entry_has_id k) (rev rest)); [reflexivity |].
      rewrite pydict_get_set.
      unfold entry_has_id, entry_id, entry_value.
      unfold getitem in Hbind0.
      destruct (assoc_get "qualifierId" kv) as [k0 |]; [| discriminate Hbind0].
      injection Hbind0 as <-. cbn [of_option].
      destruct (key_eqb k k0); reflexivity.
    + rewrite (IH _ _ k H).
      destruct (find (entry_has_id k) (rev rest)); [reflexivity |].
      unfold entry_has_id, entry_id.
      destruct item as [| | | | | | kv]; try reflexivity.
      simpl in Hbind. injection Hbind as Hbind.
      destruct (assoc_get "qualifierId" kv); [discriminate Hbind | reflexivity].
Qed.

(** The qualifier map of a raw event: a qualifier id reads the value of the
    LAST entry with that id (its [opValue] when the entry has one, else its
    [value], else [None]); an id that no entry carries is absent; entries
    without [qualifierId] leave no trace. *)
Theorem qualifiers_last_entry_wins :
  forall (items : list json) (d : pydict) (k : json),
    build_qualifiers items [] = Ok d ->
    pydict_get d k
    = option_map entry_value (find (entry_has_id k) (rev items)).
Proof.
  intros items d k H. rewrite (build_qualifiers_lookup items [] d k H).
  destruct (find (entry_has_id k) (rev items)); reflexivity.
Qed.

Lemma qualifiers_last_entry_wins_witness :
  exists d,
    build_qualifiers qualifier_entries [] = Ok d
    /\ pydict_get d (JInt 55) = Some (JStr "8")
    /\ pydict_get d (JInt 44) = Some (JStr "b")
    /\ pydict_get d (JInt 94) = None.
Proof.
  destruct (build_qualifiers qualifier_entries []) as [d | err] eqn:Hrun;
    [| vm_compute in Hrun; discriminate Hrun].
  exists d. split; [reflexivity |].
  split; [| split].
  - rewrite (qualifiers_last_entry_wins qualifier_entries d (JInt 55) Hrun).
    reflexivity.
  - rewrite (qualifiers_last_entry_wins qualifier_entries d (JInt 44) Hrun).
    reflexivity.
  - rewrite (qualifiers_last_entry_wins qualifier_entries d (JInt 94) Hrun).
    reflexivity.
Defined.

(** ** Extraction record by record *)

(** Extraction has no state across records: a feed in two parts gives the
    events of the first part followed by those of the second, and fails in
    the first part before it looks at the second. *)
Theorem extract_events_app :
  forall (K : Type) (E : env K) (a b : list json),
    extract_events E (a ++ b)
    = bind (extract_events E a)
        (fun xs => bind (extract_events E b) (fun ys => Ok (xs ++ ys)%list)).
Proof.
  intros K E a b. induction a as [| obj rest IH].
  - simpl. destruct (extract_events E b); reflexivity.
  - cbn [app extract_events].
    destruct (accepted_record obj) as [[oe |] | err]; cbn [bind].
    + destruct (build_opta_event E oe) as [e | err]; cbn [bind];
        [| reflexivity].
      rewrite IH.
      destruct (extract_events E rest) as [xs | err]; cbn [bind];
        [| reflexivity].
      destruct (extract_events E b) as [ys | err]; reflexivity.
    + exact IH.
    + reflexivity.
Qed.

(** ** Decimal text and the millisecond normal form *)

Lemma digits_value_app (s t : string) :
  forall a, digits_value (s ++ t) a = digits_value t (digits_value s a).
Proof.
  induction s as [| c r IH]; intros a; simpl; [reflexivity | apply IH].
Qed.

Lemma all_digits_app (s t : string) :
  all_digits (s ++ t) = all_digits s && all_digits t.
Proof.
  induction s as [| c r IH]; simpl; [reflexivity |].
  rewrite IH, andb_assoc. reflexivity.
Qed.

Lemma append_nil_r (s : string) : (s ++ EmptyString)%string = s.
Proof. induction s as [| c r IH]; simpl; [| rewrite IH]; reflexivity. Qed.

Lemma digit_char_digit (x : Z) :
  0 <= x < 10 ->
  is_digit (digit_char x) = true /\ digit_val (digit_char x) = x.
Proof.
  intros H.
  assert (Hx : x = 0 \/ x = 1 \/ x = 2 \/ x = 3 \/ x = 4 \/ x = 5 \/ x = 6
               \/ x = 7 \/ x = 8 \/ x = 9) by lia.
  repeat (destruct Hx as [-> | Hx]; [split; reflexivity |]).
  subst x. split; reflexivity.
Qed.

Lemma dec_digits_S (f : nat) (n : Z) (acc : string) :
  dec_digits (S f) n acc
  = if n / 10 =? 0 then String (digit_char (n mod 10)) acc
    else dec_digits f (n / 10) (String (digit_char (n mod 10)) acc).
Proof. reflexivity. Qed.

Lemma dec_digits_spec (f : nat) :
  forall (n : Z) (acc : string),
    0 <= n < 2 ^ Z.of_nat (S f) ->
    exists digs,
      dec_digits (S f) n acc = (digs ++ acc)%string
      /\ all_digits digs = true
      /\ digs <> EmptyString
      /\ digits_value digs 0 = n.
Proof.
  induction f as [| f IH]; intros n acc Hn; rewrite dec_digits_S;
    assert (Hmod : 0 <= n mod 10 < 10) by (apply Z.mod_pos_bound; lia);
    destruct (digit_char_digit _ Hmod) as [Hd Hv];
    destruct (n / 10 =? 0) eqn:Hq.
  - apply Z.eqb_eq in Hq.
    exists (String (digit_char (n mod 10)) EmptyString).
    split; [reflexivity |]. split; [simpl; rewrite Hd; reflexivity |].
    split; [discriminate |].
    simpl. rewrite Hv. pose proof (Z.div_mod n 10). lia.
  - apply Z.eqb_neq in Hq. exfalso. apply Hq.
    apply Z.div_small. simpl in Hn. lia.
  - apply Z.eqb_eq in Hq.
    exists (String (digit_char (n mod 10)) EmptyString).
    split; [reflexivity |]. split; [simpl; rewrite Hd; reflexivity |].
    split; [discriminate |].
    simpl. rewrite Hv. pose proof (Z.div_mod n 10). lia.
  - apply Z.eqb_neq in Hq.
    assert (Hdiv : 0 <= n / 10) by (apply Z.div_pos; lia).
    assert (Hpow : 2 ^ Z.of_nat (S (S f)) = 2 * 2 ^ Z.of_nat (S f))
      by (rewrite (Nat2Z.inj_succ (S f)), Z.pow_succ_r; lia).
    assert (Hlt : n / 10 < 2 ^ Z.of_nat (S f)).
    { apply Z.div_lt_upper_bound; lia. }
    destruct (IH (n / 10) (String (digit_char (n mod 10)) acc)
                (conj Hdiv Hlt))
      as [digs [Heq [Hall [Hne Hval]]]].
    exists (digs ++ String (digit_char (n mod 10)) EmptyString)%string.
    split; [rewrite Heq, append_assoc; reflexivity |].
    split; [rewrite all_digits_app, Hall; simpl; rewrite Hd; reflexivity |].
    split; [destruct digs; discriminate |].
    rewrite digits_value_app, Hval. cbn [digits_value]. rewrite Hv.
    pose proof (Z.div_mod n 10). lia.
Qed.

(** The decimal text of a non-negative integer is a non-empty run of digits
    with that value. *)
Lemma dec_of_Z_digits (n : Z) :
  0 <= n ->
  all_digits (dec_of_Z n) = true
  /\ dec_of_Z n <> EmptyString
  /\ digits_value (dec_of_Z n) 0 = n.
Proof.
  intros Hn. unfold dec_of_Z.
  assert (Hb : 0 <= n < 2 ^ Z.of_nat (S (Z.to_nat (Z.log2 n)))).
  { split; [exact Hn |].
    rewrite Nat2Z.inj_succ, Z2Nat.id by apply Z.log2_nonneg.
    destruct (Z.eq_dec n 0) as [-> | Hnz]; [reflexivity |].
    apply Z.log2_spec. lia. }
  destruct (dec_digits_spec _ n EmptyString Hb) as [digs [Heq [Hall [Hne Hval]]]].
  rewrite Heq, append_nil_r. auto.
Qed.

Lemma zeros_app_digits (k : nat) (s : string) :
  all_digits s = true ->
  all_digits (zeros k ++ s) = true
  /\ forall a, digits_value (zeros k ++ s) (0 * a) = digits_value s 0.
Proof.
  intros Hs. induction k as [| k [IH1 IH2]]; simpl.
  - split; [exact Hs | reflexivity].
  - split; [exact IH1 |]. intros a. exact (IH2 a).
Qed.

Lemma lpad_zeros_digits (w : nat) (s : string) :
  all_digits s = true -> s <> EmptyString ->
  all_digits (lpad_zeros w s) = true
  /\ lpad_zeros w s <> EmptyString
  /\ digits_value (lpad_zeros w s) 0 = digits_value s 0.
Proof.
  intros Hs Hne. unfold lpad_zeros.
  destruct (zeros_app_digits (w - String.length s) s Hs) as [H1 H2].
  split; [exact H1 |]. split.
  - destruct (zeros (w - String.length s)); simpl; [exact Hne | discriminate].
  - exact (H2 0).
Qed.

Lemma no_space_digits_strip (s : string) :
  all_digits s = true -> s <> EmptyString ->
  strip (String "-" s) = String "-" s.
Proof.
  intros Hs Hne. unfold strip. cbn [lstrip].
  change (is_space "-") with false. cbv iota. cbn [rstrip].
  rewrite (rstrip_digits _ Hs). destruct s; [contradiction | reflexivity].
Qed.

(** [int(f"{n:03d}") == n] *)
Lemma py_int_str_fmt03d (n : Z) : py_int_str (fmt03d n) = Ok n.
Proof.
  unfold fmt03d. destruct (n <? 0) eqn:Hneg.
  - apply Z.ltb_lt in Hneg.
    destruct (dec_of_Z_digits (- n)) as [Hall [Hne Hval]]; [lia |].
    destruct (lpad_zeros_digits 2 _ Hall Hne) as [Hall' [Hne' Hval']].
    unfold py_int_str. rewrite (no_space_digits_strip _ Hall' Hne').
    rewrite (int_body_digits _ 0 IntStart Hall' Hne'), Hval', Hval.
    simpl. f_equal. lia.
  - apply Z.ltb_ge in Hneg.
    destruct (dec_of_Z_digits n Hneg) as [Hall [Hne Hval]].
    destruct (lpad_zeros_digits 3 _ Hall Hne) as [Hall' [Hne' Hval']].
    rewrite (py_int_str_digits _ Hall' Hne'), Hval', Hval. reflexivity.
Qed.

Lemma no_char_app (c : ascii) (s t : string) :
  no_char c (s ++ t) = no_char c s && no_char c t.
Proof.
  induction s as [| a r IH]; simpl; [reflexivity |].
  rewrite IH, andb_assoc. reflexivity.
Qed.

Lemma fmt03d_no_dot (n : Z) : no_char "." (fmt03d n) = true.
Proof.
  unfold fmt03d. destruct (n <? 0) eqn:Hneg.
  - apply Z.ltb_lt in Hneg.
    destruct (dec_of_Z_digits (- n)) as [Hall [Hne _]]; [lia |].
    destruct (lpad_zeros_digits 2 _ Hall Hne) as [Hall' _].
    simpl. apply all_digits_no_dot. exact Hall'.
  - apply Z.ltb_ge in Hneg.
    destruct (dec_of_Z_digits n Hneg) as [Hall [Hne _]].
    destruct (lpad_zeros_digits 3 _ Hall Hne) as [Hall' _].
    apply all_digits_no_dot. exact Hall'.
Qed.

Lemma split_on_parts_no_char (c : ascii) (s : string) :
  Forall (fun p => no_char c p = true) (split_on c s).
Proof.
  induction s as [| a r IH]; simpl.
  - constructor; [reflexivity | constructor].
  - destruct (Ascii.eqb a c) eqn:Hac.
    + constructor; [reflexivity | exact IH].
    + destruct (split_on c r) as [| h t]; [constructor; [| constructor] |].
      * simpl. rewrite Hac. reflexivity.
      * inversion IH as [| x l Hh Ht]; subst.
        constructor; [simpl; rewrite Hac, Hh; reflexivity | exact Ht].
Qed.

Lemma split_on_single (c : ascii) (s : string) :
  List.length (split_on c s) = 1%nat -> no_char c s = true.
Proof.
  induction s as [| a r IH]; simpl; [reflexivity |].
  destruct (Ascii.eqb a c) eqn:Hac.
  - simpl. pose proof (split_on_nonempty c r).
    destruct (split_on c r); [contradiction | simpl; lia].
  - simpl. destruct (split_on c r) as [| h t] eqn:Hs.
    + exfalso. exact (split_on_nonempty _ _ Hs).
    + simpl. intros H. apply IH. simpl. exact H.
Qed.

Lemma split_on_head (c : ascii) (p t : string) :
  no_char c p = true ->
  split_on c (p ++ String c t) = p :: split_on c t.
Proof.
  induction p as [| a r IH]; intros Hp.
  - simpl. rewrite Ascii.eqb_refl. reflexivity.
  - simpl in Hp. apply andb_prop in Hp as [Ha Hr].
    apply negb_true_iff in Ha.
    change (String a r ++ String c t)%string with (String a (r ++ String c t)).
    cbn [split_on]. rewrite Ha, (IH Hr). reflexivity.
Qed.

Lemma split_on_concat (c : ascii) (parts : list string) :
  parts <> [] ->
  Forall (fun p => no_char c p = true) parts ->
  split_on c (String.concat (String c EmptyString) parts) = parts.
Proof.
  induction parts as [| p rest IH]; intros Hne Hall; [contradiction |].
  inversion Hall as [| x l Hp Hrest]; subst.
  destruct rest as [| q rest'].
  - simpl. apply split_on_no_char. exact Hp.
  - change (String.concat (String c EmptyString) (p :: q :: rest'))
      with (p ++ String c (String.concat (String c EmptyString) (q :: rest')))%string.
    rewrite (split_on_head c p _ Hp), IH; [reflexivity | discriminate | exact Hrest].
Qed.

Lemma init_last_spec (l : list string) :
  l <> [] -> l = (fst (init_last l) ++ [snd (init_last l)])%list.
Proof.
  induction l as [| a r IH]; intros Hne; [contradiction |].
  destruct r as [| b r']; [reflexivity |].
  specialize (IH ltac:(discriminate)).
  change (init_last (a :: b :: r'))
    with (let '(i, z) := init_last (b :: r') in (a :: i, z)).
  destruct (init_last (b :: r')) as [i z]. simpl in *. rewrite <- IH.
  reflexivity.
Qed.

Lemma Forall_app_l {A : Type} (P : A -> Prop) (l1 l2 : list A) :
  Forall P (l1 ++ l2) -> Forall P l1.
Proof. intros H. apply Forall_app in H. tauto. Qed.

Lemma zero_pad_milliseconds_fixed (s s' : string) :
  zero_pad_milliseconds s = Ok s' -> zero_pad_milliseconds s' = Ok s'.
Proof.
  unfold zero_pad_milliseconds at 1.
  destruct (List.length (split_on "." s) =? 1)%nat eqn:Hlen.
  - intros H. injection H as <-. apply Nat.eqb_eq in Hlen.
    exact (zero_pad_milliseconds_digits s "000" eq_refl
             (conj (le_S _ _ (le_S _ _ (le_n 1))) (le_n 3))).
  - apply Nat.eqb_neq in Hlen.
    pose proof (init_last_spec _ (split_on_nonempty "." s)) as Hsplit.
    pose proof (split_on_parts_no_char "." s) as Hparts.
    destruct (init_last (split_on "." s)) as [front ms]. simpl in Hsplit.
    intros H. bind_inv H. injection H as <-.
    assert (Hfront : front <> []).
    { intros ->. rewrite Hsplit in Hlen. simpl in Hlen. lia. }
    assert (Hall : Forall (fun p => no_char "." p = true)
                     (front ++ [fmt03d a])%list).
    { rewrite Hsplit in Hparts. apply Forall_app. split.
      - exact (Forall_app_l _ _ _ Hparts).
      - constructor; [apply fmt03d_no_dot | constructor]. }
    unfold zero_pad_milliseconds.
    rewrite (split_on_concat "." (front ++ [fmt03d a])%list); [| | exact Hall].
    + replace (List.length (front ++ [fmt03d a]) =? 1)%nat with false.
      * rewrite init_last_snoc, py_int_str_fmt03d. reflexivity.
      * symmetry. apply Nat.eqb_neq. rewrite length_app. simpl.
        destruct front; [contradiction | simpl; lia].
    + destruct front; discriminate.
Qed.

(** The padded text is a normal form: padding it again changes nothing, and
    a raw time stamp denotes the instant of its padded text. *)
Theorem zero_pad_milliseconds_normal_form :
  forall (K : Type) (E : env K) (s s' : string),
    zero_pad_milliseconds s = Ok s' ->
    zero_pad_milliseconds s' = Ok s'
    /\ _parse_insight_datetime E s' = _parse_insight_datetime E s.
Proof.
  intros K E s s' H.
  pose proof (zero_pad_milliseconds_fixed s s' H) as Hfix.
  split; [exact Hfix |].
  unfold _parse_insight_datetime. rewrite H, Hfix. reflexivity.
Qed.

Lemma zero_pad_milliseconds_normal_form_witness :
  zero_pad_milliseconds "2021-05-01T20:00:00.5" = Ok "2021-05-01T20:00:00.005"
  /\ zero_pad_milliseconds "2021-05-01T20:00:00.005"
     = Ok "2021-05-01T20:00:00.005"
  /\ _parse_insight_datetime opta_env "2021-05-01T20:00:00.005"
     = _parse_insight_datetime opta_env "2021-05-01T20:00:00.5".
Proof.
  split; [reflexivity |].
  exact (zero_pad_milliseconds_normal_form unit opta_env
           "2021-05-01T20:00:00.5" "2021-05-01T20:00:00.005" eq_refl).
Defined.



(** ** Frame rate and period offsets *)

Lemma extract_periods_loop_zero_rate (feed : json)
    (entries : list json) (fields : list entry_fields) :
  Forall2 reads_as entries fields ->
  extract_frame_rate feed = Ok 0 ->
  extract_periods_loop feed entries
  = if any_played fields then Err ZeroDivisionError else Ok [].
Proof.
  intros Hreads Hfr. unfold any_played.
  induction Hreads as [| entry f entries fields Hentry _ IH]; [reflexivity |].
  cbn [extract_periods_loop existsb].
  destruct f as [[n s] e]. destruct Hentry as [Hs [He Hn]].
  unfold extract_period. unfold read_int in Hs, He, Hn. rewrite Hs, He.
  cbn [bind]. unfold played in *. rewrite negb_andb in *.
  destruct (negb (s =? 0) || negb (e =? 0)).
  - rewrite (Hn eq_refl), Hfr. reflexivity.
  - cbn [bind orb]. rewrite IH.
    destruct (existsb _ fields); reflexivity.
Qed.

(** A frame rate of zero is fatal exactly when some period was played: the
    division is only made for a period that is kept. *)
Theorem extract_periods_zero_frame_rate :
  forall (feed : json) (entries : list json) (fields : list entry_fields),
    bind (py_getitem feed "periods") py_iter = Ok entries ->
    Forall2 reads_as entries fields ->
    extract_frame_rate feed = Ok 0 ->
    extract_periods feed
    = if any_played fields then Err ZeroDivisionError else Ok [].
Proof.
  intros feed entries fields Hentries Hreads Hfr.
  unfold extract_periods. rewrite Hentries. cbn [bind].
  exact (extract_periods_loop_zero_rate feed entries fields Hreads Hfr).
Qed.

Lemma extract_periods_zero_frame_rate_witness :
  extract_frame_rate metadata_doc_fps_zero = Ok 0
  /\ extract_periods metadata_doc_fps_zero = Err ZeroDivisionError
  /\ extract_periods (JDict [("fps", JInt 0);
                             ("periods", JList [period_entry 3 0 0])])
     = Ok [].
Proof.
  split; [reflexivity |]. split.
  - apply (extract_periods_zero_frame_rate metadata_doc_fps_zero
             [period_entry 3 0 0; period_entry 1 100 67600]
             [(3, 0, 0); (1, 100, 67600)]).
    + reflexivity.
    + repeat constructor; intros H; try reflexivity; discriminate H.
    + reflexivity.
  - apply (extract_periods_zero_frame_rate
             (JDict [("fps", JInt 0); ("periods", JList [period_entry 3 0 0])])
             [period_entry 3 0 0] [(3, 0, 0)]).
    + reflexivity.
    + repeat constructor; intros H; try reflexivity; discriminate H.
    + reflexivity.
Defined.








(** ** Lineups *)

Lemma map_result_list_Forall2 {A B : Type} (f : A -> result B) (l : list A) :
  forall r, map_result_list f l = Ok r -> Forall2 (fun a b => f a = Ok b) l r.
Proof.
  induction l as [| a rest IH]; intros r H.
  - injection H as <-. constructor.
  - cbn [map_result_list] in H. bind_inv H. bind_inv H. injection H as <-.
    constructor; [exact Hbind | exact (IH _ Hbind0)].
Qed.

Lemma build_team_shape (feed : json) (side : Team.ground) (team_id : json)
    (name players_key : string) (t : LineupTeam.t) :
  build_team feed side team_id name players_key = Ok t ->
  LineupTeam.team_id t = team_id
  /\ LineupTeam.name t = name
  /\ LineupTeam.side t = side
  /\ exists entries,
       bind (py_getitem feed players_key) py_iter = Ok entries
       /\ Forall2 (built_player side) entries (LineupTeam.players t).
Proof.
  unfold build_team. intros H. bind_inv H. bind_inv H. injection H as <-.
  simpl. repeat split. exists a. split; [exact Hbind |].
  exact (map_result_list_Forall2 _ _ _ Hbind0).
Qed.

(** The lineups are always two teams, home first; each has the identifier
    the document gives it and one player per entry of its player list, in
    the order of the list. *)
Theorem extract_lineups_shape :
  forall (feed : json) (teams : list LineupTeam.t),
    extract_lineups feed = Ok teams ->
    exists home away home_entries away_entries,
      teams = [home; away]
      /\ LineupTeam.side home = Team.HOME
      /\ LineupTeam.side away = Team.AWAY
      /\ py_getitem feed "homeOptaId" = Ok (LineupTeam.team_id home)
      /\ py_getitem feed "awayOptaId" = Ok (LineupTeam.team_id away)
      /\ bind (py_getitem feed "homePlayers") py_iter = Ok home_entries
      /\ bind (py_getitem feed "awayPlayers") py_iter = Ok away_entries
      /\ Forall2 (built_player Team.HOME) home_entries (LineupTeam.players home)
      /\ Forall2 (built_player Team.AWAY) away_entries (LineupTeam.players away)
      /\ List.length (LineupTeam.players home) = List.length home_entries
      /\ List.length (LineupTeam.players away) = List.length away_entries.
Proof.
  intros feed teams H. unfold extract_lineups in H.
  bind_inv H. bind_inv H. bind_inv H. bind_inv H. bind_inv H.
  injection H as <-.
  destruct (build_team_shape _ _ _ _ _ _ Hbind2)
    as [Hid [_ [Hside [hentries [Hh Hhp]]]]].
  destruct (build_team_shape _ _ _ _ _ _ Hbind3)
    as [Hid' [_ [Hside' [aentries [Ha Hap]]]]].
  exists a2, a3, hentries, aentries.
  rewrite Hid, Hid'.
  repeat split; try assumption.
  - symmetry. exact (Forall2_length Hhp).
  - symmetry. exact (Forall2_length Hap).
Qed.

Lemma extract_lineups_shape_witness :
  extract_lineups lineup_doc = Ok (lineups_of (extract_lineups lineup_doc))
  /\ map (fun t => (LineupTeam.team_id t, LineupTeam.side t,
                    map LineupPlayer.player_id (LineupTeam.players t)))
       (lineups_of (extract_lineups lineup_doc))
     = [(JStr "t-home", Team.HOME, [JStr "p1"; JStr "p2"]);
        (JStr "t-away", Team.AWAY, [])]
  /\ exists (home away : LineupTeam.t) (home_entries away_entries : list json),
       lineups_of (extract_lineups lineup_doc) = [home; away]
       /\ List.length (LineupTeam.players home) = List.length home_entries
       /\ List.length home_entries = 2%nat.
Proof.
  assert (Hrun : extract_lineups lineup_doc
                 = Ok (lineups_of (extract_lineups lineup_doc)))
    by (vm_compute; reflexivity).
  split; [exact Hrun |]. split; [vm_compute; reflexivity |].
  destruct (extract_lineups_shape lineup_doc _ Hrun)
    as [home [away [he [ae [Ht [_ [_ [_ [_ [Hhe [_ [_ [_ [Hlen _]]]]]]]]]]]]]].
  exists home, away, he, ae. split; [exact Ht |]. split; [exact Hlen |].
  vm_compute in Hhe. injection Hhe as <-. reflexivity.
Defined.

Lemma is_not_SUB_false (v : json) : is_not_SUB v = false <-> v = JStr "SUB".
Proof.
  destruct v; simpl; try (split; discriminate).
  rewrite negb_false_iff, String.eqb_eq. split; [intros -> | intros [= ->]];
    reflexivity.
Qed.

Lemma build_player_facts (side : Team.ground) (entry : json)
    (p : LineupPlayer.t) :
  build_player side entry = Ok p ->
  LineupPlayer.team_side p = side
  /\ (LineupPlayer.starting p = false
      <-> LineupPlayer.starting_position p = JStr "SUB")
  /\ Forall (fun kv => fst kv = "ssiId" \/ fst kv = "optaUuid")
       (LineupPlayer.attributes p).
Proof.
  unfold build_player. destruct entry as [| | | | | | kv]; try discriminate.
  intros H. bind_inv H. bind_inv H. bind_inv H. bind_inv H.
  injection H as <-. simpl.
  split; [reflexivity |]. split; [apply is_not_SUB_false |].
  apply Forall_forall. intros [k v] Hin. apply filter_In in Hin as [_ Hk].
  simpl in Hk. rewrite orb_false_r in Hk. apply orb_prop in Hk.
  simpl. destruct Hk as [Hk | Hk]; apply String.eqb_eq in Hk; auto.
Qed.

(** Every player of the extracted lineups refers to the side of the team it
    is listed in, is a starter unless its position is the text "SUB", and
    keeps of the extra fields of its record only [ssiId] and [optaUuid]. *)
Theorem extract_lineups_players :
  forall (feed : json) (teams : list LineupTeam.t),
    extract_lineups feed = Ok teams ->
    Forall (fun t =>
              Forall (fun p =>
                        LineupPlayer.team_side p = LineupTeam.side t
                        /\ (LineupPlayer.starting p = false
                            <-> LineupPlayer.starting_position p = JStr "SUB")
                        /\ Forall (fun kv => fst kv = "ssiId"
                                             \/ fst kv = "optaUuid")
                             (LineupPlayer.attributes p))
                (LineupTeam.players t)) teams.
Proof.
  intros feed teams H. unfold extract_lineups in H.
  bind_inv H. bind_inv H. bind_inv H. bind_inv H. bind_inv H.
  injection H as <-.
  assert (Hteam : forall side id name key t,
             build_team feed side id name key = Ok t ->
             Forall (fun p =>
                       LineupPlayer.team_side p = LineupTeam.side t
                       /\ (LineupPlayer.starting p = false
                           <-> LineupPlayer.starting_position p = JStr "SUB")
                       /\ Forall (fun kv => fst kv = "ssiId"
                                            \/ fst kv = "optaUuid")
                            (LineupPlayer.attributes p))
               (LineupTeam.players t)).
  { intros side id name key t Ht.
    destruct (build_team_shape _ _ _ _ _ _ Ht)
      as [_ [_ [Hside [entries [_ Hplayers]]]]].
    rewrite Hside. clear Ht.
    induction Hplayers as [| entry p entries ps Hp _ IH]; constructor.
    - exact (build_player_facts _ _ _ Hp).
    - exact IH. }
  constructor; [exact (Hteam _ _ _ _ _ Hbind2) |].
  constructor; [exact (Hteam _ _ _ _ _ Hbind3) | constructor].
Qed.

Lemma extract_lineups_players_witness :
  extract_lineups lineup_doc = Ok (lineups_of (extract_lineups lineup_doc))
  /\ map (fun t => map (fun p => (LineupPlayer.starting p,
                                  LineupPlayer.attributes p))
                     (LineupTeam.players t))
       (lineups_of (extract_lineups lineup_doc))
     = [[(true, [("ssiId", JStr "s1")]); (false, [])]; []]
  /\ Forall (fun t =>
               Forall (fun p =>
                         LineupPlayer.team_side p = LineupTeam.side t
                         /\ (LineupPlayer.starting p = false
                             <-> LineupPlayer.starting_position p = JStr "SUB")
                         /\ Forall (fun kv => fst kv = "ssiId"
                                              \/ fst kv = "optaUuid")
                              (LineupPlayer.attributes p))
                 (LineupTeam.players t))
       (lineups_of (extract_lineups lineup_doc)).
Proof.
  assert (Hrun : extract_lineups lineup_doc
                 = Ok (lineups_of (extract_lineups lineup_doc)))
    by (vm_compute; reflexivity).
  split; [exact Hrun |]. split; [vm_compute; reflexivity |].
  exact (extract_lineups_players lineup_doc _ Hrun).
Defined.









(** ** Choosing the event parser, and the order of loading *)






(** ** What the caller's filter and transformer can change *)

Lemma build_event_with_caller {K : Type} (E : env K)
    (include : Event K -> bool) (transform : Event K -> Event K)
    (e : OptaEvent.t) (team : Team.t)
    (previous_event next_event next_next_event : option OptaEvent.t)
    (start : pytime) (g : generic_kwargs) :
  build_event (with_caller E include transform) e team previous_event
    next_event next_next_event start g
  = build_event E e team previous_event next_event next_next_event start g.
Proof. reflexivity. Qed.

Lemma caller_view_snoc {K : Type} (include : Event K -> bool)
    (transform : Event K -> Event K) (built : list (Event K)) (ev : Event K) :
  map transform (filter include (built ++ [ev]))
  = if include ev
    then (map transform (filter include built) ++ [transform ev])%list
    else map transform (filter include built).
Proof.
  rewrite filter_app. cbn [filter].
  destruct (include ev).
  - rewrite map_app. reflexivity.
  - rewrite app_nil_r. reflexivity.
Qed.

Lemma loop_body_caller_view {K : Type} (E : env K)
    (include : Event K -> bool) (transform : Event K -> Event K)
    (raw_events : list OptaEvent.t) (teams : Team.t * Team.t) (idx : Z)
    (e : OptaEvent.t) (st : loop_state) :
  loop_body (with_caller E include transform) raw_events teams idx e
    (caller_view include transform st)
  = map_result (caller_view include transform)
      (loop_body (with_caller E (fun _ => true) (fun ev => ev)) raw_events
         teams idx e st).
Proof.
  unfold loop_body.
  destruct (_parse_team e teams) as [team | err]; [| reflexivity].
  cbn [bind].
  destruct (_parse_nearby_event raw_events idx (-1)) as [pe | err];
    [| reflexivity].
  cbn [bind].
  destruct (_parse_nearby_event raw_events idx 1) as [ne | err];
    [| reflexivity].
  cbn [bind].
  destruct (_parse_nearby_event raw_events idx 2) as [nne | err];
    [| reflexivity].
  cbn [bind].
  change (periods (caller_view include transform st)) with (periods st).
  destruct (_parse_period e (periods st)) as [pi |]; [| reflexivity].
  change (EVENT_TYPE_START_PERIOD (with_caller E include transform))
    with (EVENT_TYPE_START_PERIOD E).
  change (EVENT_TYPE_START_PERIOD (with_caller E (fun _ => true) (fun ev => ev)))
    with (EVENT_TYPE_START_PERIOD E).
  change (EVENT_TYPE_END_PERIOD (with_caller E include transform))
    with (EVENT_TYPE_END_PERIOD E).
  change (EVENT_TYPE_END_PERIOD (with_caller E (fun _ => true) (fun ev => ev)))
    with (EVENT_TYPE_END_PERIOD E).
  change (EVENT_TYPE_PLAYER_ON (with_caller E include transform))
    with (EVENT_TYPE_PLAYER_ON E).
  change (EVENT_TYPE_PLAYER_ON (with_caller E (fun _ => true) (fun ev => ev)))
    with (EVENT_TYPE_PLAYER_ON E).
  destruct (OptaEvent.type_id e =? EVENT_TYPE_START_PERIOD E);
    [reflexivity |].
  destruct (OptaEvent.type_id e =? EVENT_TYPE_END_PERIOD E);
    [reflexivity |].
  destruct (OptaEvent.type_id e =? EVENT_TYPE_PLAYER_ON E);
    [reflexivity |].
  unfold ordinary_event.
  change (periods (caller_view include transform st)) with (periods st).
  destruct (option_map Period.start_timestamp (nth_error (periods st) pi))
    as [[start |] |]; [| reflexivity | reflexivity].
  destruct (negb (truthy_time (Some start))); [reflexivity |].
  rewrite !build_event_with_caller.
  change (possession_team (caller_view include transform st))
    with (possession_team st).
  change (BALL_OWNING_EVENTS (with_caller E include transform))
    with (BALL_OWNING_EVENTS E).
  change (BALL_OWNING_EVENTS (with_caller E (fun _ => true) (fun ev => ev)))
    with (BALL_OWNING_EVENTS E).
  change (DEAD_BALL_EVENTS (with_caller E include transform))
    with (DEAD_BALL_EVENTS E).
  change (DEAD_BALL_EVENTS (with_caller E (fun _ => true) (fun ev => ev)))
    with (DEAD_BALL_EVENTS E).
  match goal with
  | |- context [build_event E e team pe ne nne start ?g] =>
      destruct (build_event E e team pe ne nne start g) as [ev | err];
        [| reflexivity]
  end.
  cbn [bind map_result should_include_event transform_event with_caller].
  unfold caller_view. cbn [periods possession_team events].
  rewrite caller_view_snoc.
  destruct (include ev); reflexivity.
Qed.

Lemma parse_loop_caller_view {K : Type} (E : env K)
    (include : Event K -> bool) (transform : Event K -> Event K)
    (raw_events : list OptaEvent.t) (teams : Team.t * Team.t)
    (rest : list OptaEvent.t) :
  forall (idx : Z) (st : loop_state),
    parse_loop (with_caller E include transform) raw_events teams rest idx
      (caller_view include transform st)
    = map_result (caller_view include transform)
        (parse_loop (with_caller E (fun _ => true) (fun ev => ev)) raw_events
           teams rest idx st).
Proof.
  induction rest as [| e rest IH]; intros idx st.
  - reflexivity.
  - cbn [parse_loop]. rewrite loop_body_caller_view.
    destruct (loop_body (with_caller E (fun _ => true) (fun ev => ev))
                raw_events teams idx e st) as [st' | err];
      cbn [map_result bind]; [apply IH | reflexivity].
Qed.

(** The inclusion predicate and the transformer that the caller passes to
    [parse_events] decide which of the built events are returned and in what
    form, and nothing else: the pass with any predicate and transformer
    fails exactly when the pass that includes everything unchanged fails,
    with the same error, and otherwise leaves the same periods and the same
    possession and returns the transformed events of the latter that the
    predicate accepts, in the same order. *)
Theorem caller_filter_only_selects :
  forall (K : Type) (E : env K) (include : Event K -> bool)
         (transform : Event K -> Event K) (raw_events : list OptaEvent.t)
         (teams : Team.t * Team.t) (periods0 : list Period.t),
    parse_events_state (with_caller E include transform) raw_events teams
      periods0
    = map_result (caller_view include transform)
        (parse_all E raw_events teams periods0)
    /\ parse_events (with_caller E include transform) raw_events teams periods0
       = map_result (fun built => map transform (filter include built))
           (parse_events (with_caller E (fun _ => true) (fun ev => ev))
              raw_events teams periods0).
Proof.
  intros K E include transform raw_events teams periods0.
  assert (Hstate :
            parse_events_state (with_caller E include transform) raw_events
              teams periods0
            = map_result (caller_view include transform)
                (parse_all E raw_events teams periods0)).
  { unfold parse_all, parse_events_state.
    rewrite <- parse_loop_caller_view. reflexivity. }
  split; [exact Hstate |].
  unfold parse_events. rewrite Hstate. unfold parse_all.
  destruct (parse_events_state (with_caller E (fun _ => true) (fun ev => ev))
              raw_events teams periods0) as [st | err]; reflexivity.
Qed.

(** ** Time stamps count from the start of the period *)

Lemma build_event_timestamp {K : Type} (E : env K) (raw_event : OptaEvent.t)
    (team : Team.t)
    (previous_event next_event next_next_event : option OptaEvent.t)
    (start : pytime) (g : generic_kwargs) (ev : Event K) :
  build_event E raw_event team previous_event next_event next_next_event start g
  = Ok ev ->
  (is_plain (body ev) = true -> timestamp (generic ev) = timestamp g)
  /\ (is_clamped (body ev) = true ->
      clamp_timedelta (timestamp g) = Ok (timestamp (generic ev))).
Proof.
  intros H. unfold build_event in H.
  repeat match type of H with
         | (if ?c then _ else _) = _ => destruct c eqn:?
         end;
    repeat match goal with
           | H : bind ?m _ = Ok _ |- _ => bind_inv H
           end;
    injection H as <-; simpl; split; intros Hc; try discriminate Hc;
    try reflexivity; assumption.
Qed.

Lemma snoc_not_same {A : Type} (l : list A) (a : A) : (l ++ [a])%list <> l.
Proof.
  intros H. apply (f_equal (@List.length A)) in H.
  rewrite length_app in H. simpl in H. lia.
Qed.

(** An event's time stamp counts from the latest start marker of its period
    that stands before it in the feed, and from the start the period came
    with when there is none: for an event that is neither a shot, a
    formation change nor a substitution it is the raw time stamp minus that
    start, also when this is negative; for a formation change or a
    substitution it is that difference or zero, whichever is larger. *)
Theorem timestamps_count_from_latest_start :
  forall (K : Type) (E : env K) (raw_events : list OptaEvent.t)
         (teams : Team.t * Team.t) (periods0 : list Period.t)
         (pre : list OptaEvent.t) (e : OptaEvent.t) (idx : Z)
         (st st' : loop_state) (ev : Event K) (pi : nat) (s : Z),
    (forall ev, body (transform_event E ev) = body ev) ->
    (forall ev, timestamp (generic (transform_event E ev))
                = timestamp (generic ev)) ->
    parse_loop E raw_events teams pre 0 (initial_state periods0) = Ok st ->
    loop_body E raw_events teams idx e st = Ok st' ->
    events st' = (events st ++ [ev])%list ->
    _parse_period e periods0 = Some pi ->
    latest_mark (opens E periods0 pi) pre (start_of periods0 pi)
    = Some (DateTime s) ->
    (is_plain (body ev) = true ->
     timestamp (generic ev) = TimeDelta (OptaEvent.timestamp e - s))
    /\ (is_clamped (body ev) = true ->
        timestamp (generic ev)
        = TimeDelta (Z.max 0 (OptaEvent.timestamp e - s))).
Proof.
  intros K E raw_events teams periods0 pre e idx st st' ev pi s Hbody Hts
         Hpre Hstep Hnew Hper Hmark.
  pose proof (parse_loop_periods_invariant E raw_events teams periods0 pre
                [] 0 _ _ (initial_periods_invariant E periods0) Hpre)
    as [Hids Hmarks].
  simpl app in Hmarks.
  destruct (loop_body_emits E _ _ _ _ _ _ Hstep)
    as [Hsame | [team [pj [start [pe [ne [nne [ev0 H]]]]]]]].
  - rewrite Hsame in Hnew. symmetry in Hnew.
    exfalso. exact (snoc_not_same _ _ Hnew).
  - destruct H as [_ [Hper' [_ [Hstart [_ [Hbuild [_ Hev]]]]]]].
    rewrite (parse_period_ids e _ _ Hids) in Hper'.
    rewrite Hper in Hper'. injection Hper' as <-.
    rewrite (proj1 (Hmarks pi)), Hmark in Hstart. injection Hstart as <-.
    rewrite Hev in Hnew. apply app_inv_head in Hnew. injection Hnew as <-.
    rewrite Hbody, Hts.
    destruct (build_event_timestamp E _ _ _ _ _ _ _ _ Hbuild)
      as [Hplain Hclamp].
    cbn [timestamp datetime_sub] in Hplain, Hclamp.
    split.
    + exact Hplain.
    + intros Hc. specialize (Hclamp Hc). cbn [clamp_timedelta] in Hclamp.
      injection Hclamp as <-. reflexivity.
Qed.

Lemma timestamps_count_from_latest_start_witness :
  (exists ev,
      events foul_post_state = (events foul_pre_state ++ [ev])%list
      /\ is_plain (body ev) = true
      /\ timestamp (generic ev) = TimeDelta 2000000)
  /\ (exists ev,
         events formation_post_state
         = (events formation_pre_state ++ [ev])%list
         /\ is_clamped (body ev) = true
         /\ timestamp (generic ev) = TimeDelta 0).
Proof.
  split.
  - eexists. split; [vm_compute; reflexivity |].
    split; [reflexivity |].
    refine (proj1 (timestamps_count_from_latest_start unit opta_env
                     possession_feed both_teams unset_periods possession_pre
                     possession_foul 2 foul_pre_state foul_post_state _
                     0%nat kickoff _ _ _ _ _ _ _) _).
    + intros ev. reflexivity.
    + intros ev. reflexivity.
    + vm_compute. reflexivity.
    + vm_compute. reflexivity.
    + vm_compute. reflexivity.
    + reflexivity.
    + reflexivity.
    + reflexivity.
  - eexists. split; [vm_compute; reflexivity |].
    split; [reflexivity |].
    refine (proj2 (timestamps_count_from_latest_start unit opta_env
                     clamped_feed both_teams unset_periods
                     (firstn 1 clamped_feed) early_formation_change 1
                     formation_pre_state formation_post_state _
                     0%nat kickoff _ _ _ _ _ _ _) _).
    + intros ev. reflexivity.
    + intros ev. reflexivity.
    + vm_compute. reflexivity.
    + vm_compute. reflexivity.
    + vm_compute. reflexivity.
    + reflexivity.
    + reflexivity.
    + reflexivity.
Defined.
